(** * Jarvis voice assistant: command routing, privacy store, secure storage

    A shallow embedding of the command dispatcher
    ([src/command_processing/processor.py]), of the security manager
    ([src/system_operations/security_manager.py]) and of the path resolver of
    the system handler ([src/system_operations/system_handler.py]), followed
    by the properties proved about them.

    Conventions of the embedding.
    - A Python [str] is a [string]; a character stands for the code point of
      the same number, so the development covers text over the code points
      below 256.
    - A Python dictionary keyed by strings is a [gmap string _]; the ordered
      pattern table (a dict literal iterated in insertion order) is a list
      of pairs.
    - Speech output and calls into operating-system collaborators are
      recorded as a trace of events; what a collaborator answers is read
      from an environment record.
    - Exceptions are values of an error monad; the class of an exception
      decides whether [except Exception] catches it.
    - Paths are those of [pathlib] on Windows, the one system the program
      loads on ([app_finder.py] imports [winreg]). *)

From Stdlib Require Import Ascii String ZArith Lia List Bool.
From stdpp Require Import base option list gmap strings.

Open Scope string_scope.

(** ** Python string methods *)

Module PyStr.

(** [str.isspace] on one character, for code points below 256. *)
Definition is_space (c : ascii) : bool :=
  let n := nat_of_ascii c in
  (((9 <=? n) && (n <=? 13)) || ((28 <=? n) && (n <=? 32))
   || (n =? 133) || (n =? 160))%nat.

(** [str.lower] on one character, for code points below 256: the ASCII
    capitals and the Latin-1 capitals (0xC0-0xDE without the multiplication
    sign 0xD7) move up by 32. *)
Definition lower_char (c : ascii) : ascii :=
  let n := nat_of_ascii c in
  if (((65 <=? n) && (n <=? 90))
      || ((192 <=? n) && (n <=? 222) && negb (n =? 215)))%nat
  then ascii_of_nat (n + 32) else c.

Fixpoint lower (s : string) : string :=
  match s with
  | EmptyString => EmptyString
  | String c r => String (lower_char c) (lower r)
  end.

(** [s.lstrip()] *)
Fixpoint lstrip (s : string) : string :=
  match s with
  | String c r => if is_space c then lstrip r else s
  | EmptyString => EmptyString
  end.

(** [s.rstrip()] *)
Fixpoint rstrip (s : string) : string :=
  match s with
  | EmptyString => EmptyString
  | String c r =>
      match rstrip r with
      | EmptyString => if is_space c then EmptyString else String c EmptyString
      | r' => String c r'
      end
  end.

(** [s.strip()] *)
Definition strip (s : string) : string := rstrip (lstrip s).

(** [s.lstrip(chars)] *)
Fixpoint lstrip_chars (chars : list ascii) (s : string) : string :=
  match s with
  | String c r => if bool_decide (c ∈ chars) then lstrip_chars chars r else s
  | EmptyString => EmptyString
  end.

(** [s.startswith(p)] *)
Fixpoint startswith (p s : string) : bool :=
  match p, s with
  | EmptyString, _ => true
  | String a p', String b s' => bool_decide (a = b) && startswith p' s'
  | String _ _, EmptyString => false
  end.

(** [sub in s] *)
Fixpoint contains (sub s : string) : bool :=
  startswith sub s ||
  match s with
  | EmptyString => false
  | String _ r => contains sub r
  end.

(** [s[n:]] for a non-negative [n] *)
Fixpoint drop_str (n : nat) (s : string) : string :=
  match n, s with
  | 0, _ => s
  | S n', String _ r => drop_str n' r
  | S _, EmptyString => EmptyString
  end.

(** [s[:n]] for a non-negative [n] *)
Fixpoint take_str (n : nat) (s : string) : string :=
  match n, s with
  | 0, _ => EmptyString
  | S n', String c r => String c (take_str n' r)
  | S _, EmptyString => EmptyString
  end.

(** [s.split()]: the maximal runs of non-space characters. *)
Fixpoint split_ws_aux (cur : string) (s : string) : list string :=
  match s with
  | EmptyString =>
      match cur with EmptyString => [] | _ => [cur] end
  | String c r =>
      if is_space c
      then match cur with
           | EmptyString => split_ws_aux EmptyString r
           | _ => cur :: split_ws_aux EmptyString r
           end
      else split_ws_aux (cur ++ String c EmptyString) r
  end.

Definition split_ws (s : string) : list string := split_ws_aux EmptyString s.

(** Truthiness of an optional string: [None] and [""] are falsy. *)
Definition truthy (v : option string) : bool :=
  match v with
  | Some (String _ _) => true
  | _ => false
  end.

End PyStr.

(** ** Regular expressions: the fragment of [re] the pattern table uses *)

Module Regex.
Import PyStr.

Inductive cls := AnyChar | Space.

(** [.] matches everything but a newline; [\s] matches [str.isspace]. *)
Definition in_cls (k : cls) (c : ascii) : bool :=
  match k with
  | AnyChar => negb (bool_decide (c = "010"%char))
  | Space => is_space c
  end.

Inductive regex :=
| RChar (c : ascii)
| RSet (k : cls)
| RPlus (k : cls) (greedy : bool)
| REps
| RSeq (a b : regex)
| RAlt (a b : regex)
| ROpt (a : regex)
| RGroup (n : nat) (a : regex)
| REnd.

(** *** Parsing a pattern *)

Record pstate := { next_group : nat; names : list (string * nat) }.

Definition parsed : Type := regex * string * pstate.

(** Reads a group name up to the closing [>]. *)
Fixpoint read_name (s : string) : option (string * string) :=
  match s with
  | EmptyString => None
  | String c r =>
      if bool_decide (c = ">"%char) then Some (EmptyString, r)
      else match read_name r with
           | Some (n, r') => Some (String c n, r')
           | None => None
           end
  end.

(** The quantifier after an atom: [+] and [+?] on a character class, [?]
    on anything. Other quantifiers are outside the fragment. *)
Definition quantify (a : regex) (s : string) (st : pstate) : option parsed :=
  match s with
  | String "+" (String "?" r) =>
      match a with RSet k => Some (RPlus k false, r, st) | _ => None end
  | String "+" r =>
      match a with RSet k => Some (RPlus k true, r, st) | _ => None end
  | String "?" (String "?" _) => None
  | String "?" (String "+" _) => None
  | String "?" r => Some (ROpt a, r, st)
  | String "*" _ => None
  | String "{" _ => None
  | _ => Some (a, s, st)
  end.

Definition is_meta (c : ascii) : bool :=
  bool_decide (c ∈ ["["; "]"; "^"; "*"; "+"; "?"; "{"; "}"]%char).

Fixpoint parse_alt (fuel : nat) (s : string) (st : pstate) : option parsed :=
  match fuel with
  | 0 => None
  | S f =>
      match parse_seq f s st with
      | Some (a, String "|" r, st1) =>
          match parse_alt f r st1 with
          | Some (b, r', st2) => Some (RAlt a b, r', st2)
          | None => None
          end
      | res => res
      end
  end
with parse_seq (fuel : nat) (s : string) (st : pstate) : option parsed :=
  match fuel with
  | 0 => None
  | S f =>
      match s with
      | EmptyString => Some (REps, s, st)
      | String "|" _ => Some (REps, s, st)
      | String ")" _ => Some (REps, s, st)
      | _ =>
          match parse_atom f s st with
          | Some (a, r, st1) =>
              match parse_seq f r st1 with
              | Some (REps, r', st2) => Some (a, r', st2)
              | Some (b, r', st2) => Some (RSeq a b, r', st2)
              | None => None
              end
          | None => None
          end
      end
  end
with parse_atom (fuel : nat) (s : string) (st : pstate) : option parsed :=
  match fuel with
  | 0 => None
  | S f =>
      match s with
      | EmptyString => None
      | String "(" (String "?" (String ":" r)) =>
          match parse_alt f r st with
          | Some (a, String ")" r', st1) => quantify a r' st1
          | _ => None
          end
      | String "(" (String "?" (String "P" (String "<" r))) =>
          match read_name r with
          | Some (nm, r1) =>
              let n := S (next_group st) in
              match parse_alt f r1 {| next_group := n;
                                      names := names st ++ [(nm, n)] |} with
              | Some (a, String ")" r', st1) => quantify (RGroup n a) r' st1
              | _ => None
              end
          | None => None
          end
      | String "(" (String "?" _) => None
      | String "(" r =>
          let n := S (next_group st) in
          match parse_alt f r {| next_group := n; names := names st |} with
          | Some (a, String ")" r', st1) => quantify (RGroup n a) r' st1
          | _ => None
          end
      | String "." r => quantify (RSet AnyChar) r st
      | String "$" r => Some (REnd, r, st)
      | String "\" (String "s" r) => quantify (RSet Space) r st
      | String "\" (String "'" r) => quantify (RChar "'") r st
      | String "\" _ => None
      | String c r => if is_meta c then None else quantify (RChar c) r st
      end
  end.

Record compiled := {
  re : regex;
  groups : nat;                       (* [Pattern.groups] *)
  groupindex : list (string * nat)    (* [Pattern.groupindex] *)
}.

Definition compile (p : string) : option compiled :=
  match parse_alt (4 * String.length p + 4)%nat p
                  {| next_group := 0; names := [] |} with
  | Some (r, EmptyString, st) =>
      Some {| re := r; groups := next_group st; groupindex := names st |}
  | _ => None
  end.

(** *** Matching by backtracking *)

Definition captures := list (option string).
Definition cont := string -> captures -> option captures.

(** A literal against a character of the text. With [re.IGNORECASE]
    ([ic = true]) the two match when their lower-case forms agree. *)
Definition char_eqb (ic : bool) (p c : ascii) : bool :=
  if ic then bool_decide (lower_char p = lower_char c)
  else bool_decide (p = c).

(** [$]: at the end, or just before a newline that ends the text. *)
Definition at_end (s : string) : bool :=
  match s with
  | EmptyString => true
  | String c EmptyString => bool_decide (c = "010"%char)
  | _ => false
  end.

(** After one character of the class: takes as many more as it can, then
    gives them back one at a time. *)
Fixpoint more_greedy (k : cls) (s : string) (caps : captures) (kont : cont)
  : option captures :=
  match s with
  | String c r =>
      if in_cls k c
      then match more_greedy k r caps kont with
           | Some res => Some res
           | None => kont s caps
           end
      else kont s caps
  | EmptyString => kont s caps
  end.

(** After one character of the class: tries the rest of the pattern first,
    and takes one more character when that fails. *)
Fixpoint more_lazy (k : cls) (s : string) (caps : captures) (kont : cont)
  : option captures :=
  match kont s caps with
  | Some res => Some res
  | None =>
      match s with
      | String c r => if in_cls k c then more_lazy k r caps kont else None
      | EmptyString => None
      end
  end.

(** The text a group matched: what [s] has in front of the rest [s1]. *)
Definition consumed (s s1 : string) : string :=
  take_str (String.length s - String.length s1) s.

Fixpoint rmatch (ic : bool) (r : regex) (s : string) (caps : captures)
    (kont : cont) : option captures :=
  match r with
  | RChar p =>
      match s with
      | String c s' => if char_eqb ic p c then kont s' caps else None
      | EmptyString => None
      end
  | RSet k =>
      match s with
      | String c s' => if in_cls k c then kont s' caps else None
      | EmptyString => None
      end
  | RPlus k greedy =>
      match s with
      | String c s' =>
          if in_cls k c
          then (if greedy then more_greedy else more_lazy) k s' caps kont
          else None
      | EmptyString => None
      end
  | REps => kont s caps
  | RSeq a b => rmatch ic a s caps (fun s1 c1 => rmatch ic b s1 c1 kont)
  | RAlt a b =>
      match rmatch ic a s caps kont with
      | Some res => Some res
      | None => rmatch ic b s caps kont
      end
  | ROpt a =>
      match rmatch ic a s caps kont with
      | Some res => Some res
      | None => kont s caps
      end
  | RGroup n a =>
      rmatch ic a s caps
        (fun s1 c1 => kont s1 (<[pred n := Some (consumed s s1)]> c1))
  | REnd => if at_end s then kont s caps else None
  end.

(** [re.match(pattern, text, flags)]: the match is anchored at the start of
    the text and may stop before its end. The result lists
    [match.groups()]; [ic] says whether [re.IGNORECASE] is among the flags. *)
Definition re_match (ic : bool) (c : compiled) (text : string)
  : option captures :=
  rmatch ic (re c) text (replicate (groups c) None) (fun _ caps => Some caps).

(** [re.search(pattern, text)]: the first position where a match starts. *)
Fixpoint re_search (ic : bool) (c : compiled) (text : string)
  : option captures :=
  match re_match ic c text with
  | Some caps => Some caps
  | None =>
      match text with
      | EmptyString => None
      | String _ r => re_search ic c r
      end
  end.

(** [match.groupdict()] *)
Definition groupdict (c : compiled) (caps : captures)
  : list (string * option string) :=
  map (fun '(nm, n) => (nm, default None (caps !! pred n))) (groupindex c).

End Regex.

(** ** Exceptions *)

Module PyExc.

(** The exception classes the code distinguishes: [except Exception] catches
    every class derived from [Exception] and lets the three others through. *)
Inductive exn_class :=
| ExceptionClass (name : string)
| SystemExit
| KeyboardInterrupt
| GeneratorExit.

Record exn := { exn_class_of : exn_class; exn_str : string }.

Definition is_Exception (e : exn) : bool :=
  match exn_class_of e with
  | ExceptionClass _ => true
  | _ => false
  end.

Inductive outcome (A : Type) :=
| Returned (a : A)
| Raised (e : exn).
Arguments Returned {A} a.
Arguments Raised {A} e.

Definition TypeError (msg : string) : exn :=
  {| exn_class_of := ExceptionClass "TypeError"; exn_str := msg |}.
Definition AttributeError (msg : string) : exn :=
  {| exn_class_of := ExceptionClass "AttributeError"; exn_str := msg |}.

End PyExc.

(** ** [pathlib] paths, Windows flavour

    [system_handler.py] imports [app_finder.py], which imports [winreg] at
    its top: the program loads on Windows only, where [Path] is
    [WindowsPath]. The definitions follow [pathlib] as Python 3.11 has it
    ([_WindowsFlavour], [PurePath]). *)

Module PurePath.
Import PyStr.

(** A parsed path as [pathlib] keeps it: the drive, the root, and the
    parts, of which the first is the anchor [drv + root] when there is
    one. *)
Record path := { drv : string; root : string; parts : list string }.

Definition sep : ascii := "\"%char.

Definition altsep : ascii := "/"%char.

Definition is_sep (c : option ascii) : bool := bool_decide (c = Some sep).

(** [s.replace(altsep, sep)] *)
Fixpoint to_sep (s : string) : string :=
  match s with
  | EmptyString => EmptyString
  | String c r =>
      String (if bool_decide (c = altsep) then sep else c) (to_sep r)
  end.

(** [s.split(sep)] *)
Fixpoint split_sep_aux (cur : string) (s : string) : list string :=
  match s with
  | EmptyString => [cur]
  | String c r =>
      if bool_decide (c = sep)
      then cur :: split_sep_aux EmptyString r
      else split_sep_aux (cur ++ String c EmptyString) r
  end.

Definition split_sep (s : string) : list string :=
  split_sep_aux EmptyString s.

(** [sep.join(l)] *)
Fixpoint join_sep (l : list string) : string :=
  match l with
  | [] => ""
  | [p] => p
  | p :: r => p ++ String sep (join_sep r)
  end.

(** [s.find(sep, start)]: the index of the first separator at [start] or
    later. *)
Fixpoint find_sep (start : nat) (s : string) : option nat :=
  match s with
  | EmptyString => None
  | String c r =>
      match start with
      | 0 => if bool_decide (c = sep) then Some 0
             else S <$> find_sep 0 r
      | S n => S <$> find_sep n r
      end
  end.

(** [s[a:b]] for indices that are not negative *)
Definition slice (a b : nat) (s : string) : string :=
  take_str (b - a) (drop_str a s).

(** [c in drive_letters] *)
Definition is_drive_letter (c : option ascii) : bool :=
  match c with
  | Some c =>
      let n := nat_of_ascii c in
      ((65 <=? n) && (n <=? 90) || (97 <=? n) && (n <=? 122))%nat
  | None => false
  end.

(** [_split_extended_path] *)
Definition _split_extended_path (s : string) : string * string :=
  if startswith "\\?\" s
  then
    let prefix := take_str 4 s in
    let s := drop_str 4 s in
    if startswith "UNC\" s
    then (prefix ++ take_str 3 s, String sep (drop_str 3 s))
    else (prefix, s)
  else ("", s).

(** [splitroot]: the drive, the root and the rest of a text whose
    separators are all [sep]. *)
Definition splitroot (part : string) : string * string * string :=
  let '(prefix, part) :=
    if is_sep (String.get 1 part) && is_sep (String.get 0 part)
    then _split_extended_path part
    else ("", part) in
  let first := String.get 0 part in
  let second := String.get 1 part in
  let third := String.get 2 part in
  let unc :=
    if is_sep second && is_sep first && negb (is_sep third)
    then
      match find_sep 2 part with
      | Some index =>
          let index2 := find_sep (index + 1) part in
          if bool_decide (index2 = Some (index + 1)) then None
          else
            let index2 := default (String.length part) index2 in
            Some (match prefix with
                  | EmptyString => take_str index2 part
                  | _ => prefix ++ slice 1 index2 part
                  end,
                  String sep "", drop_str (index2 + 1) part)
      | None => None
      end
    else None in
  match unc with
  | Some r => r
  | None =>
      let '(drv, part, first) :=
        if bool_decide (second = Some ":"%char) && is_drive_letter first
        then (take_str 2 part, drop_str 2 part, third)
        else ("", part, first) in
      let '(root, part) :=
        if is_sep first then (String sep "", lstrip_chars [sep] part)
        else ("", part) in
      (prefix ++ drv, root, part)
  end.

Definition keep_part (p : string) : bool :=
  negb (bool_decide (p = "")) && negb (bool_decide (p = ".")).

(** The names of a rest: its components but the empty ones and ["."]. *)
Definition names (rel : string) : list string :=
  filter (fun x => keep_part x = true) (split_sep rel).

(** The inner loop of [parse_parts]: the drive of the nearest earlier part
    that has one. *)
Fixpoint earlier_drive (rest : list string) : string :=
  match rest with
  | [] => ""
  | part :: rest =>
      match part with
      | EmptyString => earlier_drive rest
      | _ =>
          match (splitroot (to_sep part)).1.1 with
          | EmptyString => earlier_drive rest
          | drv => drv
          end
      end
  end.

(** The loop of [parse_parts] over the parts from the last to the first:
    the drive, the root and the names, these in the order of the path. *)
Fixpoint parse_reversed (parts : list string)
  : string * string * list string :=
  match parts with
  | [] => ("", "", [])
  | part :: rest =>
      match part with
      | EmptyString => parse_reversed rest
      | _ =>
          let '(drv, root, rel) := splitroot (to_sep part) in
          match drv, root with
          | EmptyString, EmptyString =>
              let '(drv, root, parsed) := parse_reversed rest in
              (drv, root, (parsed ++ names rel)%list)
          | EmptyString, _ => (earlier_drive rest, root, names rel)
          | _, _ => (drv, root, names rel)
          end
      end
  end.

(** [parse_parts] *)
Definition parse_parts (l : list string) : path :=
  let '(drv, root, parsed) := parse_reversed (rev l) in
  {| drv := drv; root := root;
     parts := match (drv ++ root)%string with
              | EmptyString => parsed
              | anchor => anchor :: parsed
              end |}.

(** [Path(s)] *)
Definition parse (s : string) : path := parse_parts [s].

(** [str(p)] *)
Definition to_str (p : path) : string :=
  let formatted :=
    match drv p ++ root p with
    | EmptyString => join_sep (parts p)
    | anchor => anchor ++ join_sep (tail (parts p))
    end in
  match formatted with
  | EmptyString => "."
  | _ => formatted
  end.

(** [p.is_absolute()]: a root and a drive. *)
Definition is_absolute (p : path) : bool :=
  negb (bool_decide (root p = "")) && negb (bool_decide (drv p = "")).

(** [join_parsed_parts] *)
Definition join_parsed_parts (p q : path) : path :=
  match root q, drv q with
  | String _ _, EmptyString =>
      match drv p with
      | String _ _ =>
          {| drv := drv p; root := root q;
             parts := (drv p ++ root q)%string :: tail (parts q) |}
      | EmptyString => q
      end
  | String _ _, String _ _ => q
  | EmptyString, String _ _ =>
      if bool_decide (drv q = drv p)
         || bool_decide (lower (drv q) = lower (drv p))
      then {| drv := drv p; root := root p;
              parts := (parts p ++ tail (parts q))%list |}
      else q
  | EmptyString, EmptyString =>
      {| drv := drv p; root := root p; parts := (parts p ++ parts q)%list |}
  end.

(** [p / q] for a path [q], whose parts are parsed again. *)
Definition join (p q : path) : path :=
  join_parsed_parts p (parse_parts (parts q)).

(** [p / s] for a string [s] *)
Definition join_str (p : path) (s : string) : path :=
  join_parsed_parts p (parse_parts [s]).

End PurePath.

(** ** The security manager *)

Module Security.
Import PyStr PyExc.

(** *** Values and their JSON form *)

(** The values kept in secure storage. Dictionaries have string keys;
    [PBytes] stands for the values [json.dumps] refuses. Floating-point
    numbers are left out. *)
#[warnings="-register-all"] Inductive pyval :=
| PNone
| PBool (b : bool)
| PInt (z : Z)
| PStr (s : string)
| PList (l : list pyval)
| PTuple (l : list pyval)
| PDict (d : gmap string pyval)
| PBytes (s : string).

(** A JSON document. *)
#[warnings="-register-all"] Inductive json :=
| JNull
| JBool (b : bool)
| JInt (z : Z)
| JStr (s : string)
| JArr (l : list json)
| JObj (d : gmap string json).

(** Whether [json.dumps] accepts the value. *)
Fixpoint serializable (v : pyval) : bool :=
  match v with
  | PList l | PTuple l => forallb serializable l
  | PDict d => map_fold (fun _ x acc => serializable x && acc) true d
  | PBytes _ => false
  | _ => true
  end.

(** The document [json.dumps] writes for a value it accepts: lists and
    tuples both become arrays. *)
Fixpoint encode (v : pyval) : json :=
  match v with
  | PNone => JNull
  | PBool b => JBool b
  | PInt z => JInt z
  | PStr s => JStr s
  | PList l | PTuple l => JArr (map encode l)
  | PDict d => JObj (encode <$> d)
  | PBytes _ => JNull
  end.

(** [json.dumps]: [None] stands for the [TypeError] it raises. *)
Definition json_dumps (v : pyval) : option json :=
  if serializable v then Some (encode v) else None.

(** [json.loads]: arrays come back as lists. *)
Fixpoint json_loads (j : json) : pyval :=
  match j with
  | JNull => PNone
  | JBool b => PBool b
  | JInt z => PInt z
  | JStr s => PStr s
  | JArr l => PList (map json_loads l)
  | JObj d => PDict (json_loads <$> d)
  end.

(** The values JSON represents as they are: no tuple and nothing that
    [json.dumps] refuses, at any depth. *)
Fixpoint json_exact (v : pyval) : bool :=
  match v with
  | PList l => forallb json_exact l
  | PDict d => map_fold (fun _ x acc => json_exact x && acc) true d
  | PTuple _ | PBytes _ => false
  | _ => true
  end.

(** The size of a value, for induction. *)
Fixpoint psize (v : pyval) : nat :=
  match v with
  | PList l | PTuple l => S (foldr (fun x acc => psize x + acc) 0 l)
  | PDict d => S (map_fold (fun _ x acc => psize x + acc) 0 d)
  | _ => 1
  end.

(** *** Files and encryption *)

(** A [Fernet] key. *)
Definition fernet_key := nat.

(** The content of the encrypted file: a token that seals a JSON object
    under a key, or bytes that no key opens. *)
Inductive blob :=
| Token (k : fernet_key) (doc : gmap string json)
| Garbage.

(** [Fernet(key).decrypt(data)]: [None] stands for [InvalidToken]. *)
Definition decrypt (key : fernet_key) (b : blob) : option (gmap string json) :=
  match b with
  | Token k doc => if bool_decide (k = key) then Some doc else None
  | Garbage => None
  end.

(** A privacy setting: a toggle or a list of strings. *)
Inductive setting :=
| SBool (b : bool)
| SList (l : list string).

(** The data directory. [privacy_file] is [Some None] when the file exists
    and does not parse. When [writable] is false, opening a file for
    writing raises [PermissionError]. *)
Record Disk := {
  key_file : option fernet_key;
  privacy_file : option (option (gmap string setting));
  secure_storage_file : option blob;
  writable : bool
}.

Record SecurityManager := {
  user_home : PurePath.path;
  cipher_suite : fernet_key;
  privacy_settings : gmap string setting;
  secure_storage : gmap string pyval
}.

Definition set_privacy_file (f : gmap string setting) (d : Disk) : Disk :=
  {| key_file := key_file d; privacy_file := Some (Some f);
     secure_storage_file := secure_storage_file d; writable := writable d |}.

Definition set_secure_file (b : blob) (d : Disk) : Disk :=
  {| key_file := key_file d; privacy_file := privacy_file d;
     secure_storage_file := Some b; writable := writable d |}.

Definition set_key_file (k : fernet_key) (d : Disk) : Disk :=
  {| key_file := Some k; privacy_file := privacy_file d;
     secure_storage_file := secure_storage_file d; writable := writable d |}.

Definition set_privacy_settings (f : gmap string setting)
    (sm : SecurityManager) : SecurityManager :=
  {| user_home := user_home sm; cipher_suite := cipher_suite sm;
     privacy_settings := f; secure_storage := secure_storage sm |}.

Definition set_secure_storage (f : gmap string pyval)
    (sm : SecurityManager) : SecurityManager :=
  {| user_home := user_home sm; cipher_suite := cipher_suite sm;
     privacy_settings := privacy_settings sm; secure_storage := f |}.

(** *** Methods *)

(** [_initialize_encryption]: [fresh] is the key [Fernet.generate_key()]
    returns when there is no key file, [temp] the one it returns after the
    key file could not be written. *)
Definition _initialize_encryption (fresh temp : fernet_key) (d : Disk)
  : fernet_key * Disk :=
  match key_file d with
  | None =>
      if writable d then (fresh, set_key_file fresh d) else (temp, d)
  | Some key => (key, d)
  end.

Definition default_settings (home : PurePath.path) : gmap string setting :=
  list_to_map [
    ("collect_system_info", SBool true);
    ("collect_usage_data", SBool true);
    ("store_command_history", SBool true);
    ("allow_network_access", SBool true);
    ("allow_file_system_access", SBool true);
    ("allow_process_management", SBool true);
    ("sensitive_directories", SList [
       PurePath.to_str (PurePath.join_str home "Documents");
       PurePath.to_str (PurePath.join_str home "Downloads");
       PurePath.to_str (PurePath.join_str home "Pictures")]);
    ("excluded_file_types", SList [
       ".password"; ".key"; ".token"; ".secret";
       ".credential"; ".pem"; ".ppk"; ".keystore"])
  ].

(** [_load_privacy_settings]: a failed write ends in the outer handler,
    which returns the defaults. *)
Definition _load_privacy_settings (home : PurePath.path) (d : Disk)
  : gmap string setting * Disk :=
  let defaults := default_settings home in
  match privacy_file d with
  | None =>
      if writable d then (defaults, set_privacy_file defaults d)
      else (defaults, d)
  | Some (Some settings) =>
      let merged := settings ∪ defaults in
      let updated := negb (bool_decide (dom defaults ⊆ dom settings)) in
      if updated
      then if writable d then (merged, set_privacy_file merged d)
           else (defaults, d)
      else (merged, d)
  | Some None =>
      if writable d then (defaults, set_privacy_file defaults d)
      else (defaults, d)
  end.

(** [_save_secure_storage] *)
Definition _save_secure_storage (key : fernet_key)
    (data : gmap string pyval) (d : Disk) : bool * Disk :=
  match json_dumps (PDict data) with
  | None => (false, d)
  | Some _ =>
      let encrypted_data := Token key (encode <$> data) in
      if writable d then (true, set_secure_file encrypted_data d)
      else (false, d)
  end.

(** [_load_secure_storage] *)
Definition _load_secure_storage (key : fernet_key) (d : Disk)
  : gmap string pyval * Disk :=
  match secure_storage_file d with
  | None =>
      let empty_storage : gmap string pyval := ∅ in
      (empty_storage, snd (_save_secure_storage key empty_storage d))
  | Some encrypted_data =>
      match decrypt key encrypted_data with
      | Some decrypted_data => (json_loads <$> decrypted_data, d)
      | None =>
          let empty_storage : gmap string pyval := ∅ in
          (empty_storage, snd (_save_secure_storage key empty_storage d))
      end
  end.

(** [SecurityManager.__init__] on the files of the data directory: what a
    start of the process does. *)
Definition init (home : PurePath.path) (fresh temp : fernet_key) (d : Disk)
  : SecurityManager * Disk :=
  let '(key, d1) := _initialize_encryption fresh temp d in
  let '(privacy, d2) := _load_privacy_settings home d1 in
  let '(storage, d3) := _load_secure_storage key d2 in
  ({| user_home := home; cipher_suite := key;
      privacy_settings := privacy; secure_storage := storage |}, d3).

Definition valid_keys : list string := [
  "collect_system_info"; "collect_usage_data"; "store_command_history";
  "allow_network_access"; "allow_file_system_access";
  "allow_process_management"; "sensitive_directories"; "excluded_file_types"
].

(** [update_privacy_settings]: [settings] lists the items of the dictionary
    passed in. *)
Definition update_privacy_settings (settings : list (string * setting))
    (sm : SecurityManager) (d : Disk) : bool * SecurityManager * Disk :=
  let updated_settings :=
    foldl (fun acc '(key, value) =>
             if bool_decide (key ∈ valid_keys) then <[key := value]> acc
             else acc)
          (privacy_settings sm) settings in
  if writable d
  then (true, set_privacy_settings updated_settings sm,
        set_privacy_file updated_settings d)
  else (false, sm, d).

(** [store_secure_data] *)
Definition store_secure_data (key : string) (data : pyval)
    (sm : SecurityManager) (d : Disk) : bool * SecurityManager * Disk :=
  let sm1 := set_secure_storage (<[key := data]> (secure_storage sm)) sm in
  let '(ok, d1) :=
    _save_secure_storage (cipher_suite sm1) (secure_storage sm1) d in
  (ok, sm1, d1).

(** [get_secure_data] *)
Definition get_secure_data (key : string) (default : pyval)
    (sm : SecurityManager) : pyval :=
  match secure_storage sm !! key with
  | Some v => v
  | None => default
  end.

(** [lst[-n:]] *)
Definition last_n {A} (n : nat) (l : list A) : list A :=
  drop (length l - n) l.

(** The entry [log_data_access] appends; [now] is
    [datetime.datetime.now().isoformat()]. *)
Definition access_entry (now data_type description : string) : pyval :=
  PDict (list_to_map [
    ("timestamp", PStr now);
    ("data_type", PStr data_type);
    ("description", PStr description)]).

(** [log_data_access]. The list read from storage is the stored object
    itself, so [append] changes the storage before [store_secure_data]
    runs; a stored value that is not a list has no [append]. *)
Definition log_data_access (now data_type description : string)
    (sm : SecurityManager) (d : Disk)
  : outcome unit * SecurityManager * Disk :=
  let entry := access_entry now data_type description in
  match get_secure_data "access_log" (PList []) sm with
  | PList l =>
      let appended := (l ++ [entry])%list in
      let sm1 :=
        match secure_storage sm !! "access_log" with
        | Some _ =>
            set_secure_storage
              (<["access_log" := PList appended]> (secure_storage sm)) sm
        | None => sm
        end in
      let access_log :=
        if (1000 <? length appended)%nat then last_n 1000 appended
        else appended in
      let '(_, sm2, d2) :=
        store_secure_data "access_log" (PList access_log) sm1 d in
      (Returned tt, sm2, d2)
  | _ =>
      (Raised (AttributeError "object has no attribute 'append'"), sm, d)
  end.

(** [clear_all_data]: the settings [_load_privacy_settings] returns are
    dropped. *)
Definition clear_all_data (sm : SecurityManager) (d : Disk)
  : bool * SecurityManager * Disk :=
  let sm1 := set_secure_storage ∅ sm in
  let '(_, d1) :=
    _save_secure_storage (cipher_suite sm1) (secure_storage sm1) d in
  let '(_, d2) := _load_privacy_settings (user_home sm1) d1 in
  (true, sm1, d2).

End Security.

(** ** The path resolver of the system handler *)

Module SystemOps.
Import PyStr PurePath.

(** The well-known directories [SystemHandler.__init__] computes. *)
Record SystemHandler := {
  user_home : path;
  desktop : path;
  documents : path;
  downloads : path
}.

Definition make (home : path) : SystemHandler :=
  {| user_home := home;
     desktop := join_str home "Desktop";
     documents := join_str home "Documents";
     downloads := join_str home "Downloads" |}.

(** [s.replace(old, new, 1)] *)
Fixpoint replace_first (old new s : string) : string :=
  if startswith old s then new ++ drop_str (String.length old) s
  else match s with
       | EmptyString => EmptyString
       | String c r => String c (replace_first old new r)
       end.

(** [_resolve_path]; [cwd] is what [Path.cwd()] returns. *)
Definition _resolve_path (self : SystemHandler) (cwd : path)
    (path_str : string) : path :=
  if startswith "~" path_str
  then parse (replace_first "~" (to_str (user_home self)) path_str)
  else if startswith "desktop" (lower path_str)
  then join_str (desktop self) (lstrip_chars ["/"; "\"]%char (drop_str 8 path_str))
  else if startswith "documents" (lower path_str)
  then join_str (documents self) (lstrip_chars ["/"; "\"]%char (drop_str 10 path_str))
  else if startswith "downloads" (lower path_str)
  then join_str (downloads self) (lstrip_chars ["/"; "\"]%char (drop_str 10 path_str))
  else
    let path := parse path_str in
    if is_absolute path then path else join cwd path.

End SystemOps.

(** ** The command processor *)

Module Processor.
Import PyStr PyExc Regex.

(** The handler methods the pattern table refers to. *)
Inductive handler :=
| h_get_time_date
| h_get_weather
| h_get_system_info
| h_get_cpu_info
| h_get_memory_info
| h_get_disk_info
| h_get_network_info
| h_get_graphics_info
| h_get_running_processes
| h_get_installed_applications
| h_get_system_health
| h_search_files
| h_analyze_file_types
| h_get_connected_devices
| h_get_monitor_info
| h_get_printer_info
| h_get_usb_devices
| h_get_audio_devices
| h_get_bluetooth_devices
| h_scan_for_new_devices
| h_open_application
| h_create_directory
| h_create_directory_prompt
| h_delete_directory
| h_update_directory
| h_insert_into_directory
| h_create_file
| h_delete_item
| h_execute_command
| h_answer_question
| h_shutdown
| h_introduce_self
| h_mood_response
| h_youre_welcome
| h_help_command
| h_handle_enable_privacy_setting
| h_handle_disable_privacy_setting
| h_handle_show_privacy_settings
| h_handle_clear_data
| h_handle_add_sensitive_directory
| h_handle_show_data_access_log
| h_handle_data_security_status
| h_default_response.

(** What the processor does to the outside, in order.
    - [Speak]: a line given to the text-to-speech sink;
    - [Invoke]: the dispatcher calls a handler with the positional and the
      keyword arguments listed;
    - [OpenApplication], [DeleteItem], [ExecuteCommand]: the system handler's
      methods of these names are called;
    - [UpdatePrivacySettings], [ClearAllData]: the security manager's
      methods are called;
    - [Listen]: the speech-to-text collaborator is asked for an utterance;
    - [Other]: any other collaborator call, made by a handler whose body is
      not embedded. *)
Inductive event :=
| Speak (text : string)
| Invoke (h : handler) (args : list (option string))
         (kwargs : list (string * option string))
| OpenApplication (app_name : string) (args : list string)
| DeleteItem (path : string)
| ExecuteCommand (command : string)
| UpdatePrivacySettings (settings : list (string * Security.setting))
| ClearAllData
| Listen
| Other (label : string).

(** The fields of the processor that change or may be missing:
    [system_handler_ok] is false when [SystemHandler()] failed at start-up
    and the field is [None]; [security_manager] likewise; [disk] is the
    data directory the security manager writes to. *)
Record State := {
  system_handler_ok : bool;
  security_manager : option Security.SecurityManager;
  disk : Security.Disk
}.

Definition set_security (sm : Security.SecurityManager) (d : Security.Disk)
    (st : State) : State :=
  {| system_handler_ok := system_handler_ok st;
     security_manager := Some sm; disk := d |}.

(** What a handler whose body is not embedded does: lines spoken and other
    collaborator calls. *)
Inductive oevent :=
| OSpeak (text : string)
| OOther (label : string).

Definition event_of (o : oevent) : event :=
  match o with
  | OSpeak t => Speak t
  | OOther l => Other l
  end.

(** *** A monad for state, trace and exceptions *)

Definition M (A : Type) : Type := State -> list event * State * outcome A.

Definition ret {A} (a : A) : M A := fun st => ([], st, Returned a).

Definition raise {A} (e : exn) : M A := fun st => ([], st, Raised e).

Definition bind {A B} (m : M A) (f : A -> M B) : M B :=
  fun st =>
    match m st with
    | (tr, st1, Returned a) =>
        let '(tr2, st2, o) := f a st1 in ((tr ++ tr2)%list, st2, o)
    | (tr, st1, Raised e) => (tr, st1, Raised e)
    end.

Notation "'let*' x ':=' m 'in' f" := (bind m (fun x => f))
  (at level 10, x pattern, m at level 100, f at level 200).
Notation "m '>>' f" := (bind m (fun _ => f))
  (at level 100, f at level 200, right associativity).

Definition emit (e : event) : M unit := fun st => ([e], st, Returned tt).

(** [self.speaker.speak(text)] *)
Definition speak (text : string) : M unit := emit (Speak text).

Definition get_state : M State := fun st => ([], st, Returned st).

Definition put_state (st : State) : M unit := fun _ => ([], st, Returned tt).

(** The result of a collaborator call. *)
Definition lift {A} (o : outcome A) : M A := fun st => ([], st, o).

(** [try: m  except Exception as e: h e] *)
Definition try_except {A} (m : M A) (h : exn -> M A) : M A :=
  fun st =>
    match m st with
    | (tr, st1, Raised e) =>
        if is_Exception e
        then let '(tr2, st2, o) := h e st1 in ((tr ++ tr2)%list, st2, o)
        else (tr, st1, Raised e)
    | r => r
    end.

(** *** Binding the arguments of a call *)

(** A handler's parameters after [self] and [command_text]: the named ones
    (all with the default [None]), and whether there is an [*args]. Every
    handler has a [**kwargs]. *)
Record signature := { params : list string; varargs : bool }.

Definition signature_of (h : handler) : signature :=
  match h with
  | h_search_files
  | h_analyze_file_types
  | h_open_application
  | h_create_directory
  | h_create_directory_prompt
  | h_delete_directory
  | h_update_directory
  | h_insert_into_directory
  | h_create_file
  | h_delete_item
  | h_execute_command
  | h_answer_question
  | h_shutdown =>
      {| params := []; varargs := true |}
  | h_get_weather => {| params := ["location"]; varargs := false |}
  | h_handle_enable_privacy_setting => {| params := ["setting"]; varargs := false |}
  | h_handle_disable_privacy_setting => {| params := ["setting"]; varargs := false |}
  | h_handle_add_sensitive_directory => {| params := ["directory"]; varargs := false |}
  | _ => {| params := []; varargs := false |}
  end.

Record bound := {
  b_params : list (string * option string);
  b_args : list (option string);
  b_kwargs : list (string * option string)
}.

(** [kwargs.get(name)] *)
Fixpoint kw_get (name : string) (kw : list (string * option string))
  : option string :=
  match kw with
  | [] => None
  | (k, v) :: r => if bool_decide (k = name) then v else kw_get name r
  end.

(** The keyword arguments, in order: one that names a parameter already
    filled positionally is an error; one that names a free parameter fills
    it; the others go to [**kwargs]. *)
Fixpoint bind_keywords (filled free : list string)
    (kw : list (string * option string)) (b : bound) : outcome bound :=
  match kw with
  | [] => Returned b
  | (k, v) :: r =>
      if bool_decide (k ∈ "self" :: "command_text" :: filled)
      then Raised (TypeError ("got multiple values for argument '" ++ k ++ "'"))
      else if bool_decide (k ∈ free)
      then bind_keywords (k :: filled) (filter (fun x => x ≠ k) free) r
             {| b_params := (k, v) :: b_params b; b_args := b_args b;
                b_kwargs := b_kwargs b |}
      else bind_keywords filled free r
             {| b_params := b_params b; b_args := b_args b;
                b_kwargs := (b_kwargs b ++ [(k, v)])%list |}
  end.

(** The call [handler(command_text, *pos, **kw)] as the interpreter binds
    it: positional arguments fill the named parameters from the left and
    the rest goes to [*args]; then the keywords are bound; a positional
    argument left over without [*args] is an error, reported after the
    keyword errors. The wording of the messages depends on the interpreter
    and only reaches the log. *)
Definition bind_call (sg : signature) (pos : list (option string))
    (kw : list (string * option string)) : outcome bound :=
  let n := length (params sg) in
  let filled := take (length pos) (params sg) in
  let free := drop (length pos) (params sg) in
  let extra := drop n pos in
  match bind_keywords filled free kw
          {| b_params := zip filled pos; b_args := extra; b_kwargs := [] |} with
  | Raised e => Raised e
  | Returned b =>
      match extra with
      | _ :: _ =>
          if varargs sg then Returned b
          else Raised (TypeError "too many positional arguments")
      | [] => Returned b
      end
  end.

(** The value of a parameter after binding; an unfilled one has its default
    [None]. *)
Definition param (name : string) (b : bound) : option string :=
  kw_get name (b_params b).

(** The answers of the collaborators. [body] gives, for a handler whose
    body is not embedded, what it does on its bound arguments. *)
Record Env := {
  open_application : string -> list string -> outcome bool;
  delete_item : string -> outcome bool;
  execute_command : string -> outcome (bool * string);
  body : handler -> string -> bound -> State ->
         list oevent * State * outcome unit
}.

(** *** The pattern table

    [self.commands], in the order of the dictionary literal. *)
Definition commands : list (string * handler) := [
    ("what (time|day|date) is it", h_get_time_date);
    ("(current|today\'s) (time|date)", h_get_time_date);
    ("(tell me|what\'s) the (time|date)", h_get_time_date);
    ("(what\'s|what is|how\'s) the weather( like)?( today| now)?( in (?P<location>.+))?", h_get_weather);
    ("(weather|temperature|forecast)( in| for)? (?P<location>.+)", h_get_weather);
    ("(tell me|what\'s|what is)( about)?( my)? (system|pc|computer)( info| information)?", h_get_system_info);
    ("(system|pc|computer)( information| info)", h_get_system_info);
    ("(tell me|what\'s|what is)( about)?( my)? (cpu|processor)( info| information)?", h_get_cpu_info);
    ("(tell me|what\'s|what is)( about)?( my)? (memory|ram)( info| information)?", h_get_memory_info);
    ("(tell me|what\'s|what is)( about)?( my)? (disk|storage|drive)( info| information)?", h_get_disk_info);
    ("(tell me|what\'s|what is)( about)?( my)? (network|internet)( info| information)?", h_get_network_info);
    ("(tell me|what\'s|what is)( about)?( my)? (graphics|gpu|video card)( info| information)?", h_get_graphics_info);
    ("(show|list|what) (processes|applications)( are)? running", h_get_running_processes);
    ("(show|list|what) (applications|programs|software)( are)? installed", h_get_installed_applications);
    ("(tell me|what\'s|what is)( the)? (system|pc|computer) health", h_get_system_health);
    ("(search|find)( for)?( files)? (?P<pattern>.+?)( in| within)? (?P<path>.+)", h_search_files);
    ("(analyze|examine)( the)? (files|file types)( in| within)? (?P<directory>.+)", h_analyze_file_types);
    ("(tell me|what|which)( about)?( my)? (devices|peripherals)( are connected| do i have)", h_get_connected_devices);
    ("(tell me|what)( about)?( my)? (monitor|display|screen)s?( info| information)?", h_get_monitor_info);
    ("(tell me|what)( about)?( my)? (printer|printing device)s?( info| information)?", h_get_printer_info);
    ("(tell me|what)( about)?( my)? (usb|usb device)s?( info| information)?", h_get_usb_devices);
    ("(tell me|what)( about)?( my)? (audio|sound|speaker|microphone)( device)?s?( info| information)?", h_get_audio_devices);
    ("(tell me|what)( about)?( my)? (bluetooth|bt)( device)?s?( info| information)?", h_get_bluetooth_devices);
    ("(scan|check)( for)? (new|newly connected) devices", h_scan_for_new_devices);
    ("open (?P<app_name>.+?)(\s+with\s+(?P<args>.+))?$", h_open_application);
    ("launch (?P<app_name>.+?)(\s+with\s+(?P<args>.+))?$", h_open_application);
    ("start (?P<app_name>.+?)(\s+with\s+(?P<args>.+))?$", h_open_application);
    ("run (?P<app_name>.+?)(\s+with\s+(?P<args>.+))?$", h_open_application);
    ("create (a )?(?:folder|directory|dir)( called| named)? (?P<dir_path>.+)", h_create_directory);
    ("make (a )?(?:folder|directory|dir)( called| named)? (?P<dir_path>.+)", h_create_directory);
    ("create (a )?(?:folder|directory|dir)$", h_create_directory_prompt);
    ("make (a )?(?:folder|directory|dir)$", h_create_directory_prompt);
    ("delete (?:the )?(?:folder|directory|dir)( called| named)? (?P<dir_path>.+)", h_delete_directory);
    ("remove (?:the )?(?:folder|directory|dir)( called| named)? (?P<dir_path>.+)", h_delete_directory);
    ("update (?:the )?(?:folder|directory|dir)( called| named)? (?P<dir_path>.+)", h_update_directory);
    ("insert (?:into )?(?:folder|directory|dir)( called| named)? (?P<dir_path>.+)", h_insert_into_directory);
    ("create (a )?file( called| named)? (?P<file_path>.+)", h_create_file);
    ("make (a )?file( called| named)? (?P<file_path>.+)", h_create_file);
    ("delete( the| my)?( file| directory| folder)? (?P<path>.+)", h_delete_item);
    ("remove( the| my)?( file| directory| folder)? (?P<path>.+)", h_delete_item);
    ("execute( the)? command (?P<command>.+)", h_execute_command);
    ("run( the)? command (?P<command>.+)", h_execute_command);
    ("(who|what|when|where|why|how) (is|are|was|were|do|does|did) .+", h_answer_question);
    ("tell me (about|something about) .+", h_answer_question);
    ("(exit|quit|shutdown|bye|goodbye)", h_shutdown);
    ("(who are you|what are you|tell me about yourself)", h_introduce_self);
    ("(how are you|how do you feel)", h_mood_response);
    ("(thank you|thanks)", h_youre_welcome);
    ("(help|what can you do|commands|list commands)", h_help_command);
    ("(?:enable|turn on) (?P<setting>.+?) (?:data collection|tracking|monitoring)", h_handle_enable_privacy_setting);
    ("(?:disable|turn off) (?P<setting>.+?) (?:data collection|tracking|monitoring)", h_handle_disable_privacy_setting);
    ("show (?:my )?privacy settings", h_handle_show_privacy_settings);
    ("clear (?:all )?(?:my )?data", h_handle_clear_data);
    ("add sensitive directory (?P<directory>.+)", h_handle_add_sensitive_directory);
    ("show data access (?:log|history)", h_handle_show_data_access_log);
    ("(?:is my data secure|how secure is my data)", h_handle_data_security_status);
    (".+", h_default_response)
].

(** *** Handlers *)

Section Handlers.
Variable env : Env.

(** [x = kwargs.get(name)], then [if not x and args: x = args[0]] *)
Definition named_or_first (named : option string)
    (args : list (option string)) : option string :=
  if truthy named then named
  else match args with
       | a :: _ => a
       | [] => named
       end.

Definition system_unavailable : string :=
  "I'm sorry, system operations are not available at the moment.".

Definition security_unavailable : string :=
  "Security management is not available.".

Definition _open_application (command_text : string)
    (args : list (option string)) (kwargs : list (string * option string))
  : M unit :=
  let* st := get_state in
  if negb (system_handler_ok st) then speak system_unavailable
  else
    match named_or_first (kw_get "app_name" kwargs) args with
    | Some (String _ _ as app_name) =>
        let app_name := strip app_name in
        let app_args :=
          match kw_get "args" kwargs with
          | Some (String _ _ as a) => map strip (split_ws a)
          | _ => []
          end in
        try_except
          (speak ("Opening " ++ app_name ++ ".") >>
           emit (OpenApplication app_name app_args) >>
           let* success := lift (open_application env app_name app_args) in
           if negb success
           then speak ("I couldn't find or open " ++ app_name
                       ++ ". Please check if it's installed correctly.")
           else ret tt)
          (fun e => speak ("I had trouble opening " ++ app_name ++ ". "
                           ++ exn_str e))
    | _ => speak "Sorry, I didn't catch which application to open."
    end.

Definition _delete_item (command_text : string)
    (args : list (option string)) (kwargs : list (string * option string))
  : M unit :=
  let* st := get_state in
  if negb (system_handler_ok st) then speak system_unavailable
  else
    match named_or_first (kw_get "path" kwargs) args with
    | Some (String _ _ as path) =>
        let path := strip path in
        try_except
          (speak ("Are you sure you want to delete " ++ path
                  ++ "? Please confirm by saying yes or no.") >>
           let confirmation := true in
           if confirmation
           then
             speak ("Deleting " ++ path ++ ".") >>
             emit (DeleteItem path) >>
             let* success := lift (delete_item env path) in
             if success
             then speak (path ++ " has been deleted.")
             else speak ("I couldn't delete " ++ path
                         ++ ". Please check that the path exists and try again.")
           else speak "Delete operation cancelled.")
          (fun e => speak ("I had trouble deleting " ++ path ++ ". "
                           ++ exn_str e))
    | _ => speak "Sorry, I didn't catch what to delete."
    end.

Definition _delete_directory (command_text : string)
    (args : list (option string)) (kwargs : list (string * option string))
  : M unit :=
  let* st := get_state in
  if negb (system_handler_ok st) then speak system_unavailable
  else
    match named_or_first (kw_get "dir_path" kwargs) args with
    | Some (String _ _ as dir_path) =>
        let dir_path := strip dir_path in
        try_except
          (speak ("Are you sure you want to delete the directory " ++ dir_path
                  ++ "? This cannot be undone. Please confirm yes or no.") >>
           let confirmation := true in
           if confirmation
           then
             speak ("Deleting directory " ++ dir_path ++ ".") >>
             emit (DeleteItem dir_path) >>
             let* success := lift (delete_item env dir_path) in
             if success
             then speak ("Directory " ++ dir_path ++ " has been deleted.")
             else speak ("I couldn't delete the directory " ++ dir_path
                         ++ ". Please check that it exists and try again.")
           else speak "Directory deletion cancelled.")
          (fun e => speak ("I had trouble deleting the directory " ++ dir_path
                           ++ ". " ++ exn_str e))
    | _ => speak "Sorry, I didn't catch which directory to delete."
    end.

Definition dangerous_commands : list string :=
  ["rm -rf"; "deltree"; "format"; "del /f"; "drop database"].

Definition refusal : string :=
  "I'm sorry, that command appears to be potentially harmful. For safety reasons, I cannot execute it.".

Definition _execute_command (command_text : string)
    (args : list (option string)) (kwargs : list (string * option string))
  : M unit :=
  let* st := get_state in
  if negb (system_handler_ok st) then speak system_unavailable
  else
    match named_or_first (kw_get "command" kwargs) args with
    | Some (String _ _ as command) =>
        let command := strip command in
        try_except
          (if existsb (fun dc => contains dc (lower command)) dangerous_commands
           then speak refusal
           else
             speak ("Executing command: " ++ command) >>
             emit (ExecuteCommand command) >>
             let* result := lift (execute_command env command) in
             let '(success, output) := result in
             if success
             then
               let output :=
                 if (500 <? String.length output)%nat
                 then take_str 500 output ++ "... (output truncated)"
                 else output in
               speak "Command executed successfully." >>
               match output with
               | String _ _ => speak ("Command output: " ++ output)
               | EmptyString => ret tt
               end
             else speak ("Command execution failed. Error: " ++ output))
          (fun e => speak ("I had trouble executing the command. "
                           ++ exn_str e))
    | _ => speak "Sorry, I didn't catch which command to execute."
    end.

(** [sys.exit(0)] raises [SystemExit]. *)
Definition _shutdown (command_text : string)
    (args : list (option string)) (kwargs : list (string * option string))
  : M unit :=
  speak "Shutting down. Goodbye, sir." >>
  raise {| exn_class_of := SystemExit; exn_str := "0" |}.

Definition setting_map : gmap string string :=
  list_to_map [
    ("system info", "collect_system_info");
    ("system information", "collect_system_info");
    ("usage", "collect_usage_data");
    ("usage data", "collect_usage_data");
    ("command history", "store_command_history");
    ("network", "allow_network_access");
    ("internet", "allow_network_access");
    ("file system", "allow_file_system_access");
    ("file access", "allow_file_system_access");
    ("file", "allow_file_system_access");
    ("process", "allow_process_management");
    ("application", "allow_process_management")
  ].

Definition unfamiliar (setting_name : string) : string :=
  "I'm not familiar with the privacy setting '" ++ setting_name
  ++ "'. Available settings include system info, usage data, command history, network access, file access, and application management.".

(** [self.security_manager.update_privacy_settings(settings)]; the handler
    drops the status the method returns. *)
Definition call_update_privacy_settings
    (settings : list (string * Security.setting)) : M unit :=
  emit (UpdatePrivacySettings settings) >>
  let* st := get_state in
  match security_manager st with
  | Some sm =>
      let '(_, sm1, d1) :=
        Security.update_privacy_settings settings sm (disk st) in
      put_state (set_security sm1 d1 st)
  | None => raise (AttributeError "'NoneType' object has no attribute 'update_privacy_settings'")
  end.

Definition _handle_enable_privacy_setting (command_text : string)
    (setting : option string) (kwargs : list (string * option string))
  : M unit :=
  let* st := get_state in
  match security_manager st with
  | None => speak security_unavailable
  | Some _ =>
      try_except
        (let enable (setting : string) : M unit :=
           let setting_name := lower (strip setting) in
           match setting_map !! setting_name with
           | Some setting_key =>
               call_update_privacy_settings
                 [(setting_key, Security.SBool true)] >>
               speak ("I've enabled " ++ setting_name ++ " data collection.")
           | None => speak (unfamiliar setting_name)
           end in
         match setting with
         | Some (String _ _ as setting) => enable setting
         | _ =>
             match compile "(?:enable|turn on) (.+?) (?:data collection|tracking|monitoring)" with
             | Some c =>
                 match re_search false c command_text with
                 | Some groups =>
                     match groups !! 0%nat with
                     | Some (Some setting) => enable setting
                     | _ => raise (AttributeError "'NoneType' object has no attribute 'strip'")
                     end
                 | None => speak "Please specify a privacy setting to enable."
                 end
             | None => raise {| exn_class_of := ExceptionClass "re.error";
                                exn_str := "pattern outside the supported fragment" |}
             end
         end)
        (fun _ => speak "I encountered an error while updating privacy settings.")
  end.

(** [self.security_manager.clear_all_data()] *)
Definition call_clear_all_data : M bool :=
  emit ClearAllData >>
  let* st := get_state in
  match security_manager st with
  | Some sm =>
      let '(ok, sm1, d1) := Security.clear_all_data sm (disk st) in
      put_state (set_security sm1 d1 st) >> ret ok
  | None => raise (AttributeError "'NoneType' object has no attribute 'clear_all_data'")
  end.

Definition _handle_clear_data (command_text : string)
    (kwargs : list (string * option string)) : M unit :=
  let* st := get_state in
  match security_manager st with
  | None => speak security_unavailable
  | Some _ =>
      speak "Are you sure you want to clear all your stored data? This cannot be undone. Please say yes or no." >>
      let confirmed := true in
      if confirmed
      then
        try_except
          (let* ok := call_clear_all_data in
           if ok
           then speak "All your stored data has been cleared, and privacy settings have been reset to defaults."
           else speak "I had trouble clearing your data. Please try again later.")
          (fun _ => speak "I encountered an error while clearing data.")
      else speak "Data clearing operation canceled."
  end.

(** A handler whose body is not embedded: the environment says what it
    speaks, which collaborators it calls, how it changes the state and how
    it ends. *)
Definition opaque (h : handler) (command_text : string) (b : bound)
  : M unit :=
  fun st =>
    let '(os, st1, o) := body env h command_text b st in
    (map event_of os, st1, o).

Definition run_body (h : handler) (command_text : string) (b : bound)
  : M unit :=
  match h with
  | h_open_application =>
      _open_application command_text (b_args b) (b_kwargs b)
  | h_delete_item => _delete_item command_text (b_args b) (b_kwargs b)
  | h_delete_directory =>
      _delete_directory command_text (b_args b) (b_kwargs b)
  | h_execute_command =>
      _execute_command command_text (b_args b) (b_kwargs b)
  | h_shutdown => _shutdown command_text (b_args b) (b_kwargs b)
  | h_handle_enable_privacy_setting =>
      _handle_enable_privacy_setting command_text (param "setting" b)
        (b_kwargs b)
  | h_handle_clear_data => _handle_clear_data command_text (b_kwargs b)
  | _ => opaque h command_text b
  end.

(** The call [handler(command_text, *groups, **kwargs)]. *)
Definition call (h : handler) (command_text : string)
    (groups : list (option string)) (kwargs : list (string * option string))
  : M unit :=
  emit (Invoke h groups kwargs) >>
  match bind_call (signature_of h) groups kwargs with
  | Returned b => run_body h command_text b
  | Raised e => raise e
  end.

(** *** The dispatcher *)

Definition error_processing : string :=
  "I encountered an error while processing that command.".

Definition not_understood : string :=
  "I'm sorry, I don't understand that command.".

Definition not_caught : string :=
  "I didn't catch that. Can you please repeat?".

(** The loop of [process_command] over the rules that are left. *)
Fixpoint scan (rules : list (string * handler)) (command_text : string)
  : M unit :=
  match rules with
  | [] => speak not_understood
  | (pattern, h) :: rest =>
      match compile pattern with
      | Some c =>
          match re_match true c command_text with
          | Some groups =>
              let kwargs := groupdict c groups in
              try_except (call h command_text groups kwargs)
                         (fun _ => speak error_processing)
          | None => scan rest command_text
          end
      | None => raise {| exn_class_of := ExceptionClass "re.error";
                         exn_str := "pattern outside the supported fragment" |}
      end
  end.

Definition process_command (command_text : string) : M unit :=
  match command_text with
  | EmptyString => speak not_caught
  | _ => scan commands (strip (lower command_text))
  end.

End Handlers.

(** *** Observations on a run *)

Definition trace_of {A} (r : list event * State * outcome A) : list event :=
  r.1.1.

Definition state_of {A} (r : list event * State * outcome A) : State :=
  r.1.2.

Definition outcome_of {A} (r : list event * State * outcome A) : outcome A :=
  r.2.

(** The groups and the keyword arguments a rule yields on a text, when its
    pattern matches. *)
Definition rule_match (r : string * handler) (command_text : string)
  : option (list (option string) * list (string * option string)) :=
  match compile r.1 with
  | Some c =>
      match re_match true c command_text with
      | Some groups => Some (groups, groupdict c groups)
      | None => None
      end
  | None => None
  end.

(** The first rule that matches, with its position in the table. *)
Definition select (rules : list (string * handler)) (command_text : string)
  : option (nat * (string * handler)) :=
  list_find (fun r => is_Some (rule_match r command_text)) rules.

(** The number of handler calls the dispatcher made. *)
Fixpoint invocations (tr : list event) : nat :=
  match tr with
  | [] => 0
  | Invoke _ _ _ :: r => S (invocations r)
  | _ :: r => invocations r
  end.

Definition is_execute_command (e : event) : Prop :=
  match e with
  | ExecuteCommand _ => True
  | _ => False
  end.

(** The events a handler body can produce: everything but a dispatcher
    call and a request to the speech-to-text collaborator. *)
Definition body_event (e : event) : Prop :=
  match e with
  | Invoke _ _ _ | Listen => False
  | _ => True
  end.

(** Every event of every run of [m] satisfies [P]. *)
Definition silent {A} (P : event -> Prop) (m : M A) : Prop :=
  forall st, Forall P (trace_of (m st)).

(** [s.isspace()], or [s] empty. *)
Fixpoint all_space (s : string) : bool :=
  match s with
  | EmptyString => true
  | String c r => is_space c && all_space r
  end.

End Processor.

(** ** Sample collaborators and states *)

Module Sample.
Import PyExc Processor.

(** Collaborators that find nothing and do nothing. *)
Definition quiet_env : Env :=
  {| open_application := fun _ _ => Returned false;
     delete_item := fun _ => Returned false;
     execute_command := fun _ => Returned (false, "");
     body := fun _ _ _ st => ([], st, Returned tt) |}.

(** Collaborators with a fallback handler that speaks and then fails. *)
Definition failing_env : Env :=
  {| open_application := fun _ _ => Returned false;
     delete_item := fun _ => Returned false;
     execute_command := fun _ => Returned (false, "");
     body := fun _ _ _ st =>
       ([OSpeak "One moment."], st,
        Raised {| exn_class_of := ExceptionClass "RuntimeError";
                  exn_str := "no answer" |}) |}.

Definition home : PurePath.path := PurePath.parse "C:\Users\tony".

Definition cwd : PurePath.path := PurePath.parse "C:\Users\tony\jarvis".

Definition empty_disk : Security.Disk :=
  {| Security.key_file := None; Security.privacy_file := None;
     Security.secure_storage_file := None; Security.writable := true |}.

(** The security manager and the data directory after a first start on an
    empty data directory. *)
Definition manager : Security.SecurityManager :=
  (Security.init home 1 2 empty_disk).1.

Definition data_dir : Security.Disk :=
  (Security.init home 1 2 empty_disk).2.

(** A tuple, kept in secure storage, and the manager a restart then
    builds from the data directory. *)
Definition pair : Security.pyval :=
  Security.PTuple [Security.PInt 1; Security.PInt 2].

Definition stored_pair
  : bool * Security.SecurityManager * Security.Disk :=
  Security.store_secure_data "pair" pair manager data_dir.

Definition restarted_pair : Security.SecurityManager :=
  (Security.init home 7 8 stored_pair.2).1.

(** An access log that is full: the oldest entry and 999 later ones; and
    the manager that holds it. *)
Definition oldest_entry : Security.pyval :=
  Security.access_entry "2024-01-01T08:00:00" "system_info" "first entry".

Definition later_entry : Security.pyval :=
  Security.access_entry "2024-02-01T09:00:00" "file_access" "read a file".

Definition full_log : list Security.pyval :=
  oldest_entry :: replicate 999 later_entry.

Definition full_manager : Security.SecurityManager :=
  Security.set_secure_storage
    {[ "access_log" := Security.PList full_log ]} manager.

(** The processor after that start. *)
Definition started : State :=
  {| system_handler_ok := true; security_manager := Some manager;
     disk := data_dir |}.

End Sample.

(** ** The security manager: permissions and deletion *)

Module SecurityMore.
Import PyStr PyExc Security.

(** Truth value of a setting: a toggle as it is, a list when not empty. *)
Definition setting_truthy (v : setting) : bool :=
  match v with
  | SBool b => b
  | SList l => negb (bool_decide (l = []))
  end.

(** [s.endswith(suffix)] *)
Fixpoint endswith (suffix s : string) : bool :=
  bool_decide (s = suffix) ||
  match s with
  | EmptyString => false
  | String _ r => endswith suffix r
  end.

(** [check_privacy_permission]: the value of the setting, [False] when the
    key is missing. *)
Definition check_privacy_permission (permission_type : string)
    (sm : SecurityManager) : setting :=
  match privacy_settings sm !! permission_type with
  | Some v => v
  | None => SBool false
  end.

(** [is_sensitive_path]; [path_str] is [str(path)]. A setting that is a
    toggle where a list is expected cannot be iterated. *)
Definition is_sensitive_path (path_str : string) (sm : SecurityManager)
  : outcome bool :=
  let not_iterable := TypeError "'bool' object is not iterable" in
  match default (SList []) (privacy_settings sm !! "sensitive_directories") with
  | SBool _ => Raised not_iterable
  | SList dirs =>
      if existsb (fun sensitive_dir => startswith sensitive_dir path_str) dirs
      then Returned true
      else
        match default (SList []) (privacy_settings sm !! "excluded_file_types") with
        | SBool _ => Raised not_iterable
        | SList exts =>
            Returned (existsb (fun ext => endswith ext path_str) exts)
        end
  end.

(** [secure_file_access]; the operation is not looked at. *)
Definition secure_file_access (file_path operation : string)
    (sm : SecurityManager) : outcome bool :=
  if negb (setting_truthy
             (check_privacy_permission "allow_file_system_access" sm))
  then Returned false
  else
    match is_sensitive_path file_path sm with
    | Returned true => Returned false
    | Returned false => Returned true
    | Raised e => Raised e
    end.

(** [delete_secure_data] *)
Definition delete_secure_data (key : string)
    (sm : SecurityManager) (d : Disk) : bool * SecurityManager * Disk :=
  match secure_storage sm !! key with
  | Some _ =>
      let sm1 := set_secure_storage (delete key (secure_storage sm)) sm in
      let '(ok, d1) :=
        _save_secure_storage (cipher_suite sm1) (secure_storage sm1) d in
      (ok, sm1, d1)
  | None => (true, sm, d)
  end.

(** One step of the loop of [update_privacy_settings] over the items of
    its argument. *)
Definition settings_step (acc : gmap string setting) (kv : string * setting)
  : gmap string setting :=
  let '(key, value) := kv in
  if bool_decide (key ∈ valid_keys) then <[key := value]> acc else acc.


(** A sequence of calls of [log_data_access], one per triple of time, data
    type and description; a call that raises ends the sequence. *)
Fixpoint log_all (calls : list (string * string * string))
    (sm : SecurityManager) (d : Disk)
  : outcome unit * SecurityManager * Disk :=
  match calls with
  | [] => (Returned tt, sm, d)
  | (now, data_type, description) :: rest =>
      match log_data_access now data_type description sm d with
      | (Returned _, sm1, d1) => log_all rest sm1 d1
      | r => r
      end
  end.

End SecurityMore.

(** ** The dispatcher: calls that cannot be bound, and what reaches the shell *)

Module ProcessorMore.
Import PyStr PyExc Regex Processor.

(** Whether the call [handler(text, *groups, **groupdict)] fails for a
    handler of signature [sg] on a match of the pattern [c]: a named group
    bears the name of a parameter that a group fills by position, or there
    are more groups than named parameters and no [*args]. *)
Definition call_fails (sg : signature) (c : compiled) : bool :=
  existsb (fun g => bool_decide
                      (g.1 ∈ "self" :: "command_text"
                              :: take (groups c) (params sg)))
          (groupindex c)
  || (negb (varargs sg) && (length (params sg) <? groups c)%nat).

(** Whether a rule is one whose handler call fails on every match. *)
Definition rule_fails (r : string * handler) : bool :=
  match compile r.1 with
  | Some c => call_fails (signature_of r.2) c
  | None => false
  end.

(** The rules of the table of that kind, with their positions. *)
Definition failing_rules : list (nat * (string * handler)) :=
  filter (fun ir => rule_fails ir.2 = true)
         (imap (fun i r => (i, r)) commands).

(** An event that is not the execution of a command with an entry of the
    deny-list in it. *)
Definition safe_event (e : event) : Prop :=
  match e with
  | ExecuteCommand command =>
      existsb (fun dc => contains dc (lower command)) dangerous_commands
      = false
  | _ => True
  end.

(** The rules of the table for "run <application>" and for "run command
    <command>". *)
Definition run_application_rule : string * handler :=
  ("run (?P<app_name>.+?)(\s+with\s+(?P<args>.+))?$", h_open_application).

Definition run_command_rule : string * handler :=
  ("run( the)? command (?P<command>.+)", h_execute_command).

(** No character of the text is a newline. *)
Fixpoint one_line (s : string) : bool :=
  match s with
  | EmptyString => true
  | String c r => negb (bool_decide (c = "010"%char)) && one_line r
  end.

End ProcessorMore.

(** ** The privacy handlers of the processor *)

From Stdlib Require DecimalString.

Module PrivacyHandlers.
Import PyStr PyExc Regex Processor.

(** [_handle_disable_privacy_setting]; its table of names is the one of
    [_handle_enable_privacy_setting], written out a second time in the
    source. *)
Definition _handle_disable_privacy_setting (command_text : string)
    (setting : option string) (kwargs : list (string * option string))
  : M unit :=
  let* st := get_state in
  match security_manager st with
  | None => speak security_unavailable
  | Some _ =>
      try_except
        (let disable (setting : string) : M unit :=
           let setting_name := lower (strip setting) in
           match setting_map !! setting_name with
           | Some setting_key =>
               call_update_privacy_settings
                 [(setting_key, Security.SBool false)] >>
               speak ("I've disabled " ++ setting_name ++ " data collection.")
           | None => speak (unfamiliar setting_name)
           end in
         match setting with
         | Some (String _ _ as setting) => disable setting
         | _ =>
             match compile "(?:disable|turn off) (.+?) (?:data collection|tracking|monitoring)" with
             | Some c =>
                 match re_search false c command_text with
                 | Some groups =>
                     match groups !! 0%nat with
                     | Some (Some setting) => disable setting
                     | _ => raise (AttributeError "'NoneType' object has no attribute 'strip'")
                     end
                 | None => speak "Please specify a privacy setting to disable."
                 end
             | None => raise {| exn_class_of := ExceptionClass "re.error";
                                exn_str := "pattern outside the supported fragment" |}
             end
         end)
        (fun _ => speak "I encountered an error while updating privacy settings.")
  end.

(** The handler that switches a setting on or off. *)
Definition switch_handler (on : bool)
  : string -> option string -> list (string * option string) -> M unit :=
  if on then _handle_enable_privacy_setting
  else _handle_disable_privacy_setting.

(** The keys [_handle_show_privacy_settings] reports, with the names it
    gives them. *)
Definition core_settings : list (string * string) := [
  ("collect_system_info", "System information collection");
  ("collect_usage_data", "Usage data collection");
  ("store_command_history", "Command history storage");
  ("allow_network_access", "Network access");
  ("allow_file_system_access", "File system access");
  ("allow_process_management", "Application management")
].

(** Truth value of [settings.get(key, False)]. *)
Definition get_truthy (settings : gmap string Security.setting)
    (key : string) : bool :=
  match settings !! key with
  | Some v => SecurityMore.setting_truthy v
  | None => false
  end.

(** The loop over the core settings: the names of those that are on and
    the names of those that are off, each in the order of the list. *)
Definition classify (settings : gmap string Security.setting)
  : list string * list string :=
  foldl (fun acc kn =>
           if get_truthy settings kn.1
           then ((acc.1 ++ [kn.2])%list, acc.2)
           else (acc.1, (acc.2 ++ [kn.2])%list))
        ([], []) core_settings.

(** [sep.join(l)] *)
Fixpoint join_with (sep : string) (l : list string) : string :=
  match l with
  | [] => ""
  | [x] => x
  | x :: r => x ++ sep ++ join_with sep r
  end.

(** [str(n)] *)
Definition decimal (n : nat) : string :=
  DecimalString.NilZero.string_of_uint (Nat.to_uint n).

(** The line [_handle_show_privacy_settings] builds. [len] of a toggle
    that is on raises; one that is off is falsy and is not measured. *)
Definition show_response (settings : gmap string Security.setting)
  : outcome string :=
  let enabled_settings := (classify settings).1 in
  let disabled_settings := (classify settings).2 in
  let response := "Current privacy settings: " in
  let response :=
    match enabled_settings with
    | [] => response
    | _ => response ++ "Enabled: " ++ join_with ", " enabled_settings ++ ". "
    end in
  let response :=
    match disabled_settings with
    | [] => response
    | _ => response ++ "Disabled: " ++ join_with ", " disabled_settings ++ ". "
    end in
  match default (Security.SList []) (settings !! "sensitive_directories") with
  | Security.SList [] | Security.SBool false => Returned response
  | Security.SList sensitive_dirs =>
      Returned (response ++ "Protected directories: "
                ++ decimal (length sensitive_dirs) ++ ".")
  | Security.SBool true =>
      Raised (TypeError "object of type 'bool' has no len()")
  end.

Definition _handle_show_privacy_settings (command_text : string)
    (kwargs : list (string * option string)) : M unit :=
  let* st := get_state in
  match security_manager st with
  | None => speak security_unavailable
  | Some sm =>
      try_except
        (let* response := lift (show_response (Security.privacy_settings sm)) in
         speak response)
        (fun _ => speak "I encountered an error while showing privacy settings.")
  end.

(** [_handle_add_sensitive_directory]. [system_handler] is the object the
    field of that name holds when it is not [None], [cwd] the working
    directory. The list found under ["sensitive_directories"] is the list
    object of the settings in memory: [append] changes it there, before and
    whatever [update_privacy_settings] does; when the key is missing the
    list is a new one and memory changes only through the update. *)
Definition _handle_add_sensitive_directory
    (system_handler : SystemOps.SystemHandler) (cwd : PurePath.path)
    (command_text : string) (directory : option string)
    (kwargs : list (string * option string)) : M unit :=
  let* st := get_state in
  match security_manager st with
  | None => speak security_unavailable
  | Some sm =>
      try_except
        (let add (directory : string) : M unit :=
           let directory_path := strip directory in
           if negb (system_handler_ok st)
           then raise (AttributeError "'NoneType' object has no attribute '_resolve_path'")
           else
             let directory_path :=
               PurePath.to_str
                 (SystemOps._resolve_path system_handler cwd directory_path) in
             let found :=
               Security.privacy_settings sm !! "sensitive_directories" in
             match default (Security.SList []) found with
             | Security.SBool _ =>
                 raise (TypeError "argument of type 'bool' is not iterable")
             | Security.SList sensitive_dirs =>
                 if bool_decide (directory_path ∈ sensitive_dirs)
                 then speak (directory ++ " is already in the list of protected directories.")
                 else
                   let sensitive_dirs :=
                     (sensitive_dirs ++ [directory_path])%list in
                   (match found with
                    | Some _ =>
                        put_state
                          (set_security
                             (Security.set_privacy_settings
                                (<["sensitive_directories" :=
                                     Security.SList sensitive_dirs]>
                                   (Security.privacy_settings sm)) sm)
                             (disk st) st)
                    | None => ret tt
                    end) >>
                   call_update_privacy_settings
                     [("sensitive_directories",
                       Security.SList sensitive_dirs)] >>
                   speak ("I've added " ++ directory
                          ++ " to protected directories. Files in this location will be secure.")
             end in
         match directory with
         | Some (String _ _ as directory) => add directory
         | _ =>
             match compile "add sensitive directory (.+)" with
             | Some c =>
                 match re_search false c command_text with
                 | Some groups =>
                     match groups !! 0%nat with
                     | Some (Some directory) => add directory
                     | _ => raise (AttributeError "'NoneType' object has no attribute 'strip'")
                     end
                 | None => speak "Please specify a directory to protect."
                 end
             | None => raise {| exn_class_of := ExceptionClass "re.error";
                                exn_str := "pattern outside the supported fragment" |}
             end
         end)
        (fun _ => speak "I had trouble adding this directory as a protected directory.")
  end.

End PrivacyHandlers.

(** ** The main loop *)

Module Main.
Import PyStr PyExc Processor.

Definition ValueError (msg : string) : exn :=
  {| exn_class_of := ExceptionClass "ValueError"; exn_str := msg |}.

(** [s.split(sep, 1)] for a separator that is not empty: the text before
    the first occurrence of [sep] and the text after it, or nothing when
    [sep] does not occur and the result is the one-element list [[s]]. *)
Fixpoint split_once (sep s : string) : option (string * string) :=
  if startswith sep s then Some ("", drop_str (String.length sep) s)
  else match s with
       | EmptyString => None
       | String c r =>
           match split_once sep r with
           | Some (before, after) => Some (String c before, after)
           | None => None
           end
       end.

(** [extract_command]; [split] refuses an empty separator. *)
Definition extract_command (text : option string) (wake_word : string)
  : outcome (option string) :=
  match text with
  | Some (String _ _ as text) =>
      let text := lower text in
      let wake_word := lower wake_word in
      if contains wake_word text
      then
        match wake_word with
        | EmptyString => Raised (ValueError "empty separator")
        | String _ _ =>
            match split_once wake_word text with
            | Some (_, after) =>
                match strip after with
                | String _ _ as command => Returned (Some command)
                | EmptyString => Returned None
                end
            | None => Returned None
            end
        end
      else Returned (Some text)
  | _ => Returned None
  end.

(** What the listener gives in one round of the loop: the result of
    [listen_for_wake_word] and, should it be asked, that of [listen]. *)
Record round := {
  wake_text : outcome (option string);
  command : outcome (option string)
}.

Definition not_heard : string :=
  "I didn't catch that. Please try speaking clearly and a bit louder, or try direct mode with the --direct flag.".

(** The body of the loop of [run]. *)
Definition round_body (env : Env) (wake_word : string) (r : round)
  : M unit :=
  emit Listen >>
  let* wake_text := lift (wake_text r) in
  if truthy wake_text
  then
    let* command := lift (extract_command wake_text wake_word) in
    match command with
    | Some (String _ _ as command) => process_command env command
    | _ =>
        emit (Other "play_activation_sound") >>
        emit Listen >>
        let* command := lift (Main.command r) in
        match command with
        | Some (String _ _ as command) => process_command env command
        | _ => speak not_heard
        end
    end
  else ret tt.

(** The loop of [run] over the rounds given; the loop of the source has no
    end of its own, and the result after the last round given stands for a
    loop that is still listening. *)
Fixpoint loop (env : Env) (wake_word : string) (rounds : list round)
  : M unit :=
  match rounds with
  | [] => ret tt
  | r :: rest => round_body env wake_word r >> loop env wake_word rest
  end.

(** [sys.exit(code)] *)
Definition sys_exit (code : string) : M unit :=
  raise {| exn_class_of := SystemExit; exn_str := code |}.

(** [run]: the greeting, then the loop inside
    [try: ... except KeyboardInterrupt: ... except Exception: ...]. *)
Definition run (env : Env) (wake_word : string) (rounds : list round)
  : M unit :=
  speak "Initializing JARVIS system. All systems are now online." >>
  speak "At your service, sir. Say my name followed by a command." >>
  fun st =>
    match loop env wake_word rounds st with
    | (tr, st1, Raised e) =>
        match exn_class_of e with
        | KeyboardInterrupt =>
            let '(tr2, st2, o) :=
              (speak "Goodbye, sir." >> sys_exit "0") st1 in
            ((tr ++ tr2)%list, st2, o)
        | ExceptionClass _ =>
            let '(tr2, st2, o) :=
              (speak "I encountered an unexpected error and need to restart."
               >> sys_exit "1") st1 in
            ((tr ++ tr2)%list, st2, o)
        | _ => (tr, st1, Raised e)
        end
    | r => r
    end.

(** The listener gave a result in every round. *)
Definition heard (r : round) : Prop :=
  (exists t, wake_text r = Returned t) /\ (exists t, command r = Returned t).

End Main.

(** ** Paths on lettered drives *)

Module PathMore.
Import PyStr PurePath.


(** The names [_resolve_path] takes for the well-known directories, as it
    compares them, with the directory each stands for. *)
Definition known_directories (self : SystemOps.SystemHandler)
  : list (string * path) :=
  [("desktop", SystemOps.desktop self);
   ("documents", SystemOps.documents self);
   ("downloads", SystemOps.downloads self)].

End PathMore.

(** ** The dispatcher: rules that cannot be reached *)

Module TableMore.
Import PyStr Regex Processor.

(** The text starts with [p], case being ignored, as the matcher compares
    characters under [re.IGNORECASE]. *)
Fixpoint istartswith (p s : string) : bool :=
  match p, s with
  | EmptyString, _ => true
  | String a p', String b s' => char_eqb true a b && istartswith p' s'
  | String _ _, EmptyString => false
  end.

(** The expression a text of ordinary characters, first [c] and then [s],
    is parsed to. *)
Fixpoint literal (c : ascii) (s : string) : regex :=
  match s with
  | EmptyString => RChar c
  | String d r => RSeq (RChar c) (literal d r)
  end.

(** The rules for questions, and the rules for the assistant's
    introduction and mood. *)
Definition question_rule : string * handler :=
  ("(who|what|when|where|why|how) (is|are|was|were|do|does|did) .+",
   h_answer_question).

Definition tell_me_about_rule : string * handler :=
  ("tell me (about|something about) .+", h_answer_question).

Definition introduce_rule : string * handler :=
  ("(who are you|what are you|tell me about yourself)", h_introduce_self).

Definition mood_rule : string * handler :=
  ("(how are you|how do you feel)", h_mood_response).

End TableMore.

(** ** The handlers that report on the access log and on data security *)

Module ReportHandlers.
Import PyStr PyExc Processor Security.

Definition KeyError (msg : string) : exn :=
  {| exn_class_of := ExceptionClass "KeyError"; exn_str := msg |}.

(** Truth value of a stored value. *)
Definition py_truthy (v : pyval) : bool :=
  match v with
  | PNone => false
  | PBool b => b
  | PInt z => negb (z =? 0)%Z
  | PStr s | PBytes s => negb (bool_decide (s = ""))
  | PList l | PTuple l => negb (bool_decide (l = []))
  | PDict d => negb (bool_decide (d = ∅))
  end.

(** [s.split("T")[0]] *)
Fixpoint before_T (s : string) : string :=
  match s with
  | EmptyString => EmptyString
  | String c r =>
      if bool_decide (c = "T"%char) then EmptyString
      else String c (before_T r)
  end.

Section Formatting.

(** What [str()] gives for a value that is not a string. *)
Variable str_of : pyval -> string.

(** A value inside an f-string. *)
Definition formatted (v : pyval) : string :=
  match v with
  | PStr s => s
  | _ => str_of v
  end.

(** The text one entry adds to the response. An entry that is not a
    dictionary cannot be indexed by a string, a missing key raises
    [KeyError], and only a string has a [split] that takes ["T"]. *)
Definition entry_text (entry : pyval) : outcome string :=
  match entry with
  | PDict d =>
      match d !! "timestamp" with
      | Some (PStr ts) =>
          let timestamp := before_T ts in
          match d !! "data_type", d !! "description" with
          | Some data_type, Some description =>
              Returned (timestamp ++ ": " ++ formatted data_type ++ " - "
                        ++ formatted description ++ ". ")
          | None, _ => Raised (KeyError "'data_type'")
          | _, None => Raised (KeyError "'description'")
          end
      | Some (PBytes _) =>
          Raised (TypeError "a bytes-like object is required, not 'str'")
      | Some _ => Raised (AttributeError "object has no attribute 'split'")
      | None => Raised (KeyError "'timestamp'")
      end
  | _ => Raised (TypeError "indices must be integers or slices, not str")
  end.

(** The loop over the recent entries. *)
Fixpoint entry_texts (entries : list pyval) (response : string)
  : outcome string :=
  match entries with
  | [] => Returned response
  | entry :: rest =>
      match entry_text entry with
      | Returned text => entry_texts rest (response ++ text)
      | Raised e => Raised e
      end
  end.

(** [_handle_show_data_access_log]. A list or a tuple is sliced and walked
    through; a text has characters for entries, which cannot be indexed by
    a string; any other value that is not falsy cannot be sliced. *)
Definition _handle_show_data_access_log (command_text : string)
    (kwargs : list (string * option string)) : M unit :=
  let* st := get_state in
  match security_manager st with
  | None => speak security_unavailable
  | Some sm =>
      try_except
        (let access_log := get_secure_data "access_log" (PList []) sm in
         if negb (py_truthy access_log)
         then speak "There is no data access history to display."
         else
           match access_log with
           | PList l | PTuple l =>
               let recent_logs := last_n 5 l in
               let* response :=
                 lift (entry_texts recent_logs
                         "Recent data access activity: ") in
               speak (response ++ "Showing 5 of "
                      ++ PrivacyHandlers.decimal (length l)
                      ++ " total entries.")
           | PStr _ | PBytes _ =>
               raise (TypeError "indices must be integers or slices, not str")
           | _ => raise (TypeError "object is not subscriptable")
           end)
        (fun _ => speak "I encountered an error while showing the data access log.")
  end.

End Formatting.

(** [_handle_data_security_status]. The cipher of a security manager is
    never [None]: [_initialize_encryption] returns one on every path. *)
Definition _handle_data_security_status (command_text : string)
    (kwargs : list (string * option string)) : M unit :=
  let* st := get_state in
  match security_manager st with
  | None => speak security_unavailable
  | Some sm =>
      try_except
        (let encryption_enabled := true in
         let secure_storage_exists :=
           bool_decide (is_Some (secure_storage_file (disk st))) in
         let privacy_settings_exist :=
           bool_decide (is_Some (privacy_file (disk st))) in
         let response := "Data Security Status: " in
         if encryption_enabled && secure_storage_exists
            && privacy_settings_exist
         then speak (response ++ "Your data is secure. Encryption is enabled, secure storage is set up, and privacy settings are configured.")
         else
           let response :=
             response ++ "There may be issues with your data security. " in
           let response :=
             if negb encryption_enabled
             then response ++ "Encryption is not properly configured. "
             else response in
           let response :=
             if negb secure_storage_exists
             then response ++ "Secure storage has not been set up. "
             else response in
           let response :=
             if negb privacy_settings_exist
             then response ++ "Privacy settings are not configured. "
             else response in
           speak response)
        (fun _ => speak "I encountered an error while checking security status.")
  end.

(** The encrypted storage file and the settings file are there. *)
Definition files_exist (d : Disk) : Prop :=
  is_Some (secure_storage_file d) /\ is_Some (privacy_file d).

(** What the handler says when both files are there. *)
Definition secure_line : string :=
  "Data Security Status: Your data is secure. Encryption is enabled, secure storage is set up, and privacy settings are configured.".

(** The text the loop builds for an entry of [log_data_access], given as
    time, data type and description. *)
Definition logged_text (c : string * string * string) : string :=
  before_T c.1.1 ++ ": " ++ c.1.2 ++ " - " ++ c.2 ++ ". ".

End ReportHandlers.

(** * Properties *)

(** ** Strings *)

Section StringFacts.
Import PyStr.

Lemma is_space_lower_char c : is_space (lower_char c) = is_space c.
Proof. destruct c as [[] [] [] [] [] [] [] []]; reflexivity. Qed.

Lemma lower_nonempty s : s <> "" -> lower s <> "".
Proof. destruct s; simpl; congruence. Qed.

Lemma lstrip_lower s : lstrip (lower s) = lower (lstrip s).
Proof.
  induction s as [|c r IH]; simpl; [reflexivity|].
  rewrite is_space_lower_char. destruct (is_space c); auto.
Qed.

Lemma rstrip_lower s : rstrip (lower s) = lower (rstrip s).
Proof.
  induction s as [|c r IH]; simpl; [reflexivity|].
  rewrite IH, is_space_lower_char.
  destruct (rstrip r); simpl; [destruct (is_space c)|]; reflexivity.
Qed.

Lemma strip_lower s : strip (lower s) = lower (strip s).
Proof. unfold strip. rewrite lstrip_lower. apply rstrip_lower. Qed.

Lemma lstrip_all_space s : Processor.all_space s = true -> lstrip s = "".
Proof.
  induction s as [|c r IH]; simpl; [reflexivity|].
  intros [Hc Hr]%andb_true_iff. rewrite Hc. auto.
Qed.

Lemma all_space_lower s :
  Processor.all_space (lower s) = Processor.all_space s.
Proof.
  induction s as [|c r IH]; simpl; [reflexivity|].
  rewrite is_space_lower_char, IH. reflexivity.
Qed.

Lemma lstrip_head s :
  lstrip s = "" \/ exists c r, lstrip s = String c r /\ is_space c = false.
Proof.
  induction s as [|c r IH]; simpl; [auto|].
  destruct (is_space c) eqn:E; [assumption|]. right. eauto.
Qed.

Lemma rstrip_head c r :
  is_space c = false -> exists r', rstrip (String c r) = String c r'.
Proof.
  intros H. simpl. rewrite H. destruct (rstrip r); eauto.
Qed.

(** A stripped text is empty or starts with a character that is not
    white space. *)
Lemma strip_head s :
  strip s = "" \/ exists c r, strip s = String c r /\ is_space c = false.
Proof.
  unfold strip. destruct (lstrip_head s) as [->|(c & r & -> & Hc)].
  - left. reflexivity.
  - right. destruct (rstrip_head c r Hc) as [r' ->]. eauto.
Qed.

Lemma startswith_rstrip d s :
  d <> "" ->
  (forall c, String.get (String.length d - 1) d = Some c -> is_space c = false) ->
  startswith d s = true -> startswith d (rstrip s) = true.
Proof.
  revert s. induction d as [|a d IH]; [congruence|].
  intros [|c r] _ Hlast; simpl; [discriminate|].
  intros [Hac Hd]%andb_true_iff. apply bool_decide_eq_true in Hac. subst c.
  destruct d as [|b d].
  - assert (Ha : is_space a = false) by (apply Hlast; reflexivity).
    rewrite Ha. destruct (rstrip r); simpl; rewrite bool_decide_eq_true_2; auto.
  - assert (Hr : startswith (String b d) (rstrip r) = true).
    { apply IH; [congruence| |assumption].
      intros c Hc. apply Hlast. simpl in *. rewrite Nat.sub_0_r in *.
      exact Hc. }
    destruct (rstrip r) as [|c' r'] eqn:E; [discriminate|].
    simpl. rewrite bool_decide_eq_true_2 by reflexivity. exact Hr.
Qed.

Lemma contains_nonempty d s : d <> "" -> contains d s = true -> s <> "".
Proof. destruct d; [congruence|]. destruct s; simpl; [discriminate|congruence]. Qed.

Lemma contains_cons d c r : contains d r = true -> contains d (String c r) = true.
Proof.
  intros H. change (contains d (String c r))
    with (startswith d (String c r) || contains d r).
  rewrite H. apply orb_true_r.
Qed.

Lemma contains_rstrip d s :
  d <> "" ->
  (forall c, String.get (String.length d - 1) d = Some c -> is_space c = false) ->
  contains d s = true -> contains d (rstrip s) = true.
Proof.
  intros Hd Hlast. induction s as [|c r IH].
  - destruct d; [congruence|]. discriminate.
  - intros H. cbn [contains] in H. apply orb_true_iff in H as [H|H].
    + apply (startswith_rstrip d _ Hd Hlast) in H.
      destruct (rstrip (String c r)); simpl; rewrite H; reflexivity.
    + specialize (IH H). pose proof (contains_nonempty _ _ Hd IH) as Hne.
      simpl. destruct (rstrip r) as [|c' r'] eqn:E; [congruence|].
      apply contains_cons. exact IH.
Qed.

Lemma contains_lstrip d s :
  (forall c, String.get 0 d = Some c -> is_space c = false) ->
  d <> "" ->
  contains d s = true -> contains d (lstrip s) = true.
Proof.
  intros Hfirst Hd. induction s as [|c r IH]; [auto|].
  intros H. simpl. destruct (is_space c) eqn:E; [|exact H].
  apply IH. cbn [contains] in H. apply orb_true_iff in H as [H|H]; [|exact H].
  destruct d as [|a d]; [congruence|]. simpl in H.
  apply andb_true_iff in H as [Hac _]. apply bool_decide_eq_true in Hac.
  subst. rewrite Hfirst in E; [discriminate|reflexivity].
Qed.

(** A substring that neither starts nor ends with white space survives
    [strip]. *)
Lemma contains_strip d s :
  d <> "" ->
  (forall c, String.get 0 d = Some c -> is_space c = false) ->
  (forall c, String.get (String.length d - 1) d = Some c -> is_space c = false) ->
  contains d s = true -> contains d (strip s) = true.
Proof.
  intros Hd Hf Hl H. unfold strip.
  apply contains_rstrip; auto. apply contains_lstrip; auto.
Qed.

End StringFacts.

(** ** The regular expression engine and the pattern table *)

Section TableFacts.
Import PyStr PyExc Regex Processor.

Lemma more_greedy_total k s caps kont :
  (forall s' c', is_Some (kont s' c')) ->
  is_Some (more_greedy k s caps kont).
Proof.
  intros Hk. revert caps. induction s as [|c r IH]; intros caps; simpl; [auto|].
  destruct (in_cls k c); [|auto].
  destruct (more_greedy k r caps kont); [eauto|auto].
Qed.

Lemma compile_catch_all :
  compile ".+" = Some {| re := RPlus AnyChar true; groups := 0; groupindex := [] |}.
Proof. reflexivity. Qed.

(** The last pattern matches every text that does not start with a
    newline. *)
Lemma catch_all_matches c r :
  c <> "010"%char ->
  is_Some (rule_match (".+", h_default_response) (String c r)).
Proof.
  intros Hc. unfold rule_match. simpl fst. rewrite compile_catch_all.
  assert (H : is_Some (re_match true
            {| re := RPlus AnyChar true; groups := 0; groupindex := [] |}
            (String c r))).
  { unfold re_match. simpl. rewrite bool_decide_eq_false_2 by assumption.
    simpl. apply more_greedy_total. eauto. }
  destruct H as [g ->]. eauto.
Qed.

Lemma commands_compile : Forall (fun r => is_Some (compile r.1)) commands.
Proof.
  assert (H : forallb (fun r => match compile r.1 with Some _ => true | None => false end)
                commands = true) by (vm_compute; reflexivity).
  rewrite forallb_forall in H. apply Forall_forall. intros r Hr.
  apply list_elem_of_In in Hr. specialize (H r Hr).
  destruct (compile r.1); [eauto|discriminate].
Qed.

Lemma commands_last : last commands = Some (".+", h_default_response).
Proof. reflexivity. Qed.

(** The patterns are pairwise distinct, so the dictionary literal keeps
    every entry. *)
Lemma commands_keys_distinct : NoDup (map fst commands).
Proof. apply (bool_decide_unpack _). vm_compute. exact I. Qed.

Lemma select_empty : select commands "" = None.
Proof. vm_compute. reflexivity. Qed.

(** The loop of the dispatcher calls the handler of the first rule that
    matches, inside its [try], and speaks the fallback line when no rule
    matches. *)
Lemma scan_select env rules t st :
  Forall (fun r => is_Some (compile r.1)) rules ->
  scan env rules t st =
    match select rules t with
    | Some (_, r) =>
        match rule_match r t with
        | Some (groups, kwargs) =>
            try_except (call env r.2 t groups kwargs)
                       (fun _ => speak error_processing) st
        | None => speak not_understood st
        end
    | None => speak not_understood st
    end.
Proof.
  induction 1 as [|[p h] rest [c Hc] _ IH]; [reflexivity|].
  simpl in Hc. unfold select in *. cbn [scan list_find]. rewrite Hc.
  case_decide as Hm.
  - destruct Hm as [[g kw] Hm]. rewrite Hm. unfold rule_match in Hm.
    simpl in Hm. rewrite Hc in Hm.
    destruct (re_match true c t); [|discriminate].
    injection Hm as <- <-. reflexivity.
  - unfold rule_match in Hm. simpl in Hm.
    rewrite Hc in Hm. destruct (re_match true c t).
    + exfalso. apply Hm. eauto.
    + rewrite IH. destruct (list_find _ rest) as [[i r]|]; reflexivity.
Qed.

Lemma process_command_scan env c r st :
  process_command env (String c r) st
  = scan env commands (strip (lower (String c r))) st.
Proof. reflexivity. Qed.

End TableFacts.

(** ** Traces of the monad *)

Section TraceFacts.
Import PyStr PyExc Regex Processor.
Context (P : event -> Prop).

Lemma silent_ret {A} (a : A) : silent P (ret a).
Proof. intros st. constructor. Qed.

Lemma silent_raise {A} (e : exn) : silent P (@raise A e).
Proof. intros st. constructor. Qed.

Lemma silent_lift {A} (o : outcome A) : silent P (lift o).
Proof. intros st. constructor. Qed.

Lemma silent_get : silent P get_state.
Proof. intros st. constructor. Qed.

Lemma silent_put s : silent P (put_state s).
Proof. intros st. constructor. Qed.

Lemma silent_emit e : P e -> silent P (emit e).
Proof. intros He st. repeat constructor. exact He. Qed.

Lemma silent_bind {A B} (m : M A) (f : A -> M B) :
  silent P m -> (forall a, silent P (f a)) -> silent P (bind m f).
Proof.
  intros Hm Hf st. specialize (Hm st). unfold bind, trace_of in *.
  destruct (m st) as [[tr st1] [a|e]]; simpl in *; [|exact Hm].
  specialize (Hf a st1). destruct (f a st1) as [[tr2 st2] o]. simpl in *.
  apply Forall_app. auto.
Qed.

Lemma silent_try {A} (m : M A) (h : exn -> M A) :
  silent P m -> (forall e, silent P (h e)) -> silent P (try_except m h).
Proof.
  intros Hm Hh st. specialize (Hm st). unfold try_except, trace_of in *.
  destruct (m st) as [[tr st1] [a|e]]; simpl in *; [exact Hm|].
  destruct (is_Exception e); [|exact Hm].
  specialize (Hh e st1). destruct (h e st1) as [[tr2 st2] o]. simpl in *.
  apply Forall_app. auto.
Qed.

End TraceFacts.

Ltac silent_step :=
  match goal with
  | |- Processor.silent _ (Processor.bind _ _) =>
      apply silent_bind; [|intros]
  | |- Processor.silent _ (Processor.try_except _ _) =>
      apply silent_try; [|intros]
  | |- Processor.silent _ (Processor.speak _) => apply silent_emit; exact I
  | |- Processor.silent _ (Processor.emit _) => apply silent_emit; exact I
  | |- Processor.silent _ (Processor.ret _) => apply silent_ret
  | |- Processor.silent _ (Processor.raise _) => apply silent_raise
  | |- Processor.silent _ (Processor.lift _) => apply silent_lift
  | |- Processor.silent _ Processor.get_state => apply silent_get
  | |- Processor.silent _ (Processor.put_state _) => apply silent_put
  | |- Processor.silent _ (if ?b then _ else _) => destruct b
  | |- Processor.silent _ (match ?x with _ => _ end) => destruct x
  end.

Ltac silent_auto := cbv beta zeta; repeat (silent_step; cbv beta zeta).

Section BodyFacts.
Import PyStr PyExc Regex Processor.
Variable env : Env.

Lemma opaque_silent h t b : silent body_event (opaque env h t b).
Proof.
  intros st. unfold opaque, trace_of.
  destruct (body env h t b st) as [[os st1] o]. simpl.
  apply Forall_forall. intros e [o' [<- _]]%list_elem_of_In%in_map_iff.
  destruct o'; exact I.
Qed.

(** A handler body never makes a dispatcher call and never asks the
    speech-to-text collaborator for anything. *)
Lemma run_body_silent h t b : silent body_event (run_body env h t b).
Proof.
  destruct h; try apply opaque_silent;
    unfold run_body, _open_application, _delete_item, _delete_directory,
      _execute_command, _shutdown, _handle_enable_privacy_setting,
      _handle_clear_data, call_update_privacy_settings, call_clear_all_data;
    silent_auto.
Qed.

Lemma invocations_app tr1 tr2 :
  invocations (tr1 ++ tr2) = invocations tr1 + invocations tr2.
Proof.
  induction tr1 as [|e tr1 IH]; [reflexivity|].
  destruct e; simpl; rewrite IH; reflexivity.
Qed.

Lemma invocations_body tr : Forall body_event tr -> invocations tr = 0.
Proof.
  induction 1 as [|e tr He _ IH]; [reflexivity|].
  destruct e; simpl in *; tauto.
Qed.

Lemma listen_body tr : Forall body_event tr -> Listen ∉ tr.
Proof.
  intros H Hin. rewrite Forall_forall in H. exact (H _ Hin).
Qed.

(** A call is one [Invoke] followed by events of the body. *)
Lemma call_trace h t g kw st :
  exists tr, trace_of (call env h t g kw st) = Invoke h g kw :: tr
             /\ Forall body_event tr.
Proof.
  unfold call, bind, emit, trace_of. simpl.
  destruct (bind_call (signature_of h) g kw) as [b|e]; simpl.
  - pose proof (run_body_silent h t b st) as H. unfold trace_of in H.
    destruct (run_body env h t b st) as [[tr st1] o]. simpl in *. eauto.
  - eexists. split; [reflexivity|constructor].
Qed.

(** The guarded call of the dispatcher: what the handler did, then the
    error line if it raised an exception derived from [Exception]. *)
Lemma guarded_call h t g kw st tr st1 o :
  call env h t g kw st = (tr, st1, o) ->
  try_except (call env h t g kw) (fun _ => speak error_processing) st =
    match o with
    | Returned a => (tr, st1, Returned a)
    | Raised e =>
        if is_Exception e
        then ((tr ++ [Speak error_processing])%list, st1, Returned tt)
        else (tr, st1, Raised e)
    end.
Proof.
  intros H. unfold try_except. rewrite H. destruct o as [a|e]; [reflexivity|].
  destruct (is_Exception e); reflexivity.
Qed.

Lemma guarded_call_invocations h t g kw st :
  invocations (trace_of (try_except (call env h t g kw)
                           (fun _ => speak error_processing) st)) = 1.
Proof.
  destruct (call_trace h t g kw st) as (tr & Htr & Hb).
  destruct (call env h t g kw st) as [[tr0 st1] o] eqn:E.
  rewrite (guarded_call _ _ _ _ _ _ _ _ E). unfold trace_of in *.
  simpl in Htr. subst tr0.
  destruct o as [a|e]; simpl; [|destruct (is_Exception e); simpl].
  - rewrite invocations_body; auto.
  - rewrite invocations_app, invocations_body; auto.
  - rewrite invocations_body; auto.
Qed.

End BodyFacts.

(** ** The dispatcher *)

Section DispatcherClaims.
Import PyStr PyExc Regex Processor.

Lemma select_Some rules t i r :
  select rules t = Some (i, r) ->
  rules !! i = Some r /\ is_Some (rule_match r t)
  /\ forall j r', j < i -> rules !! j = Some r' -> rule_match r' t = None.
Proof.
  unfold select. intros (Hi & Hm & Hfirst)%list_find_Some.
  split; [exact Hi|]. split; [exact Hm|].
  intros j r' Hj Hr'. specialize (Hfirst j r' Hr' Hj).
  destruct (rule_match r' t); [exfalso; apply Hfirst; eauto|reflexivity].
Qed.

(** A text whose normal form is not empty is matched by some rule. *)
Lemma select_normalised text :
  strip (lower text) <> "" ->
  is_Some (rule_match (".+", h_default_response) (strip (lower text)))
  /\ exists i r, select commands (strip (lower text)) = Some (i, r).
Proof.
  intros Hne.
  assert (Hlast : is_Some (rule_match (".+", h_default_response)
                             (strip (lower text)))).
  { destruct (strip_head (lower text)) as [E|(c & r & E & Hc)]; [congruence|].
    rewrite E. apply catch_all_matches. intros ->. discriminate. }
  split; [exact Hlast|].
  destruct (select commands (strip (lower text))) as [[i r]|] eqn:E; [eauto|].
  exfalso. unfold select in E.
  eapply (list_find_None (fun r => is_Some (rule_match r (strip (lower text)))))
    in E.
  rewrite Forall_forall in E. apply (E (".+", h_default_response)); [|exact Hlast].
  apply last_Some_elem_of. exact commands_last.
Qed.

(** A text that is empty or white space only: no handler is called; the
    empty text gets the line asking to repeat, the others the line of the
    branch after the loop. *)
Lemma process_command_blank env st text :
  all_space text = true ->
  process_command env text st =
    ([Speak match text with
            | EmptyString => not_caught
            | String _ _ => not_understood
            end], st, Returned tt).
Proof.
  intros Hws. destruct text as [|c r]; [reflexivity|].
  rewrite process_command_scan.
  assert (E : strip (lower (String c r)) = "").
  { unfold strip. rewrite lstrip_all_space; [reflexivity|].
    rewrite all_space_lower. exact Hws. }
  rewrite E, (scan_select env commands "" st commands_compile), select_empty.
  reflexivity.
Qed.

(** What the dispatcher does on a text whose normal form is not empty: the
    guarded call of the handler of the first matching rule. *)
Lemma process_command_selects env st text i p h groups kwargs :
  select commands (strip (lower text)) = Some (i, (p, h)) ->
  rule_match (p, h) (strip (lower text)) = Some (groups, kwargs) ->
  text <> "" ->
  process_command env text st =
    try_except (call env h (strip (lower text)) groups kwargs)
               (fun _ => speak error_processing) st.
Proof.
  intros Hsel Hm Hne. destruct text as [|c r]; [congruence|].
  rewrite process_command_scan.
  rewrite (scan_select env commands _ st commands_compile), Hsel, Hm.
  reflexivity.
Qed.

End DispatcherClaims.

(** C3, as the code has it. For the empty text the dispatcher calls no
    handler and speaks exactly one line, the one asking to repeat. For a
    text of white space only it also calls no handler and speaks exactly
    one line, but that line is the one of the branch after the loop ("I
    don't understand that command"), because the emptiness test comes
    before the text is stripped. *)
Theorem C3_blank_input_one_utterance_no_handler
    (env : Processor.Env) (st : Processor.State) (text : string) :
  Processor.all_space text = true ->
  Processor.trace_of (Processor.process_command env text st) =
    [Processor.Speak match text with
                     | EmptyString => Processor.not_caught
                     | String _ _ => Processor.not_understood
                     end]
  /\ Processor.invocations
       (Processor.trace_of (Processor.process_command env text st)) = 0
  /\ Processor.state_of (Processor.process_command env text st) = st
  /\ Processor.outcome_of (Processor.process_command env text st)
     = PyExc.Returned tt.
Proof.
  intros H. rewrite (process_command_blank env st text H). auto.
Qed.

Lemma C3_blank_input_witness :
  Processor.all_space "   " = true
  /\ Processor.trace_of
       (Processor.process_command Sample.quiet_env "   " Sample.started)
     = [Processor.Speak Processor.not_understood].
Proof.
  split; [reflexivity|].
  apply (C3_blank_input_one_utterance_no_handler
           Sample.quiet_env Sample.started "   "). reflexivity.
Defined.

(** C3 as stated fails on a text of one space: the line spoken is not the
    one asking to repeat. *)
Lemma C3_whitespace_counterexample :
  Processor.all_space " " = true
  /\ Processor.trace_of
       (Processor.process_command Sample.quiet_env " " Sample.started)
     <> [Processor.Speak Processor.not_caught].
Proof. split; [reflexivity|]. vm_compute. discriminate. Qed.

(** C4, as the code has it. For every text whose normal form (lower case,
    stripped) is not empty - which is less than every non-empty text - the
    dispatcher selects exactly one rule, the first that matches, and makes
    exactly one handler call, inside its [try]; the catch-all rule is the
    last of the table and matches the normal form, so the branch after the
    loop is not reached. *)
Theorem C4_dispatch_total
    (env : Processor.Env) (st : Processor.State) (text : string) :
  PyStr.strip (PyStr.lower text) <> "" ->
  last Processor.commands = Some (".+", Processor.h_default_response)
  /\ is_Some (Processor.rule_match (".+", Processor.h_default_response)
                (PyStr.strip (PyStr.lower text)))
  /\ exists i p h groups kwargs,
       Processor.commands !! i = Some (p, h)
       /\ Processor.rule_match (p, h) (PyStr.strip (PyStr.lower text))
          = Some (groups, kwargs)
       /\ (forall j r, j < i -> Processor.commands !! j = Some r ->
             Processor.rule_match r (PyStr.strip (PyStr.lower text)) = None)
       /\ Processor.process_command env text st
          = Processor.try_except
              (Processor.call env h (PyStr.strip (PyStr.lower text))
                 groups kwargs)
              (fun _ => Processor.speak Processor.error_processing) st
       /\ Processor.invocations
            (Processor.trace_of (Processor.process_command env text st)) = 1.
Proof.
  intros Hne. destruct (select_normalised text Hne) as [Hlast (i & [p h] & Hsel)].
  split; [exact commands_last|]. split; [exact Hlast|].
  destruct (select_Some _ _ _ _ Hsel) as (Hi & [[g kw] Hm] & Hfirst).
  assert (Htext : text <> "") by (intros ->; apply Hne; reflexivity).
  pose proof (process_command_selects env st text i p h g kw Hsel Hm Htext) as E.
  exists i, p, h, g, kw. repeat split; try assumption.
  rewrite E. apply guarded_call_invocations.
Qed.

Lemma C4_dispatch_total_witness :
  PyStr.strip (PyStr.lower "Hello Jarvis") <> ""
  /\ Processor.invocations
       (Processor.trace_of
          (Processor.process_command Sample.quiet_env "Hello Jarvis"
             Sample.started)) = 1.
Proof.
  split; [discriminate|].
  destruct (C4_dispatch_total Sample.quiet_env Sample.started "Hello Jarvis")
    as (_ & _ & i & p & h & g & kw & _ & _ & _ & _ & H);
    [discriminate|exact H].
Defined.

(** C4 as stated fails on the non-empty text of one space: no handler is
    called and the line of the branch after the loop is spoken. *)
Lemma C4_whitespace_counterexample :
  " " <> ""
  /\ Processor.process_command Sample.quiet_env " " Sample.started
     = ([Processor.Speak Processor.not_understood], Sample.started,
        PyExc.Returned tt)
  /\ Processor.invocations
       (Processor.trace_of
          (Processor.process_command Sample.quiet_env " " Sample.started)) = 0.
Proof.
  split; [discriminate|].
  rewrite (process_command_blank Sample.quiet_env Sample.started " " eq_refl).
  split; reflexivity.
Qed.

(** C7, as the code has it. When the call of the selected handler raises
    an exception derived from [Exception] - a failure to bind the
    arguments of the call included - the dispatcher adds exactly one
    generic error line to what the handler did and returns; the handler is
    called once. An exception that is not derived from [Exception], such
    as the [SystemExit] of the shutdown handler, leaves
    [process_command]. *)
Theorem C7_handler_failure
    (env : Processor.Env) (st st1 : Processor.State) (text : string)
    (i : nat) (p : string) (h : Processor.handler)
    (groups : list (option string)) (kwargs : list (string * option string))
    (tr : list Processor.event) (e : PyExc.exn) :
  text <> "" ->
  Processor.select Processor.commands (PyStr.strip (PyStr.lower text))
    = Some (i, (p, h)) ->
  Processor.rule_match (p, h) (PyStr.strip (PyStr.lower text))
    = Some (groups, kwargs) ->
  Processor.call env h (PyStr.strip (PyStr.lower text)) groups kwargs st
    = (tr, st1, PyExc.Raised e) ->
  Processor.process_command env text st =
    (if PyExc.is_Exception e
     then ((tr ++ [Processor.Speak Processor.error_processing])%list, st1,
           PyExc.Returned tt)
     else (tr, st1, PyExc.Raised e))
  /\ Processor.invocations
       (Processor.trace_of (Processor.process_command env text st)) = 1
  /\ (forall e',
       Processor.outcome_of (Processor.process_command env text st)
         = PyExc.Raised e' ->
       PyExc.is_Exception e' = false).
Proof.
  intros Hne Hsel Hm Hcall.
  rewrite (process_command_selects env st text i p h groups kwargs Hsel Hm Hne).
  split; [|split; [apply guarded_call_invocations|]];
    rewrite (guarded_call env _ _ _ _ _ _ _ _ Hcall); [reflexivity|].
  intros e'. destruct (PyExc.is_Exception e) eqn:E; cbn; [discriminate|].
  intros [= <-]. exact E.
Qed.

Lemma C7_handler_failure_witness :
  Processor.process_command Sample.failing_env "hello" Sample.started
  = ([Processor.Invoke Processor.h_default_response [] [];
      Processor.Speak "One moment.";
      Processor.Speak Processor.error_processing],
     Sample.started, PyExc.Returned tt).
Proof.
  apply (C7_handler_failure Sample.failing_env Sample.started Sample.started
           "hello" 56 ".+" Processor.h_default_response [] []
           [Processor.Invoke Processor.h_default_response [] [];
            Processor.Speak "One moment."]
           {| PyExc.exn_class_of := PyExc.ExceptionClass "RuntimeError";
              PyExc.exn_str := "no answer" |}).
  - discriminate.
  - vm_compute. reflexivity.
  - vm_compute. reflexivity.
  - vm_compute. reflexivity.
Defined.

(** C7 as stated fails on "exit": the shutdown handler speaks and raises
    [SystemExit], which the dispatcher does not catch. *)
Lemma C7_shutdown_counterexample :
  Processor.process_command Sample.quiet_env "exit" Sample.started
  = ([Processor.Invoke Processor.h_shutdown [Some "exit"] [];
      Processor.Speak "Shutting down. Goodbye, sir."],
     Sample.started,
     PyExc.Raised {| PyExc.exn_class_of := PyExc.SystemExit;
                     PyExc.exn_str := "0" |}).
Proof. vm_compute. reflexivity. Qed.

(** C1, evaluated. "run command rm -rf /" is matched by the earlier rule
    for "run <application>", so the handler called is the application
    launcher with the name "command rm -rf /": the deny-list of the
    command handler is not consulted and no refusal is spoken (and
    [execute_command] is not called either). *)
Theorem C1_run_command_reaches_open_application
    (env : Processor.Env) (st : Processor.State) :
  Processor.trace_of
    (Processor.process_command env "run command rm -rf /" st)
  = Processor.Invoke Processor.h_open_application
      [Some "command rm -rf /"; None; None]
      [("app_name", Some "command rm -rf /"); ("args", None)]
    :: (if Processor.system_handler_ok st
        then Processor.Speak "Opening command rm -rf /."
             :: Processor.OpenApplication "command rm -rf /" []
             :: match Processor.open_application env "command rm -rf /" [] with
                | PyExc.Returned true => []
                | PyExc.Returned false =>
                    [Processor.Speak "I couldn't find or open command rm -rf /. Please check if it's installed correctly."]
                | PyExc.Raised e =>
                    if PyExc.is_Exception e
                    then [Processor.Speak
                            ("I had trouble opening command rm -rf /. "
                             ++ PyExc.exn_str e)]
                    else []
                end
        else [Processor.Speak Processor.system_unavailable]).
Proof.
  assert (Hsel : Processor.select Processor.commands
                   (PyStr.strip (PyStr.lower "run command rm -rf /"))
                 = Some (27, ("run (?P<app_name>.+?)(\s+with\s+(?P<args>.+))?$",
                              Processor.h_open_application)))
    by (vm_compute; reflexivity).
  rewrite (process_command_selects env st _ _ _ _
             [Some "command rm -rf /"; None; None]
             [("app_name", Some "command rm -rf /"); ("args", None)] Hsel);
    [|vm_compute; reflexivity|discriminate].
  destruct st as [ok sm d], env as [oa di ec bd]. destruct ok.
  - vm_compute.
    destruct (oa "command rm -rf /" []) as [[]|[[] ?]]; reflexivity.
  - vm_compute. reflexivity.
Qed.

(** C5, evaluated. On "enable network data collection" the dispatcher
    passes the captured name both by position and by keyword; binding the
    call fails, the body of the handler does not run, the generic error
    line is spoken and the privacy store is left as it was. *)
Theorem C5_enable_network_fails_at_the_call
    (env : Processor.Env) (st : Processor.State) :
  Processor.process_command env "enable network data collection" st
  = ([Processor.Invoke Processor.h_handle_enable_privacy_setting
        [Some "network"] [("setting", Some "network")];
      Processor.Speak Processor.error_processing],
     st, PyExc.Returned tt).
Proof.
  assert (Hsel : Processor.select Processor.commands
                   (PyStr.strip (PyStr.lower "enable network data collection"))
                 = Some (49, ("(?:enable|turn on) (?P<setting>.+?) (?:data collection|tracking|monitoring)",
                              Processor.h_handle_enable_privacy_setting)))
    by (vm_compute; reflexivity).
  rewrite (process_command_selects env st _ _ _ _
             [Some "network"] [("setting", Some "network")] Hsel);
    [|vm_compute; reflexivity|discriminate].
  reflexivity.
Qed.

(** ** Handlers *)

Section HandlerFacts.
Import PyStr PyExc Regex Processor.
Variable env : Env.

(** Every entry of the deny-list is non-empty and neither starts nor ends
    with white space. *)
Lemma dangerous_commands_trimmed dc :
  dc ∈ dangerous_commands ->
  dc <> ""
  /\ (forall c, String.get 0 dc = Some c -> is_space c = false)
  /\ (forall c, String.get (String.length dc - 1) dc = Some c ->
        is_space c = false).
Proof.
  unfold dangerous_commands. rewrite !elem_of_cons, elem_of_nil.
  intros [->|[->|[->|[->|[->|[]]]]]];
    (split; [discriminate|]);
    split; intros c [= <-]; reflexivity.
Qed.

Lemma dangerous_after_strip dc command :
  dc ∈ dangerous_commands ->
  contains dc (lower command) = true ->
  existsb (fun dc => contains dc (lower (strip command))) dangerous_commands
  = true.
Proof.
  intros Hin Hc. apply existsb_exists. exists dc.
  split; [apply list_elem_of_In; exact Hin|].
  rewrite <- strip_lower.
  destruct (dangerous_commands_trimmed dc Hin) as (Hne & Hf & Hl).
  apply contains_strip; assumption.
Qed.

Lemma run_body_delete_item t args kwargs :
  _delete_item env t args kwargs
  = run_body env h_delete_item t
      {| b_params := []; b_args := args; b_kwargs := kwargs |}.
Proof. reflexivity. Qed.

Lemma run_body_delete_directory t args kwargs :
  _delete_directory env t args kwargs
  = run_body env h_delete_directory t
      {| b_params := []; b_args := args; b_kwargs := kwargs |}.
Proof. reflexivity. Qed.

Lemma run_body_clear_data t kwargs :
  _handle_clear_data t kwargs
  = run_body env h_handle_clear_data t
      {| b_params := []; b_args := []; b_kwargs := kwargs |}.
Proof. reflexivity. Qed.

(** The body of the enabling handler, had the call reached it with the
    captured name "network": the toggle for network access is set in
    memory and in the settings file when the file can be written. *)
Lemma enable_body_network t kwargs st sm :
  security_manager st = Some sm ->
  Security.writable (disk st) = true ->
  let r := _handle_enable_privacy_setting t (Some "network") kwargs st in
  trace_of r
  = [UpdatePrivacySettings [("allow_network_access", Security.SBool true)];
     Speak "I've enabled network data collection."]
  /\ exists sm1,
       security_manager (state_of r) = Some sm1
       /\ Security.privacy_settings sm1
          = <["allow_network_access" := Security.SBool true]>
              (Security.privacy_settings sm)
       /\ Security.privacy_file (disk (state_of r))
          = Some (Some (Security.privacy_settings sm1)).
Proof.
  intros Hsm Hw. destruct st as [ok osm d]. simpl in *. subst osm.
  unfold _handle_enable_privacy_setting, call_update_privacy_settings,
    try_except, bind, get_state, emit, speak, put_state, trace_of, state_of.
  cbn [security_manager disk].
  replace (setting_map !! lower (strip "network"))
    with (Some "allow_network_access") by (vm_compute; reflexivity).
  cbn [security_manager disk]. unfold Security.update_privacy_settings.
  rewrite Hw. cbn. split; [reflexivity|].
  eexists. split; [reflexivity|]. split; reflexivity.
Qed.

(** The body of the enabling handler on a name outside the lookup table:
    the valid names are listed and nothing changes. *)
Lemma enable_body_unknown t kwargs st sm c r :
  security_manager st = Some sm ->
  setting_map !! lower (strip (String c r)) = None ->
  _handle_enable_privacy_setting t (Some (String c r)) kwargs st
  = ([Speak (unfamiliar (lower (strip (String c r))))], st, Returned tt).
Proof.
  intros Hsm Hmap.
  unfold _handle_enable_privacy_setting, try_except, bind, get_state.
  cbn [fst snd]. rewrite Hsm, Hmap. reflexivity.
Qed.

End HandlerFacts.

(** C8. A command that reaches the command handler and contains an entry
    of the deny-list, compared in lower case, is refused: with a system
    handler in place the one line spoken is the refusal, and in every case
    the trace holds no call of [execute_command]. *)
Theorem C8_denylisted_command_is_refused
    (env : Processor.Env) (st : Processor.State) (command_text : string)
    (args : list (option string)) (kwargs : list (string * option string))
    (command dc : string) :
  Processor.named_or_first (Processor.kw_get "command" kwargs) args
    = Some command ->
  dc ∈ Processor.dangerous_commands ->
  PyStr.contains dc (PyStr.lower command) = true ->
  Processor._execute_command env command_text args kwargs st
  = ([Processor.Speak (if Processor.system_handler_ok st
                       then Processor.refusal
                       else Processor.system_unavailable)],
     st, PyExc.Returned tt)
  /\ Forall (fun e => ~ Processor.is_execute_command e)
       (Processor.trace_of
          (Processor._execute_command env command_text args kwargs st)).
Proof.
  intros Hcmd Hin Hc.
  assert (E : Processor._execute_command env command_text args kwargs st
              = ([Processor.Speak (if Processor.system_handler_ok st
                                   then Processor.refusal
                                   else Processor.system_unavailable)],
                 st, PyExc.Returned tt)).
  { unfold Processor._execute_command, Processor.bind, Processor.get_state.
    cbn [fst snd]. destruct (Processor.system_handler_ok st); [|reflexivity].
    cbn [negb]. rewrite Hcmd.
    destruct command as [|c r].
    { destruct (dangerous_commands_trimmed dc Hin) as (Hne & _).
      destruct dc; [congruence|discriminate]. }
    unfold Processor.try_except.
    rewrite (dangerous_after_strip dc (String c r) Hin Hc). reflexivity. }
  split; [exact E|]. rewrite E. unfold Processor.trace_of. simpl.
  repeat constructor. simpl. tauto.
Qed.

Lemma C8_denylisted_command_witness :
  Processor._execute_command Sample.quiet_env "execute command sudo RM -RF /"
    [None; Some "sudo RM -RF /"] [("command", Some "sudo RM -RF /")]
    Sample.started
  = ([Processor.Speak Processor.refusal], Sample.started, PyExc.Returned tt).
Proof.
  apply (C8_denylisted_command_is_refused Sample.quiet_env Sample.started
           "execute command sudo RM -RF /"
           [None; Some "sudo RM -RF /"] [("command", Some "sudo RM -RF /")]
           "sudo RM -RF /" "rm -rf").
  - reflexivity.
  - vm_compute. left.
  - reflexivity.
Defined.

(** C2. With a system handler in place and a non-empty path, the two
    deleting handlers speak the confirmation question and go straight on
    to [delete_item]: the confirmation is the constant [true]. With a
    security manager in place the handler that clears the data speaks its
    question and goes straight on to [clear_all_data], after which secure
    storage is empty. On no input does any of the three handlers ask the
    speech-to-text collaborator for an answer. *)
Theorem C2_confirmation_is_a_constant
    (env : Processor.Env) (st : Processor.State) (command_text : string)
    (args : list (option string)) (kwargs : list (string * option string)) :
  (forall c r,
     Processor.system_handler_ok st = true ->
     Processor.named_or_first (Processor.kw_get "path" kwargs) args
       = Some (String c r) ->
     exists rest,
       Processor.trace_of
         (Processor._delete_item env command_text args kwargs st)
       = Processor.Speak ("Are you sure you want to delete "
                          ++ PyStr.strip (String c r)
                          ++ "? Please confirm by saying yes or no.")
         :: Processor.Speak ("Deleting " ++ PyStr.strip (String c r) ++ ".")
         :: Processor.DeleteItem (PyStr.strip (String c r)) :: rest)
  /\ (forall c r,
     Processor.system_handler_ok st = true ->
     Processor.named_or_first (Processor.kw_get "dir_path" kwargs) args
       = Some (String c r) ->
     exists rest,
       Processor.trace_of
         (Processor._delete_directory env command_text args kwargs st)
       = Processor.Speak ("Are you sure you want to delete the directory "
                          ++ PyStr.strip (String c r)
                          ++ "? This cannot be undone. Please confirm yes or no.")
         :: Processor.Speak ("Deleting directory "
                             ++ PyStr.strip (String c r) ++ ".")
         :: Processor.DeleteItem (PyStr.strip (String c r)) :: rest)
  /\ (forall sm,
     Processor.security_manager st = Some sm ->
     (exists rest,
        Processor.trace_of
          (Processor._handle_clear_data command_text kwargs st)
        = Processor.Speak "Are you sure you want to clear all your stored data? This cannot be undone. Please say yes or no."
          :: Processor.ClearAllData :: rest)
     /\ exists sm1,
          Processor.security_manager
            (Processor.state_of
               (Processor._handle_clear_data command_text kwargs st))
          = Some sm1
          /\ Security.secure_storage sm1 = ∅)
  /\ (Processor.Listen ∉
        Processor.trace_of
          (Processor._delete_item env command_text args kwargs st))
  /\ (Processor.Listen ∉
        Processor.trace_of
          (Processor._delete_directory env command_text args kwargs st))
  /\ (Processor.Listen ∉
        Processor.trace_of
          (Processor._handle_clear_data command_text kwargs st)).
Proof.
  split; [|split; [|split; [|split; [|split]]]].
  - intros c r Hok Hpath.
    unfold Processor._delete_item, Processor.bind, Processor.get_state,
      Processor.try_except, Processor.speak, Processor.emit, Processor.lift,
      Processor.trace_of.
    cbn [fst snd]. rewrite Hok, Hpath. cbn [negb].
    destruct (Processor.delete_item env (PyStr.strip (String c r)))
      as [[]|e]; cbn [fst snd app]; try (eexists; reflexivity).
    destruct (PyExc.is_Exception e); eexists; reflexivity.
  - intros c r Hok Hpath.
    unfold Processor._delete_directory, Processor.bind, Processor.get_state,
      Processor.try_except, Processor.speak, Processor.emit, Processor.lift,
      Processor.trace_of.
    cbn [fst snd]. rewrite Hok, Hpath. cbn [negb].
    destruct (Processor.delete_item env (PyStr.strip (String c r)))
      as [[]|e]; cbn [fst snd app]; try (eexists; reflexivity).
    destruct (PyExc.is_Exception e); eexists; reflexivity.
  - intros sm Hsm. destruct st as [ok osm d]. simpl in Hsm. subst osm.
    split.
    { unfold Processor._handle_clear_data, Processor.call_clear_all_data,
        Processor.bind, Processor.get_state, Processor.try_except,
        Processor.speak, Processor.emit, Processor.put_state, Processor.ret,
        Processor.trace_of.
      cbn [fst snd app Processor.security_manager Processor.disk].
      destruct (Security.clear_all_data sm d)
        as [[[] sm1] d1]; eexists; reflexivity. }
    unfold Processor._handle_clear_data, Processor.call_clear_all_data,
      Processor.bind, Processor.get_state, Processor.try_except,
      Processor.speak, Processor.emit, Processor.put_state, Processor.ret,
      Processor.state_of.
    cbn [fst snd app Processor.security_manager Processor.disk].
    unfold Security.clear_all_data.
    destruct (Security._save_secure_storage _ _ _) as [saved d1].
    destruct (Security._load_privacy_settings _ _) as [ps d2].
    cbn. eexists. split; reflexivity.
  - apply listen_body. rewrite run_body_delete_item. apply run_body_silent.
  - apply listen_body. rewrite run_body_delete_directory.
    apply run_body_silent.
  - apply listen_body. rewrite (run_body_clear_data env).
    apply run_body_silent.
Qed.

Lemma C2_confirmation_witness :
  (exists rest,
     Processor.trace_of
       (Processor._delete_item Sample.quiet_env "delete file  notes.txt"
          [None; Some " file"; Some " notes.txt"]
          [("path", Some " notes.txt")] Sample.started)
     = Processor.Speak "Are you sure you want to delete notes.txt? Please confirm by saying yes or no."
       :: Processor.Speak "Deleting notes.txt."
       :: Processor.DeleteItem "notes.txt" :: rest)
  /\ (exists rest,
     Processor.trace_of
       (Processor._delete_directory Sample.quiet_env "delete folder old"
          [None; Some "old"] [("dir_path", Some "old")] Sample.started)
     = Processor.Speak "Are you sure you want to delete the directory old? This cannot be undone. Please confirm yes or no."
       :: Processor.Speak "Deleting directory old."
       :: Processor.DeleteItem "old" :: rest)
  /\ (exists rest,
     Processor.trace_of
       (Processor._handle_clear_data "clear all data" [] Sample.started)
     = Processor.Speak "Are you sure you want to clear all your stored data? This cannot be undone. Please say yes or no."
       :: Processor.ClearAllData :: rest).
Proof.
  split; [|split].
  - destruct (C2_confirmation_is_a_constant Sample.quiet_env Sample.started
                "delete file  notes.txt"
                [None; Some " file"; Some " notes.txt"]
                [("path", Some " notes.txt")]) as [H _].
    exact (H " "%char "notes.txt" eq_refl eq_refl).
  - destruct (C2_confirmation_is_a_constant Sample.quiet_env Sample.started
                "delete folder old" [None; Some "old"]
                [("dir_path", Some "old")]) as (_ & H & _).
    exact (H "o"%char "ld" eq_refl eq_refl).
  - destruct (C2_confirmation_is_a_constant Sample.quiet_env Sample.started
                "clear all data" [] []) as (_ & _ & H & _).
    exact (proj1 (H Sample.manager eq_refl)).
Defined.
(** ** Path resolution *)

Section PathFacts.
Import PyStr PurePath SystemOps.


(** The last branch of [_resolve_path], for a text that is none of the
    special ones and does not parse to an absolute path. *)
Lemma resolve_under_cwd self cwd s :
  startswith "~" s = false ->
  startswith "desktop" (lower s) = false ->
  startswith "documents" (lower s) = false ->
  startswith "downloads" (lower s) = false ->
  is_absolute (parse s) = false ->
  _resolve_path self cwd s
  = join_parsed_parts cwd (parse_parts (parts (parse s))).
Proof.
  intros H1 H2 H3 H4 H5. unfold _resolve_path.
  rewrite H1, H2, H3, H4. cbv zeta. rewrite H5. reflexivity.
Qed.

(** A drive without a root, on another drive than the left operand's:
    the right operand is the result. *)
Lemma join_other_drive p q :
  root q = "" -> drv q <> "" -> lower (drv q) <> lower (drv p) ->
  join_parsed_parts p q = q.
Proof.
  intros Hr Hd Hne. unfold join_parsed_parts. rewrite Hr.
  destruct (drv q) as [|c d] eqn:E; [congruence|].
  rewrite bool_decide_eq_false_2 by (intros H; apply Hne; rewrite H; reflexivity).
  rewrite bool_decide_eq_false_2 by exact Hne. reflexivity.
Qed.

(** A root without a drive takes the drive of the left operand. *)
Lemma join_rooted p q :
  root q <> "" -> drv q = "" -> drv p <> "" ->
  join_parsed_parts p q
  = {| drv := drv p; root := root q;
       parts := (drv p ++ root q)%string :: tail (parts q) |}.
Proof.
  intros Hr Hd Hp. unfold join_parsed_parts. rewrite Hd.
  destruct (root q); [congruence|]. destruct (drv p); [congruence|].
  reflexivity.
Qed.

(** A drive and a root replace the left operand. *)
Lemma join_anchored p q :
  root q <> "" -> drv q <> "" -> join_parsed_parts p q = q.
Proof.
  intros Hr Hd. unfold join_parsed_parts.
  destruct (root q); [congruence|]. destruct (drv q); [congruence|].
  reflexivity.
Qed.


End PathFacts.

(** C9, as the code has it on Windows, the one system it loads on. The
    result of [_resolve_path] is not always absolute: "D:notes.txt" names
    a file relative to the current directory of drive D, it is no absolute
    path, and joined to a working directory on another drive it comes back
    as it is. Nor are the other inputs anchored as the docstring has it:
    "/etc/passwd" has a root and no drive, so it lands at the root of the
    drive of the working directory and not under the working directory;
    and what follows "desktop" replaces the Desktop directory when it has
    a drive and a root of its own. *)
Theorem C9_resolve_path_drive_relative
    (self : SystemOps.SystemHandler) (cwd : PurePath.path) :
  PurePath.drv cwd <> "" ->
  PyStr.lower (PurePath.drv cwd) <> "d:" ->
  (SystemOps._resolve_path self cwd "D:notes.txt"
   = {| PurePath.drv := "D:"; PurePath.root := "";
        PurePath.parts := ["D:"; "notes.txt"] |}
   /\ PurePath.is_absolute (SystemOps._resolve_path self cwd "D:notes.txt")
      = false
   /\ PurePath.to_str (SystemOps._resolve_path self cwd "D:notes.txt")
      = "D:notes.txt")
  /\ SystemOps._resolve_path self cwd "/etc/passwd"
     = {| PurePath.drv := PurePath.drv cwd; PurePath.root := "\";
          PurePath.parts := [PurePath.drv cwd ++ "\"; "etc"; "passwd"] |}
  /\ SystemOps._resolve_path self cwd "desktop C:\foo"
     = {| PurePath.drv := "C:"; PurePath.root := "\";
          PurePath.parts := ["C:\"; "foo"] |}.
Proof.
  intros Hdrv Hother.
  assert (E1 : SystemOps._resolve_path self cwd "D:notes.txt"
               = {| PurePath.drv := "D:"; PurePath.root := "";
                    PurePath.parts := ["D:"; "notes.txt"] |}).
  { rewrite resolve_under_cwd by reflexivity.
    replace (PurePath.parse_parts (PurePath.parts (PurePath.parse "D:notes.txt")))
      with {| PurePath.drv := "D:"; PurePath.root := "";
              PurePath.parts := ["D:"; "notes.txt"] |}
      by (vm_compute; reflexivity).
    apply join_other_drive; [reflexivity|discriminate|].
    cbn [PurePath.drv]. intros H. apply Hother. rewrite <- H. reflexivity. }
  split; [|split].
  - rewrite E1. split; [reflexivity|]. split; reflexivity.
  - rewrite resolve_under_cwd by reflexivity.
    replace (PurePath.parse_parts (PurePath.parts (PurePath.parse "/etc/passwd")))
      with {| PurePath.drv := ""; PurePath.root := "\";
              PurePath.parts := ["\"; "etc"; "passwd"] |}
      by (vm_compute; reflexivity).
    rewrite join_rooted; [reflexivity|discriminate|reflexivity|exact Hdrv].
  - unfold SystemOps._resolve_path.
    replace (PyStr.startswith "~" "desktop C:\foo") with false by reflexivity.
    replace (PyStr.startswith "desktop" (PyStr.lower "desktop C:\foo"))
      with true by reflexivity.
    unfold PurePath.join_str.
    replace (PurePath.parse_parts
               [PyStr.lstrip_chars ["/"%char; "\"%char]
                  (PyStr.drop_str 8 "desktop C:\foo")])
      with {| PurePath.drv := "C:"; PurePath.root := "\";
              PurePath.parts := ["C:\"; "foo"] |}
      by (vm_compute; reflexivity).
    apply join_anchored; discriminate.
Qed.

Lemma C9_resolve_path_witness :
  PurePath.to_str
    (SystemOps._resolve_path (SystemOps.make Sample.home) Sample.cwd
       "D:notes.txt")
  = "D:notes.txt"
  /\ PurePath.is_absolute
       (SystemOps._resolve_path (SystemOps.make Sample.home) Sample.cwd
          "D:notes.txt")
     = false
  /\ PurePath.to_str
       (SystemOps._resolve_path (SystemOps.make Sample.home) Sample.cwd
          "/etc/passwd")
     = "C:\etc\passwd".
Proof.
  destruct (C9_resolve_path_drive_relative (SystemOps.make Sample.home)
              Sample.cwd) as ((_ & Habs & Hstr) & Hetc & _).
  - vm_compute. discriminate.
  - vm_compute. discriminate.
  - split; [exact Hstr|]. split; [exact Habs|]. rewrite Hetc. reflexivity.
Defined.

(** ** Secure storage *)

Section StorageFacts.
Import PyStr PyExc Security.

Lemma psize_elem_list x l : x ∈ l -> psize x < psize (PList l).
Proof.
  intros H. simpl. induction H as [x l|x y l _ IH]; simpl; lia.
Qed.

Lemma psize_elem_dict (d : gmap string pyval) k x :
  d !! k = Some x -> psize x < psize (PDict d).
Proof.
  simpl. revert k x.
  apply (map_fold_weak_ind
           (fun r (m : gmap string pyval) =>
              forall k x, m !! k = Some x -> psize x < S r)).
  - intros k x. rewrite lookup_empty. discriminate.
  - intros i y m r Hi IH k x Hk.
    destruct (decide (i = k)) as [->|Hne].
    + rewrite lookup_insert_eq in Hk. injection Hk as ->. lia.
    + rewrite lookup_insert_ne in Hk by exact Hne. specialize (IH k x Hk). lia.
Qed.

(** Induction on values, with the elements of a list and the values of a
    dictionary as premises. *)
Lemma pyval_induction (P : pyval -> Prop) :
  P PNone -> (forall b, P (PBool b)) -> (forall z, P (PInt z)) ->
  (forall s, P (PStr s)) ->
  (forall l, Forall P l -> P (PList l)) ->
  (forall l, Forall P l -> P (PTuple l)) ->
  (forall d : gmap string pyval, map_Forall (fun _ => P) d -> P (PDict d)) ->
  (forall s, P (PBytes s)) ->
  forall v, P v.
Proof.
  intros HN HB HI HS HL HT HD HY v.
  remember (psize v) as n eqn:E. revert v E.
  induction n as [n IH] using lt_wf_ind. intros v ->.
  destruct v as [| | | |l|l|d|]; auto.
  - apply HL, Forall_forall. intros x Hx.
    exact (IH _ (psize_elem_list x l Hx) x eq_refl).
  - apply HT, Forall_forall. intros x Hx.
    exact (IH _ (psize_elem_list x l Hx) x eq_refl).
  - apply HD. intros k x Hk.
    exact (IH _ (psize_elem_dict d k x Hk) x eq_refl).
Qed.

Lemma fold_andb_Forall (f : pyval -> bool) (d : gmap string pyval) :
  map_fold (fun _ x acc => f x && acc) true d = true ->
  map_Forall (fun _ x => f x = true) d.
Proof.
  apply (map_fold_weak_ind
           (fun r (m : gmap string pyval) =>
              r = true -> map_Forall (fun _ x => f x = true) m)).
  - intros _. apply map_Forall_empty.
  - intros i x m r Hi IH [Hx Hr]%andb_true_iff.
    apply map_Forall_insert_2; auto.
Qed.

(** Reading back what was written gives the same value, for the values
    JSON represents as they are. *)
Lemma json_loads_encode v : json_exact v = true -> json_loads (encode v) = v.
Proof.
  induction v as [| | | |l IH|l IH|d IH|] using pyval_induction;
    simpl; try reflexivity; try discriminate.
  - intros Hl. f_equal. rewrite map_map.
    rewrite forallb_forall in Hl. rewrite Forall_forall in IH.
    rewrite <- (map_id l) at 2. apply map_ext_in. intros x Hx.
    apply IH; [apply list_elem_of_In; exact Hx|apply Hl; exact Hx].
  - intros Hd%fold_andb_Forall. f_equal.
    rewrite <- map_fmap_compose. apply map_eq. intros k.
    rewrite lookup_fmap. destruct (d !! k) as [x|] eqn:E; [|reflexivity].
    simpl. f_equal. apply (IH k x E). exact (Hd k x E).
Qed.

Lemma load_privacy_keeps_secure_file home d :
  secure_storage_file (_load_privacy_settings home d).2 = secure_storage_file d.
Proof.
  unfold _load_privacy_settings.
  destruct (privacy_file d) as [[settings|]|]; cbn;
    repeat (match goal with |- context [if ?b then _ else _] => destruct b end);
    reflexivity.
Qed.

(** What a restart reads from a data directory whose key file and
    encrypted file were written under the same key. *)
Lemma init_reads_token home fresh temp d key doc :
  key_file d = Some key ->
  secure_storage_file d = Some (Token key doc) ->
  secure_storage (init home fresh temp d).1 = json_loads <$> doc.
Proof.
  intros Hk Hf. unfold init, _initialize_encryption. rewrite Hk.
  pose proof (load_privacy_keeps_secure_file home d) as Hp.
  destruct (_load_privacy_settings home d) as [privacy d2]. simpl in Hp.
  unfold _load_secure_storage. rewrite Hp, Hf. simpl.
  rewrite bool_decide_eq_true_2 by reflexivity. reflexivity.
Qed.

Lemma store_outcome key data sm d :
  store_secure_data key data sm d
  = (let '(ok, d1) := _save_secure_storage (cipher_suite sm)
                        (<[key := data]> (secure_storage sm)) d in
     (ok, set_secure_storage (<[key := data]> (secure_storage sm)) sm, d1)).
Proof. reflexivity. Qed.

Lemma save_true key data d d1 :
  _save_secure_storage key data d = (true, d1) ->
  d1 = set_secure_file (Token key (encode <$> data)) d.
Proof.
  unfold _save_secure_storage.
  destruct (json_dumps (PDict data)); [|discriminate].
  destruct (writable d); [|discriminate]. intros [= <-]. reflexivity.
Qed.

End StorageFacts.

(** C6, as the code has it. In the running process [get_secure_data]
    returns what [store_secure_data] stored under the key, for every
    value. After a restart that reads the key file and the encrypted file
    the store left behind, it returns the value again when the store
    reported success and the value is one JSON represents as it is (made
    of [None], booleans, integers, strings, lists and dictionaries with
    string keys). *)
Theorem C6_secure_storage_round_trip
    (key : string) (data default : Security.pyval)
    (sm : Security.SecurityManager) (d : Security.Disk)
    (fresh temp : Security.fernet_key) :
  Security.get_secure_data key default
    (Security.store_secure_data key data sm d).1.2 = data
  /\ (Security.json_exact data = true ->
      (Security.store_secure_data key data sm d).1.1 = true ->
      Security.key_file d = Some (Security.cipher_suite sm) ->
      Security.get_secure_data key default
        (Security.init (Security.user_home sm) fresh temp
           (Security.store_secure_data key data sm d).2).1
      = data).
Proof.
  rewrite store_outcome.
  destruct (Security._save_secure_storage (Security.cipher_suite sm)
              (<[key:=data]> (Security.secure_storage sm)) d)
    as [ok d1] eqn:Hsave.
  cbn [fst snd]. split.
  - unfold Security.get_secure_data. cbn.
    rewrite lookup_insert_eq. reflexivity.
  - intros Hexact -> Hkey. apply save_true in Hsave. subst d1.
    unfold Security.get_secure_data.
    rewrite (init_reads_token _ _ _ _ (Security.cipher_suite sm)
               (Security.encode <$> <[key:=data]> (Security.secure_storage sm)));
      [|exact Hkey|reflexivity].
    rewrite !lookup_fmap, lookup_insert_eq. simpl.
    rewrite json_loads_encode by exact Hexact. reflexivity.
Qed.

Lemma C6_round_trip_witness :
  Security.get_secure_data "user"
    Security.PNone
    (Security.init Sample.home 7 8
       (Security.store_secure_data "user"
          (Security.PList [Security.PStr "tony"; Security.PInt 42])
          Sample.manager Sample.data_dir).2).1
  = Security.PList [Security.PStr "tony"; Security.PInt 42].
Proof.
  apply (C6_secure_storage_round_trip "user"
           (Security.PList [Security.PStr "tony"; Security.PInt 42])
           Security.PNone Sample.manager Sample.data_dir 7 8).
  - reflexivity.
  - vm_compute. reflexivity.
  - vm_compute. reflexivity.
Defined.

(** C6 as stated fails on a tuple: [json.dumps] accepts it and the store
    reports success, and after a restart with the same key the value read
    back is a list. *)
Lemma C6_tuple_counterexample :
  Security.serializable Sample.pair = true
  /\ Sample.stored_pair.1.1 = true
  /\ Security.cipher_suite Sample.restarted_pair
     = Security.cipher_suite Sample.manager
  /\ Security.get_secure_data "pair" Security.PNone Sample.restarted_pair
     = Security.PList [Security.PInt 1; Security.PInt 2]
  /\ Security.get_secure_data "pair" Security.PNone Sample.restarted_pair
     <> Sample.pair.
Proof.
  repeat split; try (vm_compute; reflexivity).
  vm_compute. discriminate.
Qed.

(** ** The access log *)

Section AccessLogFacts.
Import PyStr PyExc Security.

Lemma last_n_length {A} n (l : list A) :
  length (last_n n l) = Nat.min n (length l).
Proof. unfold last_n. rewrite length_drop. lia. Qed.

Lemma last_n_suffix {A} n (l : list A) :
  l = (take (length l - n) l ++ last_n n l)%list.
Proof. unfold last_n. rewrite take_drop. reflexivity. Qed.

Lemma last_n_all {A} n (l : list A) : length l <= n -> last_n n l = l.
Proof.
  intros H. unfold last_n. replace (length l - n) with 0 by lia. reflexivity.
Qed.

(** What [log_data_access] leaves under the key of the log, when the value
    found there is a list or the key is free. *)
Lemma log_data_access_result now data_type description sm d old :
  get_secure_data "access_log" (PList []) sm = PList old ->
  let r := log_data_access now data_type description sm d in
  r.1.1 = Returned tt
  /\ secure_storage r.1.2 !! "access_log"
     = Some (PList (last_n 1000
                      (old ++ [access_entry now data_type description])%list)).
Proof.
  intros Hget r. subst r. unfold log_data_access. rewrite Hget.
  set (entry := access_entry now data_type description).
  set (sm1 := match secure_storage sm !! "access_log" with
              | Some _ => _
              | None => sm
              end).
  rewrite store_outcome.
  destruct (_save_secure_storage _ _ d) as [ok d1]. cbn [fst snd].
  split; [reflexivity|]. cbn [secure_storage set_secure_storage].
  rewrite lookup_insert_eq. f_equal. f_equal.
  destruct (1000 <? length (old ++ [entry])%list)%nat eqn:E; [reflexivity|].
  apply Nat.ltb_ge in E. symmetry. apply last_n_all. exact E.
Qed.

End AccessLogFacts.

(** C10. After a call of [log_data_access] that found a list under the key
    of the log (or found the key free), the list held there has at most
    1000 entries: it is the old list with the new entry appended, cut down
    to its last 1000 entries, so what is kept are the most recent entries
    in their order. *)
Theorem C10_access_log_bounded
    (now data_type description : string)
    (sm : Security.SecurityManager) (d : Security.Disk)
    (old : list Security.pyval) :
  Security.get_secure_data "access_log" (Security.PList []) sm
    = Security.PList old ->
  exists kept dropped,
    Security.get_secure_data "access_log" (Security.PList [])
      (Security.log_data_access now data_type description sm d).1.2
    = Security.PList kept
    /\ length kept <= 1000
    /\ length kept = Nat.min 1000 (S (length old))
    /\ (old ++ [Security.access_entry now data_type description])%list
       = (dropped ++ kept)%list.
Proof.
  intros Hget.
  destruct (log_data_access_result now data_type description sm d old Hget)
    as [_ Hlog].
  set (l := (old ++ [Security.access_entry now data_type description])%list)
    in *.
  exists (Security.last_n 1000 l), (take (length l - 1000) l).
  unfold Security.get_secure_data at 1. rewrite Hlog.
  assert (Hl : length l = S (length old))
    by (subst l; rewrite length_app; simpl; lia).
  pose proof (last_n_length 1000 l) as Hk. rewrite Hl in Hk.
  split; [reflexivity|]. split; [lia|]. split; [exact Hk|].
  apply last_n_suffix.
Qed.

Lemma C10_access_log_witness :
  exists kept dropped,
    Security.get_secure_data "access_log" (Security.PList [])
      (Security.log_data_access "2024-05-01T10:00:00" "system_info"
         "read cpu details" Sample.full_manager Sample.data_dir).1.2
    = Security.PList kept
    /\ length Sample.full_log = 1000
    /\ length kept = 1000
    /\ dropped = [Sample.oldest_entry]
    /\ kept = (replicate 999 Sample.later_entry
               ++ [Security.access_entry "2024-05-01T10:00:00" "system_info"
                     "read cpu details"])%list.
Proof.
  destruct (C10_access_log_bounded "2024-05-01T10:00:00" "system_info"
              "read cpu details" Sample.full_manager Sample.data_dir
              Sample.full_log)
    as (kept & dropped & Hget & Hle & Hlen & Happ).
  - reflexivity.
  - assert (Hfull : length Sample.full_log = 1000).
    { unfold Sample.full_log. cbn [length]. rewrite length_replicate.
      reflexivity. }
    assert (Hk : length kept = 1000) by (rewrite Hlen, Hfull; reflexivity).
    assert (Hd : length dropped = 1).
    { apply (f_equal length) in Happ. rewrite !length_app, Hfull in Happ.
      cbn [length] in Happ. lia. }
    destruct dropped as [|x [|y dropped]]; try discriminate Hd.
    unfold Sample.full_log in Happ. cbn [app] in Happ.
    injection Happ as Hx Hkept.
    exists kept, [x]. subst x kept.
    split; [exact Hget|]. split; [exact Hfull|]. split; [exact Hk|].
    split; reflexivity.
Defined.

(** ** Runs of the dispatcher on sample commands *)

(** "execute command rm -rf /" reaches the command handler, whose
    deny-list refuses it. *)
Example execute_command_rm_rf_refused :
  Processor.process_command Sample.quiet_env "execute command rm -rf /"
    Sample.started
  = ([Processor.Invoke Processor.h_execute_command
        [None; Some "rm -rf /"] [("command", Some "rm -rf /")];
      Processor.Speak Processor.refusal],
     Sample.started, PyExc.Returned tt).
Proof. vm_compute. reflexivity. Qed.

(** The rule for "run <application>" stands before the rule for "run
    command <command>" in the table, and matches whatever the latter
    matches on one line of text. *)
Example run_rules_order :
  Processor.commands !! 27
  = Some ("run (?P<app_name>.+?)(\s+with\s+(?P<args>.+))?$",
          Processor.h_open_application)
  /\ Processor.commands !! 41
     = Some ("run( the)? command (?P<command>.+)",
             Processor.h_execute_command).
Proof. split; reflexivity. Qed.

(** "delete file  notes.txt" deletes without waiting for an answer. *)
Example delete_file_dispatch :
  Processor.trace_of
    (Processor.process_command Sample.quiet_env "delete file  notes.txt"
       Sample.started)
  = [Processor.Invoke Processor.h_delete_item
       [None; Some " file"; Some " notes.txt"] [("path", Some " notes.txt")];
     Processor.Speak "Are you sure you want to delete notes.txt? Please confirm by saying yes or no.";
     Processor.Speak "Deleting notes.txt.";
     Processor.DeleteItem "notes.txt";
     Processor.Speak "I couldn't delete notes.txt. Please check that the path exists and try again."].
Proof. vm_compute. reflexivity. Qed.

(** The time handler takes no positional argument besides the text, and
    its rule has a group: the call fails before the body runs. *)
Example what_time_is_it :
  Processor.bind_call (Processor.signature_of Processor.h_get_time_date)
    [Some "time"] []
  = PyExc.Raised (PyExc.TypeError "too many positional arguments").
Proof. reflexivity. Qed.

(** A log of 1000 entries stays at 1000 entries: the oldest one goes. *)
Example access_log_full :
  Security.get_secure_data "access_log" (Security.PList [])
    (Security.log_data_access "now" "kind" "what"
       (Security.set_secure_storage
          {[ "access_log" :=
               Security.PList (Security.PStr "oldest"
                               :: replicate 999 Security.PNone) ]}
          Sample.manager)
       Sample.data_dir).1.2
  = Security.PList (replicate 999 Security.PNone
                    ++ [Security.access_entry "now" "kind" "what"])%list.
Proof. vm_compute. reflexivity. Qed.

(** ** The security manager: settings *)

Section SettingsFacts.
Import PyStr PyExc Security SecurityMore.

Lemma update_unfold settings sm d :
  update_privacy_settings settings sm d
  = if writable d
    then (true,
          set_privacy_settings
            (foldl settings_step (privacy_settings sm) settings) sm,
          set_privacy_file
            (foldl settings_step (privacy_settings sm) settings) d)
    else (false, sm, d).
Proof. reflexivity. Qed.

Lemma fold_settings_other settings acc k :
  k ∉ valid_keys \/ k ∉ settings.*1 ->
  foldl settings_step acc settings !! k = acc !! k.
Proof.
  revert acc. induction settings as [|[k' v'] rest IH]; intros acc Hk;
    [reflexivity|].
  cbn [foldl]. rewrite IH.
  - unfold settings_step. case_bool_decide as Hv; [|reflexivity].
    apply lookup_insert_ne. intros ->. destruct Hk as [Hk|Hk]; [tauto|].
    apply Hk. cbn. left.
  - destruct Hk as [Hk|Hk]; [left; exact Hk|right].
    intros Hin. apply Hk. cbn. right. exact Hin.
Qed.

Lemma fold_settings_set settings acc k v :
  NoDup settings.*1 -> (k, v) ∈ settings -> k ∈ valid_keys ->
  foldl settings_step acc settings !! k = Some v.
Proof.
  revert acc. induction settings as [|[k' v'] rest IH]; intros acc Hnd Hin Hv.
  { inversion Hin. }
  cbn in Hnd. apply NoDup_cons in Hnd as [Hfresh Hnd]. cbn [foldl].
  apply elem_of_cons in Hin as [[= <- <-]|Hin].
  - rewrite fold_settings_other by (right; exact Hfresh).
    unfold settings_step. rewrite bool_decide_eq_true_2 by exact Hv.
    apply lookup_insert_eq.
  - apply IH; assumption.
Qed.


Lemma union_defaults_id (s defaults : gmap string setting) :
  dom defaults ⊆ dom s -> s ∪ defaults = s.
Proof.
  intros Hsub. apply map_eq. intros k. rewrite lookup_union.
  destruct (s !! k) as [v|] eqn:Es; [destruct (defaults !! k); reflexivity|].
  destruct (defaults !! k) as [w|] eqn:Ed; [|reflexivity].
  exfalso. apply not_elem_of_dom in Es. apply Es, Hsub.
  apply elem_of_dom. eauto.
Qed.

(** What [_load_privacy_settings] returns always has every default key;
    when the directory is writable, the file holds it afterwards. *)
Lemma load_privacy_complete home d :
  dom (default_settings home) ⊆ dom (_load_privacy_settings home d).1.
Proof.
  unfold _load_privacy_settings.
  destruct (privacy_file d) as [[s|]|]; cbn [fst snd].
  - case_bool_decide as Hsub; cbn [negb fst snd].
    + rewrite dom_union. apply union_subseteq_r.
    + destruct (writable d); cbn [fst snd];
        [rewrite dom_union; apply union_subseteq_r|reflexivity].
  - destruct (writable d); reflexivity.
  - destruct (writable d); reflexivity.
Qed.

Lemma load_privacy_mirrors home d :
  writable d = true ->
  privacy_file (_load_privacy_settings home d).2
  = Some (Some (_load_privacy_settings home d).1).
Proof.
  intros Hw. unfold _load_privacy_settings. rewrite Hw.
  destruct (privacy_file d) as [[s|]|] eqn:E; cbn [fst snd];
    try reflexivity.
  case_bool_decide as Hsub; cbn [negb fst snd]; [|reflexivity].
  rewrite E, (union_defaults_id _ _ Hsub). reflexivity.
Qed.


Lemma load_privacy_keeps_storage_file home d :
  secure_storage_file (_load_privacy_settings home d).2
  = secure_storage_file d
  /\ key_file (_load_privacy_settings home d).2 = key_file d
  /\ writable (_load_privacy_settings home d).2 = writable d.
Proof.
  unfold _load_privacy_settings.
  destruct (privacy_file d) as [[s|]|]; [destruct (negb _)|..];
    try (destruct (writable d) eqn:E); cbn [fst snd]; auto.
Qed.

Lemma save_keeps_privacy key data d :
  privacy_file (_save_secure_storage key data d).2 = privacy_file d
  /\ key_file (_save_secure_storage key data d).2 = key_file d
  /\ writable (_save_secure_storage key data d).2 = writable d.
Proof.
  unfold _save_secure_storage.
  destruct (json_dumps (PDict data)); [|auto].
  destruct (writable d) eqn:E; cbn; auto.
Qed.

End SettingsFacts.

(** X1. [update_privacy_settings] touches only keys of its fixed list:
    every other key of the argument is dropped and keeps its old value (or
    stays absent). On a directory that cannot be written the call reports
    failure and neither memory nor file changes; otherwise each listed key
    of the argument takes its new value and the file holds exactly the
    settings in memory. *)
Theorem X1_update_privacy_settings
    (settings : list (string * Security.setting))
    (sm : Security.SecurityManager) (d : Security.Disk) :
  (forall k, k ∉ Security.valid_keys \/ k ∉ settings.*1 ->
     Security.privacy_settings
       (Security.update_privacy_settings settings sm d).1.2 !! k
     = Security.privacy_settings sm !! k)
  /\ (Security.writable d = false ->
      Security.update_privacy_settings settings sm d = (false, sm, d))
  /\ (Security.writable d = true ->
      (Security.update_privacy_settings settings sm d).1.1 = true
      /\ Security.privacy_file
           (Security.update_privacy_settings settings sm d).2
         = Some (Some (Security.privacy_settings
                         (Security.update_privacy_settings settings sm d).1.2))
      /\ forall k v,
           NoDup settings.*1 -> (k, v) ∈ settings ->
           k ∈ Security.valid_keys ->
           Security.privacy_settings
             (Security.update_privacy_settings settings sm d).1.2 !! k
           = Some v).
Proof.
  rewrite update_unfold. split; [|split].
  - intros k Hk. destruct (Security.writable d); [|reflexivity].
    cbn. apply fold_settings_other. exact Hk.
  - intros ->. reflexivity.
  - intros ->. cbn. split; [reflexivity|]. split; [reflexivity|].
    intros k v Hnd Hin Hv. apply fold_settings_set; assumption.
Qed.

Lemma X1_update_privacy_settings_witness :
  Security.privacy_settings
    (Security.update_privacy_settings
       [("collect_usage_data", Security.SBool false);
        ("telemetry", Security.SBool true)]
       Sample.manager Sample.data_dir).1.2 !! "collect_usage_data"
  = Some (Security.SBool false)
  /\ Security.privacy_settings
       (Security.update_privacy_settings
          [("collect_usage_data", Security.SBool false);
           ("telemetry", Security.SBool true)]
          Sample.manager Sample.data_dir).1.2 !! "telemetry"
     = None.
Proof.
  destruct (X1_update_privacy_settings
              [("collect_usage_data", Security.SBool false);
               ("telemetry", Security.SBool true)]
              Sample.manager Sample.data_dir) as (Hother & _ & Hok).
  split.
  - destruct (Hok eq_refl) as (_ & _ & Hset).
    apply Hset.
    + apply (bool_decide_unpack _). vm_compute. exact I.
    + left.
    + apply (bool_decide_unpack _). vm_compute. exact I.
  - rewrite Hother; [vm_compute; reflexivity|].
    left. apply (bool_decide_unpack _). vm_compute. exact I.
Defined.

(** ** The security manager: start, restart and the mirror on disk *)

Section StartFacts.
Import PyStr PyExc Security SecurityMore.

Lemma init_unfold home fresh temp d :
  init home fresh temp d
  = (let kd := _initialize_encryption fresh temp d in
     let pd := _load_privacy_settings home kd.2 in
     let sd := _load_secure_storage kd.1 pd.2 in
     ({| user_home := home; cipher_suite := kd.1;
         privacy_settings := pd.1; secure_storage := sd.1 |}, sd.2)).
Proof.
  unfold init. destruct (_initialize_encryption fresh temp d) as [key d1].
  cbv zeta. cbn [fst snd].
  destruct (_load_privacy_settings home d1) as [privacy d2]. cbn [fst snd].
  destruct (_load_secure_storage key d2) as [storage d3]. reflexivity.
Qed.

Lemma load_storage_keeps_privacy key d :
  privacy_file (_load_secure_storage key d).2 = privacy_file d
  /\ key_file (_load_secure_storage key d).2 = key_file d
  /\ writable (_load_secure_storage key d).2 = writable d.
Proof.
  unfold _load_secure_storage.
  destruct (secure_storage_file d) as [b|]; [destruct (decrypt key b)|];
    cbn [fst snd]; auto using save_keeps_privacy.
Qed.

Lemma initialize_keeps fresh temp d :
  privacy_file (_initialize_encryption fresh temp d).2 = privacy_file d
  /\ secure_storage_file (_initialize_encryption fresh temp d).2
     = secure_storage_file d
  /\ writable (_initialize_encryption fresh temp d).2 = writable d.
Proof.
  unfold _initialize_encryption.
  destruct (key_file d); [auto|]. destruct (writable d) eqn:E; cbn; auto.
Qed.





End StartFacts.



(** X3. The settings a start loads always have every default key. A value
    found in a well-formed settings file is kept when the file is complete
    or can be rewritten; when the file lacks a default key and cannot be
    rewritten, the failed write ends in the outer handler and the plain
    defaults are returned, the values of the file being dropped. *)
Theorem X3_loaded_settings (home : PurePath.path) (d : Security.Disk) :
  dom (Security.default_settings home)
    ⊆ dom (Security._load_privacy_settings home d).1
  /\ (forall s k v,
        Security.privacy_file d = Some (Some s) -> s !! k = Some v ->
        Security.writable d = true
        \/ dom (Security.default_settings home) ⊆ dom s ->
        (Security._load_privacy_settings home d).1 !! k = Some v)
  /\ (forall s,
        Security.privacy_file d = Some (Some s) ->
        ~ dom (Security.default_settings home) ⊆ dom s ->
        Security.writable d = false ->
        Security._load_privacy_settings home d
        = (Security.default_settings home, d)).
Proof.
  split; [apply load_privacy_complete|]. split.
  - intros s k v E Hk Hor. unfold Security._load_privacy_settings. rewrite E.
    assert (Hu : (s ∪ Security.default_settings home) !! k = Some v)
      by (apply lookup_union_Some_l; exact Hk).
    case_bool_decide as Hsub; cbn [negb fst snd]; [exact Hu|].
    destruct Hor as [->|Hsub']; [exact Hu|tauto].
  - intros s E Hsub Hw. unfold Security._load_privacy_settings.
    rewrite E, Hw. rewrite bool_decide_eq_false_2 by exact Hsub. reflexivity.
Qed.

Lemma X3_loaded_settings_witness :
  (Security._load_privacy_settings Sample.home
     {| Security.key_file := None;
        Security.privacy_file :=
          Some (Some {[ "allow_network_access" := Security.SBool false ]});
        Security.secure_storage_file := None;
        Security.writable := true |}).1 !! "allow_network_access"
  = Some (Security.SBool false)
  /\ Security._load_privacy_settings Sample.home
       {| Security.key_file := None;
          Security.privacy_file :=
            Some (Some {[ "allow_network_access" := Security.SBool false ]});
          Security.secure_storage_file := None;
          Security.writable := false |}
     = (Security.default_settings Sample.home,
        {| Security.key_file := None;
           Security.privacy_file :=
             Some (Some {[ "allow_network_access" := Security.SBool false ]});
           Security.secure_storage_file := None;
           Security.writable := false |}).
Proof.
  split.
  - apply (proj1 (proj2 (X3_loaded_settings Sample.home _))
             {[ "allow_network_access" := Security.SBool false ]}).
    + reflexivity.
    + vm_compute. reflexivity.
    + left. reflexivity.
  - apply (proj2 (proj2 (X3_loaded_settings Sample.home _))
             {[ "allow_network_access" := Security.SBool false ]}).
    + reflexivity.
    + intros H. assert (Hin : "collect_usage_data"
                              ∈ dom (Security.default_settings Sample.home))
        by (apply (bool_decide_unpack _); vm_compute; exact I).
      apply H in Hin. revert Hin. apply (bool_decide_unpack _).
      vm_compute. exact I.
    + reflexivity.
Defined.



(** ** The security manager: secure storage *)

Section StorageMoreFacts.
Import PyStr PyExc Security SecurityMore.

Lemma Forall_fold_andb (f : pyval -> bool) (d : gmap string pyval) :
  map_Forall (fun _ x => f x = true) d ->
  map_fold (fun _ x acc => f x && acc) true d = true.
Proof.
  apply (map_fold_weak_ind
           (fun r (m : gmap string pyval) =>
              map_Forall (fun _ x => f x = true) m -> r = true)).
  - reflexivity.
  - intros i x m r Hi IH Hall.
    apply map_Forall_insert in Hall as [Hx Hm]; [|exact Hi].
    rewrite Hx, (IH Hm). reflexivity.
Qed.

(** [json.dumps] takes a dictionary when it takes each of its values. *)
Lemma serializable_dict (m : gmap string pyval) :
  serializable (PDict m) = true
  <-> map_Forall (fun _ x => serializable x = true) m.
Proof.
  split; [apply fold_andb_Forall|apply Forall_fold_andb].
Qed.

Lemma save_outcome key data d :
  _save_secure_storage key data d
  = if serializable (PDict data) && writable d
    then (true, set_secure_file (Token key (encode <$> data)) d)
    else (false, d).
Proof.
  unfold _save_secure_storage, json_dumps.
  destruct (serializable (PDict data)); [|reflexivity].
  destruct (writable d); reflexivity.
Qed.

Lemma clear_all_data_result sm d :
  (clear_all_data sm d).1.1 = true
  /\ privacy_settings (clear_all_data sm d).1.2 = privacy_settings sm
  /\ secure_storage (clear_all_data sm d).1.2 = ∅
  /\ (writable d = false ->
      secure_storage_file (clear_all_data sm d).2 = secure_storage_file d).
Proof.
  unfold clear_all_data.
  cbn [cipher_suite secure_storage user_home set_secure_storage].
  pose proof (save_outcome (cipher_suite sm) ∅ d) as Hs.
  destruct (_save_secure_storage (cipher_suite sm) ∅ d) as [ok d1].
  pose proof (load_privacy_keeps_storage_file (user_home sm) d1)
    as (Hl & _ & _).
  destruct (_load_privacy_settings (user_home sm) d1) as [ps d2].
  cbn in *. repeat split. intros Hw. rewrite Hw, andb_false_r in Hs.
  injection Hs as _ ->. exact Hl.
Qed.

End StorageMoreFacts.

(** X5. The handler that clears the data says that the privacy settings
    have been reset to defaults, but the settings in memory are the ones
    from before: [clear_all_data] reloads the settings and drops the
    result, and reports success in every case. Secure storage in memory is
    emptied; on a directory that cannot be written the encrypted file
    keeps the old data. *)
Theorem X5_clear_data_keeps_privacy_settings
    (command_text : string) (kwargs : list (string * option string))
    (st : Processor.State) (sm : Security.SecurityManager) :
  Processor.security_manager st = Some sm ->
  Processor.trace_of (Processor._handle_clear_data command_text kwargs st)
  = [Processor.Speak "Are you sure you want to clear all your stored data? This cannot be undone. Please say yes or no.";
     Processor.ClearAllData;
     Processor.Speak "All your stored data has been cleared, and privacy settings have been reset to defaults."]
  /\ exists sm1,
       Processor.security_manager
         (Processor.state_of
            (Processor._handle_clear_data command_text kwargs st))
       = Some sm1
       /\ Security.privacy_settings sm1 = Security.privacy_settings sm
       /\ Security.secure_storage sm1 = ∅
       /\ (Security.writable (Processor.disk st) = false ->
           Security.secure_storage_file
             (Processor.disk
                (Processor.state_of
                   (Processor._handle_clear_data command_text kwargs st)))
           = Security.secure_storage_file (Processor.disk st)).
Proof.
  intros Hsm. destruct st as [ok osm d]. simpl in Hsm. subst osm.
  unfold Processor._handle_clear_data, Processor.call_clear_all_data,
    Processor.bind, Processor.get_state, Processor.try_except,
    Processor.speak, Processor.emit, Processor.put_state, Processor.ret,
    Processor.trace_of, Processor.state_of.
  cbn [fst snd app Processor.security_manager Processor.disk].
  destruct (clear_all_data_result sm d) as (Hok & Hp & Hs & Hf).
  destruct (Security.clear_all_data sm d) as [[ok1 sm1] d1].
  cbn [fst snd] in *. subst ok1. cbn.
  split; [reflexivity|]. exists sm1. auto.
Qed.

Lemma X5_clear_data_witness :
  exists sm1,
    Processor.security_manager
      (Processor.state_of
         (Processor._handle_clear_data "clear all data" []
            {| Processor.system_handler_ok := true;
               Processor.security_manager :=
                 Some (Security.update_privacy_settings
                         [("allow_network_access", Security.SBool false)]
                         Sample.manager Sample.data_dir).1.2;
               Processor.disk :=
                 (Security.update_privacy_settings
                    [("allow_network_access", Security.SBool false)]
                    Sample.manager Sample.data_dir).2 |}))
    = Some sm1
    /\ Security.privacy_settings sm1 !! "allow_network_access"
       = Some (Security.SBool false).
Proof.
  destruct (X5_clear_data_keeps_privacy_settings "clear all data" []
              {| Processor.system_handler_ok := true;
                 Processor.security_manager :=
                   Some (Security.update_privacy_settings
                           [("allow_network_access", Security.SBool false)]
                           Sample.manager Sample.data_dir).1.2;
                 Processor.disk :=
                   (Security.update_privacy_settings
                      [("allow_network_access", Security.SBool false)]
                      Sample.manager Sample.data_dir).2 |}
              _ eq_refl) as (_ & sm1 & Hsm1 & Hp & _).
  exists sm1. split; [exact Hsm1|]. rewrite Hp. vm_compute. reflexivity.
Defined.

(** X6. [delete_secure_data]: after it, the key reads as the default and
    every other key reads as before; a key that is not stored makes it
    report success without touching memory or disk; and deleting what was
    just stored under a fresh key brings the storage in memory back. *)
Theorem X6_delete_secure_data
    (key : string) (default : Security.pyval)
    (sm : Security.SecurityManager) (d : Security.Disk) :
  Security.get_secure_data key default
    (SecurityMore.delete_secure_data key sm d).1.2 = default
  /\ (forall key', key' <> key ->
      Security.get_secure_data key' default
        (SecurityMore.delete_secure_data key sm d).1.2
      = Security.get_secure_data key' default sm)
  /\ (Security.secure_storage sm !! key = None ->
      SecurityMore.delete_secure_data key sm d = (true, sm, d)
      /\ forall data,
           Security.secure_storage
             (SecurityMore.delete_secure_data key
                (Security.store_secure_data key data sm d).1.2
                (Security.store_secure_data key data sm d).2).1.2
           = Security.secure_storage sm).
Proof.
  unfold SecurityMore.delete_secure_data, Security.get_secure_data.
  split; [|split].
  - destruct (Security.secure_storage sm !! key) eqn:E.
    + cbn [Security.cipher_suite Security.secure_storage
             Security.set_secure_storage].
      destruct (Security._save_secure_storage _ _ d) as [ok d1].
      cbn. rewrite lookup_delete_eq. reflexivity.
    + cbn. rewrite E. reflexivity.
  - intros key' Hne. destruct (Security.secure_storage sm !! key) eqn:E.
    + cbn [Security.cipher_suite Security.secure_storage
             Security.set_secure_storage].
      destruct (Security._save_secure_storage _ _ d) as [ok d1].
      cbn. rewrite lookup_delete_ne by congruence. reflexivity.
    + reflexivity.
  - intros E. rewrite E. split; [reflexivity|]. intros data.
    rewrite store_outcome.
    destruct (Security._save_secure_storage _ _ d) as [ok d1].
    cbn [fst snd Security.cipher_suite Security.secure_storage
           Security.set_secure_storage].
    rewrite lookup_insert_eq.
    destruct (Security._save_secure_storage _ _ d1) as [ok2 d2].
    cbn. rewrite delete_insert_eq. apply delete_id. exact E.
Qed.

Lemma X6_delete_secure_data_witness :
  SecurityMore.delete_secure_data "token" Sample.manager Sample.data_dir
  = (true, Sample.manager, Sample.data_dir).
Proof.
  apply (proj2 (proj2 (X6_delete_secure_data "token" Security.PNone
                         Sample.manager Sample.data_dir))).
  vm_compute. reflexivity.
Defined.

(** X7. [store_secure_data] reports success exactly when the directory
    can be written and [json.dumps] takes every value of the storage, the
    new one included. On success the encrypted file holds the whole
    storage in memory. On failure the disk is untouched while memory
    holds the new value; so one value [json.dumps] refuses makes every
    later store under another key fail too. *)
Theorem X7_store_secure_data_outcome
    (key : string) (data : Security.pyval)
    (sm : Security.SecurityManager) (d : Security.Disk) :
  ((Security.store_secure_data key data sm d).1.1 = true
   <-> Security.writable d = true
       /\ map_Forall (fun _ x => Security.serializable x = true)
            (<[key := data]> (Security.secure_storage sm)))
  /\ ((Security.store_secure_data key data sm d).1.1 = true ->
      Security.secure_storage_file (Security.store_secure_data key data sm d).2
      = Some (Security.Token (Security.cipher_suite sm)
                (Security.encode <$>
                   Security.secure_storage
                     (Security.store_secure_data key data sm d).1.2)))
  /\ ((Security.store_secure_data key data sm d).1.1 = false ->
      (Security.store_secure_data key data sm d).2 = d)
  /\ (forall key0 bad,
        Security.secure_storage sm !! key0 = Some bad ->
        Security.serializable bad = false -> key0 <> key ->
        Security.store_secure_data key data sm d
        = (false,
           Security.set_secure_storage
             (<[key := data]> (Security.secure_storage sm)) sm, d)).
Proof.
  rewrite store_outcome, save_outcome.
  destruct (Security.serializable
              (Security.PDict (<[key:=data]> (Security.secure_storage sm))))
    eqn:Hser.
  - pose proof (proj1 (serializable_dict _) Hser) as Hall.
    destruct (Security.writable d) eqn:Hw; cbn [andb fst snd].
    + split; [tauto|]. split; [reflexivity|]. split; [discriminate|].
      intros key0 bad Hk Hbad Hne. exfalso.
      assert (Security.serializable bad = true); [|congruence].
      apply (Hall key0). rewrite lookup_insert_ne by congruence. exact Hk.
    + split; [split; [discriminate|intros [? _]; discriminate]|].
      split; [discriminate|]. split; [reflexivity|].
      intros key0 bad Hk Hbad Hne. reflexivity.
  - cbn [andb fst snd].
    split.
    { split; [discriminate|]. intros [_ Hall].
      apply serializable_dict in Hall. congruence. }
    split; [discriminate|]. split; [reflexivity|]. reflexivity.
Qed.

Lemma X7_store_secure_data_witness :
  Security.store_secure_data "note" (Security.PStr "hello")
    (Security.store_secure_data "raw" (Security.PBytes "x")
       Sample.manager Sample.data_dir).1.2
    Sample.data_dir
  = (false,
     Security.set_secure_storage
       (<["note" := Security.PStr "hello"]>
          (Security.secure_storage
             (Security.store_secure_data "raw" (Security.PBytes "x")
                Sample.manager Sample.data_dir).1.2))
       (Security.store_secure_data "raw" (Security.PBytes "x")
          Sample.manager Sample.data_dir).1.2,
     Sample.data_dir).
Proof.
  apply (proj2 (proj2 (proj2
           (X7_store_secure_data_outcome "note" (Security.PStr "hello")
              (Security.store_secure_data "raw" (Security.PBytes "x")
                 Sample.manager Sample.data_dir).1.2
              Sample.data_dir))) "raw" (Security.PBytes "x")).
  - vm_compute. reflexivity.
  - reflexivity.
  - discriminate.
Defined.

(** X8. Losing the key loses the data. When the data directory has an
    encrypted file but no key file, a start on a writable directory makes
    a new key, cannot open the file with it, starts with an empty storage
    and overwrites the file with an empty one, unless the new key happens
    to be the old one. *)
Theorem X8_lost_key_wipes_storage
    (home : PurePath.path) (fresh temp old : Security.fernet_key)
    (doc : gmap string Security.json) (d : Security.Disk) :
  Security.key_file d = None ->
  Security.writable d = true ->
  Security.secure_storage_file d = Some (Security.Token old doc) ->
  fresh <> old ->
  Security.secure_storage (Security.init home fresh temp d).1 = ∅
  /\ Security.secure_storage_file (Security.init home fresh temp d).2
     = Some (Security.Token fresh ∅)
  /\ Security.key_file (Security.init home fresh temp d).2 = Some fresh.
Proof.
  intros Hk Hw Hf Hne. rewrite init_unfold. cbv zeta. cbn [fst snd
    Security.secure_storage].
  assert (E1 : Security._initialize_encryption fresh temp d
               = (fresh, Security.set_key_file fresh d)).
  { unfold Security._initialize_encryption. rewrite Hk, Hw. reflexivity. }
  rewrite E1. cbn [fst snd].
  set (d1 := Security.set_key_file fresh d).
  destruct (load_privacy_keeps_storage_file home d1) as (Hsf & Hkf & Hwf).
  set (pd := Security._load_privacy_settings home d1) in *.
  assert (E3 : Security._load_secure_storage fresh pd.2
               = (∅, Security.set_secure_file (Security.Token fresh ∅) pd.2)).
  { unfold Security._load_secure_storage. rewrite Hsf. subst d1. cbn.
    rewrite Hf. cbn. rewrite bool_decide_eq_false_2 by congruence.
    rewrite save_outcome. fold (Security.set_key_file fresh d) in *.
    rewrite Hwf. cbn. rewrite Hw. rewrite fmap_empty. reflexivity. }
  rewrite E3. cbn [fst snd]. split; [reflexivity|]. split; [reflexivity|].
  cbn. exact Hkf.
Qed.

Lemma X8_lost_key_witness :
  Security.secure_storage
    (Security.init Sample.home 9 10
       {| Security.key_file := None;
          Security.privacy_file := Security.privacy_file Sample.data_dir;
          Security.secure_storage_file :=
            Some (Security.Token 1 {[ "pin" := Security.JInt 1234 ]});
          Security.writable := true |}).1
  = ∅.
Proof.
  apply (X8_lost_key_wipes_storage Sample.home 9 10 1
           {[ "pin" := Security.JInt 1234 ]}).
  - reflexivity.
  - reflexivity.
  - reflexivity.
  - discriminate.
Defined.

(** ** The security manager: file access and the log *)

Section AccessFacts.
Import PyStr PyExc Security SecurityMore.

Lemma startswith_app p rest : startswith p (p ++ rest) = true.
Proof.
  induction p as [|c p IH]; [reflexivity|]. simpl.
  rewrite bool_decide_eq_true_2 by reflexivity. exact IH.
Qed.

Lemma endswith_app stem suffix : endswith suffix (stem ++ suffix) = true.
Proof.
  induction stem as [|c stem IH]; simpl.
  - destruct suffix; simpl; try reflexivity.
    case_bool_decide; [reflexivity|congruence].
  - rewrite IH. apply orb_true_r.
Qed.

Lemma last_n_last_n {A} n (l l' : list A) :
  last_n n (last_n n l ++ l') = last_n n (l ++ l').
Proof.
  unfold last_n. rewrite !length_app, length_drop.
  set (k := length l - n).
  assert (Hk : k <= length l) by lia.
  transitivity (drop (length l + length l' - n)
                  (take k l ++ (drop k l ++ l'))%list).
  - rewrite (drop_app_ge (take k l)) by (rewrite length_take; lia).
    rewrite length_take. f_equal. lia.
  - rewrite app_assoc, take_drop. reflexivity.
Qed.

Lemma log_data_access_get now data_type description sm d old :
  get_secure_data "access_log" (PList []) sm = PList old ->
  (log_data_access now data_type description sm d).1.1 = Returned tt
  /\ get_secure_data "access_log" (PList [])
       (log_data_access now data_type description sm d).1.2
     = PList (last_n 1000
                (old ++ [access_entry now data_type description])).
Proof.
  intros H.
  destruct (log_data_access_result now data_type description sm d old H)
    as [Ho Hl].
  split; [exact Ho|]. unfold get_secure_data at 1. rewrite Hl. reflexivity.
Qed.

End AccessFacts.

(** X9. [secure_file_access] denies every path while the toggle for file
    system access is off or missing. With the toggle on it still denies
    every path whose text starts with the text of a sensitive directory -
    whatever follows, a path separator or not - and every path whose text
    ends with an excluded extension. *)
Theorem X9_secure_file_access_denies
    (operation : string) (sm : Security.SecurityManager) :
  (SecurityMore.setting_truthy
     (SecurityMore.check_privacy_permission "allow_file_system_access" sm)
   = false ->
   forall file_path,
     SecurityMore.secure_file_access file_path operation sm
     = PyExc.Returned false)
  /\ (forall dirs dir rest,
        Security.privacy_settings sm !! "sensitive_directories"
          = Some (Security.SList dirs) ->
        dir ∈ dirs ->
        SecurityMore.secure_file_access (dir ++ rest) operation sm
        = PyExc.Returned false)
  /\ (forall dirs exts ext stem,
        Security.privacy_settings sm !! "sensitive_directories"
          = Some (Security.SList dirs) ->
        Security.privacy_settings sm !! "excluded_file_types"
          = Some (Security.SList exts) ->
        ext ∈ exts ->
        SecurityMore.secure_file_access (stem ++ ext) operation sm
        = PyExc.Returned false).
Proof.
  unfold SecurityMore.secure_file_access. split; [|split].
  - intros -> file_path. reflexivity.
  - intros dirs dir rest Hd Hin.
    destruct (negb _); [reflexivity|].
    unfold SecurityMore.is_sensitive_path. rewrite Hd. cbn [from_option id].
    assert (E : existsb (fun sensitive_dir =>
                           PyStr.startswith sensitive_dir (dir ++ rest)) dirs
                = true).
    { apply existsb_exists. exists dir.
      split; [apply list_elem_of_In; exact Hin|apply startswith_app]. }
    rewrite E. reflexivity.
  - intros dirs exts ext stem Hd He Hin.
    destruct (negb _); [reflexivity|].
    unfold SecurityMore.is_sensitive_path. rewrite Hd, He.
    cbn [from_option id].
    destruct (existsb _ dirs); [reflexivity|].
    assert (E : existsb (fun e => SecurityMore.endswith e (stem ++ ext)) exts
                = true).
    { apply existsb_exists. exists ext.
      split; [apply list_elem_of_In; exact Hin|apply endswith_app]. }
    rewrite E. reflexivity.
Qed.

Lemma X9_secure_file_access_witness :
  SecurityMore.secure_file_access "C:\Users\tony\Documents2\plan.txt" "read"
    Sample.manager
  = PyExc.Returned false
  /\ SecurityMore.secure_file_access "C:\Temp\server.pem" "read" Sample.manager
     = PyExc.Returned false.
Proof.
  destruct (X9_secure_file_access_denies "read" Sample.manager)
    as (_ & Hdir & Hext).
  split.
  - apply (Hdir ["C:\Users\tony\Documents"; "C:\Users\tony\Downloads";
                 "C:\Users\tony\Pictures"]
             "C:\Users\tony\Documents" "2\plan.txt").
    + vm_compute. reflexivity.
    + left.
  - apply (Hext ["C:\Users\tony\Documents"; "C:\Users\tony\Downloads";
                 "C:\Users\tony\Pictures"]
             [".password"; ".key"; ".token"; ".secret";
              ".credential"; ".pem"; ".ppk"; ".keystore"]
             ".pem" "C:\Temp\server").
    + vm_compute. reflexivity.
    + vm_compute. reflexivity.
    + apply (bool_decide_unpack _). vm_compute. exact I.
Defined.

(** X10. A run of calls of [log_data_access], started where the log is a
    list (or absent), never fails, and leaves as the log the last 1000
    entries of the old log followed by the entries of the calls, in the
    order of the calls. *)
Theorem X10_log_all
    (calls : list (string * string * string))
    (sm : Security.SecurityManager) (d : Security.Disk)
    (old : list Security.pyval) :
  Security.get_secure_data "access_log" (Security.PList []) sm
    = Security.PList old ->
  calls <> [] ->
  (SecurityMore.log_all calls sm d).1.1 = PyExc.Returned tt
  /\ Security.get_secure_data "access_log" (Security.PList [])
       (SecurityMore.log_all calls sm d).1.2
     = Security.PList
         (Security.last_n 1000
            (old ++ map (fun c => Security.access_entry c.1.1 c.1.2 c.2)
                      calls)).
Proof.
  revert sm d old.
  induction calls as [|[[now data_type] description] rest IH];
    intros sm d old Hget Hne; [congruence|].
  cbn [SecurityMore.log_all].
  destruct (log_data_access_get now data_type description sm d old Hget)
    as [Ho Hl].
  destruct (Security.log_data_access now data_type description sm d)
    as [[o sm1] d1]. cbn [fst snd] in Ho, Hl. subst o.
  destruct rest as [|c rest].
  - cbn. split; [reflexivity|exact Hl].
  - destruct (IH sm1 d1 _ Hl) as [Ho' Hl']; [discriminate|].
    split; [exact Ho'|]. rewrite Hl'. f_equal. rewrite last_n_last_n.
    cbn [map]. rewrite <- app_assoc. reflexivity.
Qed.

Lemma X10_log_all_witness :
  Security.get_secure_data "access_log" (Security.PList [])
    (SecurityMore.log_all
       [("t1", "cpu", "read cpu"); ("t2", "disk", "read disk")]
       Sample.manager Sample.data_dir).1.2
  = Security.PList
      [Security.access_entry "t1" "cpu" "read cpu";
       Security.access_entry "t2" "disk" "read disk"].
Proof.
  destruct (X10_log_all
              [("t1", "cpu", "read cpu"); ("t2", "disk", "read disk")]
              Sample.manager Sample.data_dir []) as [_ H].
  - vm_compute. reflexivity.
  - discriminate.
  - exact H.
Defined.

(** ** The dispatcher: calls that cannot be bound *)

Section BindingFacts.
Import PyStr PyExc Regex Processor ProcessorMore.

Lemma more_greedy_length k n kont :
  (forall s c res, length c = n -> kont s c = Some res -> length res = n) ->
  forall s c res,
    length c = n -> more_greedy k s c kont = Some res -> length res = n.
Proof.
  intros Hk s. induction s as [|a s IH]; intros c res Hc; simpl.
  - apply Hk. exact Hc.
  - destruct (in_cls k a); [|apply Hk; exact Hc].
    destruct (more_greedy k s c kont) eqn:E.
    + intros [= <-]. eapply IH; eassumption.
    + apply Hk. exact Hc.
Qed.

Lemma more_lazy_length k n kont :
  (forall s c res, length c = n -> kont s c = Some res -> length res = n) ->
  forall s c res,
    length c = n -> more_lazy k s c kont = Some res -> length res = n.
Proof.
  intros Hk s. induction s as [|a s IH]; intros c res Hc; simpl.
  - destruct (kont "" c) eqn:E; [|discriminate].
    intros [= <-]. eapply Hk; eassumption.
  - destruct (kont (String a s) c) eqn:E.
    + intros [= <-]. eapply Hk; eassumption.
    + destruct (in_cls k a); [|discriminate]. apply IH. exact Hc.
Qed.

(** Matching keeps the number of capture slots. *)
Lemma rmatch_length ic r n :
  forall kont,
    (forall s c res, length c = n -> kont s c = Some res -> length res = n) ->
    forall s c res,
      length c = n -> rmatch ic r s c kont = Some res -> length res = n.
Proof.
  induction r as [p|k|k g| |a IHa b IHb|a IHa b IHb|a IHa|m a IHa|];
    intros kont Hk s c res Hc; cbn [rmatch].
  - destruct s as [|x s]; [discriminate|].
    destruct (char_eqb ic p x); [apply Hk; exact Hc|discriminate].
  - destruct s as [|x s]; [discriminate|].
    destruct (in_cls k x); [apply Hk; exact Hc|discriminate].
  - destruct s as [|x s]; [discriminate|].
    destruct (in_cls k x); [|discriminate].
    destruct g; [eapply more_greedy_length|eapply more_lazy_length];
      eassumption.
  - apply Hk. exact Hc.
  - apply IHa; [|exact Hc]. intros s1 c1 res1 Hc1. apply IHb; assumption.
  - destruct (rmatch ic a s c kont) eqn:E.
    + intros [= <-]. eapply IHa; eassumption.
    + apply IHb; assumption.
  - destruct (rmatch ic a s c kont) eqn:E.
    + intros [= <-]. eapply IHa; eassumption.
    + apply Hk. exact Hc.
  - apply IHa; [|exact Hc]. intros s1 c1 res1 Hc1 Hres.
    apply (Hk s1 (<[pred m := Some (consumed s s1)]> c1)); [|exact Hres].
    rewrite length_insert. exact Hc1.
  - destruct (at_end s); [apply Hk; exact Hc|discriminate].
Qed.

(** [match.groups()] has one entry per group of the pattern. *)
Lemma re_match_length ic c text caps :
  re_match ic c text = Some caps -> length caps = groups c.
Proof.
  unfold re_match. apply (rmatch_length ic (re c) (groups c)).
  - intros s c0 res Hc [= <-]. exact Hc.
  - apply length_replicate.
Qed.

Lemma groupdict_names c caps : (groupdict c caps).*1 = (groupindex c).*1.
Proof.
  unfold groupdict. induction (groupindex c) as [|[nm n] l IH];
    [reflexivity|]. cbn. rewrite <- IH. reflexivity.
Qed.

(** A keyword that names a parameter already filled makes the binding of
    the keywords fail. *)
Lemma bind_keywords_clash kw :
  forall filled free b,
    (exists k, k ∈ kw.*1 /\ k ∈ "self" :: "command_text" :: filled) ->
    exists msg, bind_keywords filled free kw b = Raised (TypeError msg).
Proof.
  induction kw as [|[k0 v0] kw IH]; intros filled free b (k & Hin & Hk).
  { inversion Hin. }
  cbn [bind_keywords]. case_bool_decide as H0; [eauto|].
  assert (Hin' : k ∈ kw.*1).
  { cbn in Hin. apply elem_of_cons in Hin as [->|Hin]; [tauto|exact Hin]. }
  case_bool_decide as H1.
  - apply IH. exists k. split; [exact Hin'|].
    rewrite !elem_of_cons in *. tauto.
  - apply IH. exists k. split; [exact Hin'|exact Hk].
Qed.

Lemma bind_keywords_raises kw :
  forall filled free b e,
    bind_keywords filled free kw b = Raised e -> exists msg, e = TypeError msg.
Proof.
  induction kw as [|[k0 v0] kw IH]; intros filled free b e; cbn [bind_keywords].
  - discriminate.
  - case_bool_decide; [intros [= <-]; eauto|].
    case_bool_decide; apply IH.
Qed.

(** With distinct keywords none of which names a filled parameter, the
    keywords are bound. *)
Lemma bind_keywords_ok kw :
  forall filled free b,
    NoDup kw.*1 ->
    (forall k, k ∈ kw.*1 -> k ∉ "self" :: "command_text" :: filled) ->
    exists b', bind_keywords filled free kw b = Returned b'
               /\ b_args b' = b_args b.
Proof.
  induction kw as [|[k0 v0] kw IH]; intros filled free b Hnd Hk.
  { eexists. split; reflexivity. }
  cbn in Hnd. apply NoDup_cons in Hnd as [Hfresh Hnd].
  cbn [bind_keywords].
  rewrite bool_decide_eq_false_2 by (apply Hk; cbn; left).
  case_bool_decide as H1.
  - edestruct (IH (k0 :: filled) (filter (fun x => x <> k0) free)) as (b' & E & Ha);
      [exact Hnd| |rewrite E; eexists; split; [reflexivity|exact Ha]].
    intros k Hin Hbad. apply (Hk k); [cbn; right; exact Hin|].
    rewrite !elem_of_cons in *. destruct Hbad as [?|[?|[->|?]]]; auto.
    contradiction.
  - edestruct (IH filled free) as (b' & E & Ha);
      [exact Hnd| |rewrite E; eexists; split; [reflexivity|exact Ha]].
    intros k Hin. apply Hk. cbn. right. exact Hin.
Qed.

(** The call of a handler on a match fails exactly when [call_fails] says
    so. *)
Lemma bind_call_fails sg c pos :
  length pos = groups c ->
  NoDup (groupindex c).*1 ->
  if call_fails sg c
  then exists msg, bind_call sg pos (groupdict c pos) = Raised (TypeError msg)
  else exists b, bind_call sg pos (groupdict c pos) = Returned b.
Proof.
  intros Hlen Hnd. unfold call_fails, bind_call. rewrite Hlen.
  destruct (existsb _ (groupindex c)) eqn:Eex; cbn [orb].
  - apply existsb_exists in Eex as ([nm n] & Hin & Hbad).
    apply bool_decide_eq_true in Hbad. cbn in Hbad.
    edestruct (bind_keywords_clash (groupdict c pos)) as (msg & E);
      [|rewrite E; eauto].
    exists nm. split; [|exact Hbad].
    rewrite groupdict_names. apply list_elem_of_fmap. exists (nm, n).
    split; [reflexivity|apply list_elem_of_In; exact Hin].
  - assert (Hok : forall k, k ∈ (groupdict c pos).*1 ->
                    k ∉ "self" :: "command_text"
                        :: take (groups c) (params sg)).
    { intros k Hk Hbad. rewrite groupdict_names in Hk.
      apply list_elem_of_fmap in Hk as ([nm n] & -> & Hin).
      assert (Hf : existsb (fun g => bool_decide
                              (g.1 ∈ "self" :: "command_text"
                                 :: take (groups c) (params sg)))
                     (groupindex c) = true); [|congruence].
      apply existsb_exists. exists (nm, n).
      split; [apply list_elem_of_In; exact Hin|].
      apply bool_decide_eq_true. exact Hbad. }
    edestruct (bind_keywords_ok (groupdict c pos)
                 (take (groups c) (params sg))
                 (drop (groups c) (params sg))) as (b' & E & Ha);
      [rewrite groupdict_names; exact Hnd|exact Hok|].
    rewrite E. cbn [b_args] in Ha.
    destruct (drop (length (params sg)) pos) as [|x extra] eqn:Ed.
    + replace (negb (varargs sg) && (length (params sg) <? groups c)%nat)
        with false; [eauto|].
      symmetry. apply andb_false_iff. right. apply Nat.ltb_ge.
      apply (f_equal length) in Ed. rewrite length_drop in Ed. cbn in Ed. lia.
    + assert (Hlt : (length (params sg) <? groups c)%nat = true).
      { apply Nat.ltb_lt. apply (f_equal length) in Ed.
        rewrite length_drop in Ed. cbn in Ed. lia. }
      rewrite Hlt, andb_true_r. destruct (varargs sg); cbn; eauto.
Qed.

Lemma rule_match_groups p h t g kw :
  rule_match (p, h) t = Some (g, kw) ->
  exists c, compile p = Some c /\ length g = groups c /\ kw = groupdict c g.
Proof.
  unfold rule_match. cbn [fst].
  destruct (compile p) as [c|]; [|discriminate].
  destruct (re_match true c t) as [g'|] eqn:E; [|discriminate].
  intros [= <- <-]. exists c. split; [reflexivity|].
  split; [apply (re_match_length _ _ _ _ E)|reflexivity].
Qed.

End BindingFacts.

(** X11. The dispatcher calls [handler(text, *match.groups(),
    **match.groupdict())]. Binding this call fails with a [TypeError]
    exactly when a named group bears the name of a parameter that a group
    fills by position, or the pattern has more groups than the handler has
    named parameters and the handler has no [*args]. For an input whose
    first matching rule is of that kind the body of the handler never
    runs: the dispatcher speaks its generic error line and nothing else
    happens. *)
Theorem X11_rules_whose_call_fails
    (env : Processor.Env) (st : Processor.State) (text : string)
    (i : nat) (p : string) (h : Processor.handler) (c : Regex.compiled) :
  text <> "" ->
  Processor.select Processor.commands (PyStr.strip (PyStr.lower text))
    = Some (i, (p, h)) ->
  Regex.compile p = Some c ->
  NoDup (Regex.groupindex c).*1 ->
  (forall pos,
     length pos = Regex.groups c ->
     if ProcessorMore.call_fails (Processor.signature_of h) c
     then exists msg,
            Processor.bind_call (Processor.signature_of h) pos
              (Regex.groupdict c pos)
            = PyExc.Raised (PyExc.TypeError msg)
     else exists b,
            Processor.bind_call (Processor.signature_of h) pos
              (Regex.groupdict c pos)
            = PyExc.Returned b)
  /\ (ProcessorMore.call_fails (Processor.signature_of h) c = true ->
      exists groups,
        Processor.process_command env text st
        = ([Processor.Invoke h groups (Regex.groupdict c groups);
            Processor.Speak Processor.error_processing],
           st, PyExc.Returned tt)).
Proof.
  intros Hne Hsel Hc Hnd. split.
  { intros pos Hlen. apply bind_call_fails; assumption. }
  intros Hfails.
  destruct (select_Some _ _ _ _ Hsel) as (_ & [[g kw] Hm] & _).
  destruct (rule_match_groups _ _ _ _ _ Hm) as (c' & Hc' & Hlen & ->).
  rewrite Hc in Hc'. injection Hc' as <-.
  exists g.
  rewrite (process_command_selects env st text i p h g _ Hsel Hm Hne).
  pose proof (bind_call_fails (Processor.signature_of h) c g Hlen Hnd) as Hb.
  rewrite Hfails in Hb. destruct Hb as [msg Hb].
  unfold Processor.try_except, Processor.call, Processor.bind, Processor.emit.
  rewrite Hb. reflexivity.
Qed.

Lemma X11_rules_whose_call_fails_witness :
  exists groups,
    Processor.process_command Sample.quiet_env "Thanks" Sample.started
    = ([Processor.Invoke Processor.h_youre_welcome groups [];
        Processor.Speak Processor.error_processing],
       Sample.started, PyExc.Returned tt).
Proof.
  apply (proj2 (X11_rules_whose_call_fails Sample.quiet_env Sample.started
                  "Thanks" 47 "(thank you|thanks)"
                  Processor.h_youre_welcome
                  {| Regex.re := _; Regex.groups := 1;
                     Regex.groupindex := [] |}
                  ltac:(discriminate) ltac:(vm_compute; reflexivity)
                  ltac:(vm_compute; reflexivity) ltac:(constructor))).
  reflexivity.
Defined.

(** Of the 57 rules of the table, 29 are of that kind. *)
Example failing_rules_of_the_table :
  map fst ProcessorMore.failing_rules
  = [0; 1; 2; 3; 4; 5; 6; 7; 8; 9; 10; 11; 12; 13; 14; 17; 18; 19; 20; 21;
     22; 23; 45; 46; 47; 48; 49; 50; 53]
  /\ length Processor.commands = 57.
Proof. split; vm_compute; reflexivity. Qed.

(** ** The dispatcher: what reaches the shell, and normal forms *)

Section SafetyFacts.
Import PyStr PyExc Regex Processor ProcessorMore.
Variable env : Env.

Lemma opaque_safe h t b : silent safe_event (opaque env h t b).
Proof.
  intros st. unfold opaque, trace_of.
  destruct (body env h t b st) as [[os st1] o]. simpl.
  apply Forall_forall. intros e [o' [<- _]]%list_elem_of_In%in_map_iff.
  destruct o'; exact I.
Qed.

Lemma execute_command_safe t args kwargs :
  silent safe_event (_execute_command env t args kwargs).
Proof.
  unfold _execute_command. apply silent_bind; [apply silent_get|intros st].
  destruct (negb (system_handler_ok st)); [apply silent_emit; exact I|].
  destruct (named_or_first (kw_get "command" kwargs) args) as [[|c r]|];
    try (apply silent_emit; exact I).
  apply silent_try; [|intros e; apply silent_emit; exact I].
  destruct (existsb _ dangerous_commands) eqn:E;
    [apply silent_emit; exact I|].
  apply silent_bind; [apply silent_emit; exact I|intros _].
  apply silent_bind; [apply silent_emit; exact E|intros _].
  apply silent_bind; [apply silent_lift|intros [success output]].
  destruct success; [|apply silent_emit; exact I].
  apply silent_bind; [apply silent_emit; exact I|intros _].
  match goal with
  | |- silent _ (match ?x with _ => _ end) => destruct x
  end; [apply silent_ret|apply silent_emit; exact I].
Qed.

Lemma run_body_safe h t b : silent safe_event (run_body env h t b).
Proof.
  destruct h; try apply opaque_safe; try apply execute_command_safe;
    unfold run_body, _open_application, _delete_item, _delete_directory,
      _shutdown, _handle_enable_privacy_setting,
      _handle_clear_data, call_update_privacy_settings, call_clear_all_data;
    silent_auto.
Qed.

Lemma call_safe h t g kw : silent safe_event (call env h t g kw).
Proof.
  unfold call. apply silent_bind; [apply silent_emit; exact I|intros _].
  destruct (bind_call (signature_of h) g kw);
    [apply run_body_safe|apply silent_raise].
Qed.

Lemma scan_safe rules t : silent safe_event (scan env rules t).
Proof.
  induction rules as [|[p h] rules IH]; cbn [scan].
  - apply silent_emit. exact I.
  - destruct (compile p) as [c|]; [|apply silent_raise].
    destruct (re_match true c t); [|exact IH].
    apply silent_try; [apply call_safe|intros e; apply silent_emit; exact I].
Qed.

End SafetyFacts.

(** X12. Whatever the input, the collaborators and the state, every
    command the dispatcher hands to [execute_command] is free of the
    entries of the deny-list, compared in lower case: no path through
    [process_command] executes a command with "rm -rf", "deltree",
    "format", "del /f" or "drop database" in it. *)
Theorem X12_nothing_denylisted_reaches_the_shell
    (env : Processor.Env) (st : Processor.State) (text command : string) :
  Processor.ExecuteCommand command
    ∈ Processor.trace_of (Processor.process_command env text st) ->
  forall dc,
    dc ∈ Processor.dangerous_commands ->
    PyStr.contains dc (PyStr.lower command) = false.
Proof.
  intros Hin dc Hdc.
  assert (Hsafe : Forall ProcessorMore.safe_event
                    (Processor.trace_of
                       (Processor.process_command env text st))).
  { destruct text as [|c r].
    - repeat constructor.
    - rewrite process_command_scan. apply scan_safe. }
  rewrite Forall_forall in Hsafe. specialize (Hsafe _ Hin).
  unfold ProcessorMore.safe_event in Hsafe.
  destruct (PyStr.contains dc (PyStr.lower command)) eqn:E; [|reflexivity].
  assert (Ht : existsb (fun dc => PyStr.contains dc (PyStr.lower command))
                 Processor.dangerous_commands = true).
  { apply existsb_exists. exists dc.
    split; [apply list_elem_of_In; exact Hdc|exact E]. }
  rewrite Ht in Hsafe. discriminate.
Qed.

Lemma X12_nothing_denylisted_witness :
  PyStr.contains "rm -rf" (PyStr.lower "ls -la") = false.
Proof.
  apply (X12_nothing_denylisted_reaches_the_shell
           {| Processor.open_application := fun _ _ => PyExc.Returned false;
              Processor.delete_item := fun _ => PyExc.Returned false;
              Processor.execute_command :=
                fun _ => PyExc.Returned (true, "total 0");
              Processor.body := fun _ _ _ st => ([], st, PyExc.Returned tt) |}
           Sample.started "Execute the command ls -la" "ls -la").
  - vm_compute. right. right. left.
  - left.
Defined.

Section NormalFormFacts.
Import PyStr.

Lemma lower_char_idem c : lower_char (lower_char c) = lower_char c.
Proof. destruct c as [[] [] [] [] [] [] [] []]; reflexivity. Qed.

Lemma lower_idem s : lower (lower s) = lower s.
Proof.
  induction s as [|c r IH]; [reflexivity|]. simpl.
  rewrite lower_char_idem, IH. reflexivity.
Qed.

Lemma rstrip_idem s : rstrip (rstrip s) = rstrip s.
Proof.
  induction s as [|c r IH]; [reflexivity|]. simpl.
  destruct (rstrip r) as [|c' r'] eqn:E.
  - destruct (is_space c) eqn:Ec; [reflexivity|]. simpl. rewrite Ec.
    reflexivity.
  - change (rstrip (String c (String c' r')))
      with (match rstrip (String c' r') with
            | EmptyString =>
                if is_space c then EmptyString else String c EmptyString
            | r'' => String c r''
            end).
    rewrite IH. reflexivity.
Qed.

Lemma lstrip_fixed s :
  (s = "" \/ exists c r, s = String c r /\ is_space c = false) ->
  lstrip s = s.
Proof.
  intros [->|(c & r & -> & Hc)]; [reflexivity|]. simpl. rewrite Hc.
  reflexivity.
Qed.

Lemma strip_idem s : strip (strip s) = strip s.
Proof.
  unfold strip at 1. rewrite (lstrip_fixed (strip s) (strip_head s)).
  unfold strip. apply rstrip_idem.
Qed.

(** The normal form of a normal form is itself. *)
Lemma normal_form_idem text :
  strip (lower (strip (lower text))) = strip (lower text).
Proof.
  rewrite (strip_lower (strip (lower text))), strip_idem.
  rewrite <- strip_lower, lower_idem. reflexivity.
Qed.

End NormalFormFacts.

(** X13. Commands are read without regard to case and to white space
    around them: an input whose normal form (lower case, stripped) is not
    empty is processed exactly as its normal form is. *)
Theorem X13_input_is_read_in_normal_form
    (env : Processor.Env) (st : Processor.State) (text : string) :
  PyStr.strip (PyStr.lower text) <> "" ->
  Processor.process_command env text st
  = Processor.process_command env (PyStr.strip (PyStr.lower text)) st.
Proof.
  intros Hne.
  destruct text as [|c r]; [exfalso; apply Hne; reflexivity|].
  destruct (PyStr.strip (PyStr.lower (String c r))) as [|c' r'] eqn:E;
    [congruence|].
  rewrite !process_command_scan, <- E, normal_form_idem. reflexivity.
Qed.

Lemma X13_input_is_read_in_normal_form_witness :
  Processor.process_command Sample.quiet_env "  DELETE File Notes.TXT "
    Sample.started
  = Processor.process_command Sample.quiet_env "delete file notes.txt"
      Sample.started.
Proof.
  apply (X13_input_is_read_in_normal_form Sample.quiet_env Sample.started
           "  DELETE File Notes.TXT ").
  discriminate.
Defined.

(** ** The dispatcher: a rule behind another *)

Section ShadowFacts.
Import PyStr PyExc Regex Processor ProcessorMore.

Lemma more_lazy_one_line s caps kont :
  one_line s = true ->
  is_Some (kont "" caps) ->
  is_Some (more_lazy AnyChar s caps kont).
Proof.
  intros Hs Hk. induction s as [|c r IH]; simpl.
  - destruct (kont "" caps); [eauto|exact Hk].
  - destruct (kont (String c r) caps); [eauto|].
    simpl in Hs. apply andb_true_iff in Hs as [Hc Hr].
    rewrite Hc. apply IH. exact Hr.
Qed.

(** What the rule for "run command" matches starts with "run", a space
    and one more character. *)
Lemma run_command_prefix t :
  is_Some (rule_match run_command_rule t) ->
  exists a b c d x rest,
    t = String a (String b (String c (String d (String x rest))))
    /\ char_eqb true "r" a = true /\ char_eqb true "u" b = true
    /\ char_eqb true "n" c = true /\ char_eqb true " " d = true.
Proof.
  unfold rule_match, run_command_rule. cbn [fst].
  destruct (compile _) as [cp|] eqn:Ec; [|intros [? [=]]].
  vm_compute in Ec. injection Ec as <-.
  destruct (re_match _ _ t) as [g|] eqn:E; [intros _|intros [? [=]]].
  unfold re_match in E. cbn [rmatch re groups] in E.
  destruct t as [|a t]; [discriminate|].
  destruct (char_eqb true "r" a) eqn:Ea; [|discriminate].
  destruct t as [|b t]; [discriminate|].
  destruct (char_eqb true "u" b) eqn:Eb; [|discriminate].
  destruct t as [|c t]; [discriminate|].
  destruct (char_eqb true "n" c) eqn:En; [|discriminate].
  destruct t as [|d t]; [discriminate|].
  destruct (char_eqb true " " d) eqn:Ed; [|discriminate].
  destruct t as [|x rest]; [discriminate|].
  repeat eexists; eauto.
Qed.

Lemma run_application_matches a b c d x rest :
  char_eqb true "r" a = true -> char_eqb true "u" b = true ->
  char_eqb true "n" c = true -> char_eqb true " " d = true ->
  one_line (String x rest) = true ->
  is_Some (rule_match run_application_rule
             (String a (String b (String c (String d (String x rest)))))).
Proof.
  intros Ha Hb Hc Hd Hx.
  unfold rule_match, run_application_rule. cbn [fst].
  destruct (compile _) as [cp|] eqn:Ec; [|vm_compute in Ec; discriminate].
  vm_compute in Ec. injection Ec as <-.
  match goal with
  | |- is_Some (match ?m with _ => _ end) =>
      assert (Hm : is_Some m); [|destruct Hm as [g ->]; eauto]
  end.
  unfold re_match. cbn [rmatch re groups]. rewrite Ha, Hb, Hc, Hd.
  simpl in Hx. apply andb_true_iff in Hx as [Hx Hrest].
  cbn [in_cls]. rewrite Hx.
  apply more_lazy_one_line; [exact Hrest|]. cbn. eauto.
Qed.

(** On one line of text, the rule for "run <application>" matches
    whatever the rule for "run command <command>" matches. *)
Lemma run_command_shadowed t :
  one_line t = true ->
  is_Some (rule_match run_command_rule t) ->
  is_Some (rule_match run_application_rule t).
Proof.
  intros Hl (a & b & c & d & x & rest & -> & Ha & Hb & Hc & Hd)%run_command_prefix.
  apply run_application_matches; try assumption.
  simpl in Hl. do 4 (apply andb_true_iff in Hl as [_ Hl]). exact Hl.
Qed.

Lemma run_rules_positions :
  commands !! 27 = Some run_application_rule
  /\ commands !! 41 = Some run_command_rule.
Proof. split; reflexivity. Qed.

End ShadowFacts.

(** X14. The rule that sends "run command <command>" to the command
    handler, with its deny-list, stands in the table behind the rule that
    sends "run <application>" to the application launcher. On every input
    whose normal form is one line of text the first rule matches whatever
    the second matches, so the second is never the one selected: such
    input never reaches the command handler through it. *)
Theorem X14_run_command_rule_is_never_selected (text : string) (i : nat) :
  ProcessorMore.one_line (PyStr.strip (PyStr.lower text)) = true ->
  Processor.select Processor.commands (PyStr.strip (PyStr.lower text))
    = Some (i, ("run( the)? command (?P<command>.+)",
                Processor.h_execute_command)) ->
  False.
Proof.
  intros Hl Hsel.
  destruct (select_Some _ _ _ _ Hsel) as (Hi & Hm & Hfirst).
  assert (Hlt : 27 < i).
  { assert (Hi41 : i = 41).
    { pose proof commands_keys_distinct as Hnd.
      eapply (NoDup_alt (Processor.commands.*1));
        [exact Hnd| |reflexivity].
      rewrite list_lookup_fmap, Hi. reflexivity. }
    lia. }
  pose proof (Hfirst 27 _ Hlt (proj1 run_rules_positions)) as Hnone.
  destruct (run_command_shadowed _ Hl Hm) as [g Hg].
  rewrite Hg in Hnone. discriminate.
Qed.

Lemma X14_run_command_rule_witness :
  Processor.select Processor.commands
    (PyStr.strip (PyStr.lower "run the command ls"))
  <> Some (41, ("run( the)? command (?P<command>.+)",
                Processor.h_execute_command)).
Proof.
  intros H.
  exact (X14_run_command_rule_is_never_selected "run the command ls" 41
           eq_refl H).
Defined.

(** Text of more than one line can still reach the rule. *)
Example run_command_on_two_lines :
  Processor.select Processor.commands "run command a
b"
  = Some (41, ("run( the)? command (?P<command>.+)",
               Processor.h_execute_command)).
Proof. vm_compute. reflexivity. Qed.

(** * The privacy handlers *)

Section PrivacyHandlerFacts.
Import PyStr PyExc Regex Processor PrivacyHandlers.

(** The call of [update_privacy_settings] from a handler. *)
Lemma call_update_run settings st sm :
  security_manager st = Some sm ->
  call_update_privacy_settings settings st
  = ([UpdatePrivacySettings settings],
     set_security
       (Security.update_privacy_settings settings sm (disk st)).1.2
       (Security.update_privacy_settings settings sm (disk st)).2 st,
     Returned tt).
Proof.
  intros Hsm.
  unfold call_update_privacy_settings, bind, emit, get_state, put_state.
  cbn [fst snd]. rewrite Hsm.
  destruct (Security.update_privacy_settings settings sm (disk st))
    as [[ok sm1] d1].
  reflexivity.
Qed.

(** An update of one valid key. *)
Lemma update_one key v sm d :
  key ∈ Security.valid_keys ->
  Security.update_privacy_settings [(key, v)] sm d
  = if Security.writable d
    then (true,
          Security.set_privacy_settings
            (<[key := v]> (Security.privacy_settings sm)) sm,
          Security.set_privacy_file
            (<[key := v]> (Security.privacy_settings sm)) d)
    else (false, sm, d).
Proof.
  intros Hk. unfold Security.update_privacy_settings. cbn [foldl].
  rewrite bool_decide_eq_true_2 by exact Hk. reflexivity.
Qed.

(** Every name of the table of the switching handlers stands for one of
    the six core settings. *)
Lemma setting_map_core name key :
  setting_map !! name = Some key -> key ∈ core_settings.*1.
Proof.
  intros H. unfold setting_map in H.
  apply elem_of_list_to_map_2 in H.
  repeat (apply elem_of_cons in H as [H|H];
          [injection H as -> ->; vm_compute; set_solver|]).
  apply elem_of_nil in H. contradiction.
Qed.

Lemma core_settings_valid key :
  key ∈ core_settings.*1 -> key ∈ Security.valid_keys.
Proof.
  intros H. cbn in H.
  repeat (apply elem_of_cons in H as [->|H]; [vm_compute; set_solver|]).
  apply elem_of_nil in H. contradiction.
Qed.

Lemma set_security_same st sm :
  security_manager st = Some sm -> set_security sm (disk st) st = st.
Proof. destruct st; simpl; intros ->; reflexivity. Qed.

(** What a switching handler does on a name of its table. *)
Lemma switch_run on t c r kwargs st sm key :
  security_manager st = Some sm ->
  setting_map !! lower (strip (String c r)) = Some key ->
  switch_handler on t (Some (String c r)) kwargs st
  = ([UpdatePrivacySettings [(key, Security.SBool on)];
      Speak ("I've " ++ (if on then "enabled " else "disabled ")
             ++ lower (strip (String c r)) ++ " data collection.")],
     set_security
       (Security.update_privacy_settings [(key, Security.SBool on)] sm
          (disk st)).1.2
       (Security.update_privacy_settings [(key, Security.SBool on)] sm
          (disk st)).2 st,
     Returned tt).
Proof.
  intros Hsm Hmap.
  destruct on; unfold switch_handler, _handle_enable_privacy_setting,
    _handle_disable_privacy_setting, try_except, bind, get_state;
    cbn [fst snd]; rewrite Hsm, Hmap;
    rewrite (call_update_run _ st sm Hsm); reflexivity.
Qed.

End PrivacyHandlerFacts.

(** X15. The handlers that switch a privacy setting on or off, called
    with a name of their table: they call [update_privacy_settings] with
    the one key the name stands for, and say that the setting has been
    switched, whatever the call returned. When the settings file can be
    written, memory and file hold the old settings with that one key
    changed; when it cannot, nothing changes at all and the handler still
    says the setting has been switched. *)
Theorem X15_switch_privacy_setting
    (on : bool) (command_text setting key : string)
    (kwargs : list (string * option string))
    (st : Processor.State) (sm : Security.SecurityManager) :
  Processor.security_manager st = Some sm ->
  setting <> "" ->
  Processor.setting_map !! PyStr.lower (PyStr.strip setting) = Some key ->
  let r := PrivacyHandlers.switch_handler on command_text (Some setting)
             kwargs st in
  Processor.trace_of r
  = [Processor.UpdatePrivacySettings [(key, Security.SBool on)];
     Processor.Speak ("I've " ++ (if on then "enabled " else "disabled ")
                      ++ PyStr.lower (PyStr.strip setting)
                      ++ " data collection.")]
  /\ Processor.outcome_of r = PyExc.Returned tt
  /\ (Security.writable (Processor.disk st) = true ->
      exists sm1,
        Processor.security_manager (Processor.state_of r) = Some sm1
        /\ Security.privacy_settings sm1
           = <[key := Security.SBool on]> (Security.privacy_settings sm)
        /\ Security.privacy_file (Processor.disk (Processor.state_of r))
           = Some (Some (Security.privacy_settings sm1)))
  /\ (Security.writable (Processor.disk st) = false ->
      Processor.state_of r = st).
Proof.
  intros Hsm Hne Hmap r. destruct setting as [|c s]; [congruence|].
  subst r. rewrite (switch_run on _ c s kwargs st sm key Hsm Hmap).
  unfold Processor.trace_of, Processor.outcome_of, Processor.state_of.
  cbn [fst snd].
  rewrite update_one
    by (apply core_settings_valid; eapply setting_map_core; exact Hmap).
  split; [reflexivity|]. split; [reflexivity|]. split.
  - intros Hw. rewrite Hw. cbn [fst snd]. eexists.
    split; [reflexivity|]. split; reflexivity.
  - intros Hw. rewrite Hw. cbn [fst snd].
    apply set_security_same. exact Hsm.
Qed.

Lemma X15_switch_privacy_setting_witness :
  let st := Sample.started in
  exists sm key,
    Processor.security_manager st = Some sm
    /\ Processor.setting_map !! PyStr.lower (PyStr.strip " File Access ")
       = Some key
    /\ Processor.trace_of
         (PrivacyHandlers.switch_handler false "disable file access tracking"
            (Some " File Access ") [] st)
       = [Processor.UpdatePrivacySettings [(key, Security.SBool false)];
          Processor.Speak "I've disabled file access data collection."].
Proof.
  eexists _, "allow_file_system_access".
  split; [reflexivity|]. split; [vm_compute; reflexivity|].
  refine (proj1 (X15_switch_privacy_setting false "disable file access tracking"
                   " File Access " "allow_file_system_access" []
                   Sample.started _ _ _ _)).
  - reflexivity.
  - discriminate.
  - vm_compute. reflexivity.
Defined.

Section ShowFacts.
Import PyStr PyExc Regex Processor PrivacyHandlers.

(** The loop that sorts names into the enabled and the disabled. *)
Lemma classify_loop settings (l : list (string * string)) acc :
  foldl (fun acc kn =>
           if get_truthy settings kn.1
           then ((acc.1 ++ [kn.2])%list, acc.2)
           else (acc.1, (acc.2 ++ [kn.2])%list)) acc l
  = ((acc.1 ++ (List.filter (fun kn => get_truthy settings kn.1) l).*2)%list,
     (acc.2 ++ (List.filter (fun kn => negb (get_truthy settings kn.1)) l).*2)%list).
Proof.
  revert acc. induction l as [|[k n] l IH]; intros [en dis].
  - cbn. rewrite !app_nil_r. reflexivity.
  - cbn [foldl]. rewrite IH. cbn [fst snd List.filter].
    destruct (get_truthy settings k); cbn [fst snd negb fmap list_fmap];
      rewrite <- ?app_assoc; reflexivity.
Qed.

Lemma classify_filters settings :
  classify settings
  = ((List.filter (fun kn => get_truthy settings kn.1) core_settings).*2,
     (List.filter (fun kn => negb (get_truthy settings kn.1)) core_settings).*2).
Proof. unfold classify. apply (classify_loop settings core_settings ([], [])). Qed.

Lemma filter_split {A} (f : A -> bool) (l : list A) :
  (List.filter f l ++ List.filter (fun x => negb (f x)) l)%list ≡ₚ l.
Proof.
  induction l as [|x l IH]; [reflexivity|]. cbn [List.filter].
  destruct (f x); cbn [negb].
  - cbn. rewrite IH. reflexivity.
  - rewrite <- Permutation_middle. rewrite IH. reflexivity.
Qed.

Lemma core_names_distinct : NoDup core_settings.*2.
Proof. apply (bool_decide_unpack _). vm_compute. exact I. Qed.

Lemma core_keys_distinct : NoDup core_settings.*1.
Proof. apply (bool_decide_unpack _). vm_compute. exact I. Qed.

(** A name stands for one key only. *)
Lemma core_name_key key key' name :
  (key, name) ∈ core_settings -> (key', name) ∈ core_settings -> key = key'.
Proof.
  intros H H'. cbn in H, H'.
  repeat (apply elem_of_cons in H as [H|H];
          [injection H as -> ->|]);
  try (apply elem_of_nil in H; contradiction);
  repeat (apply elem_of_cons in H' as [H'|H'];
          [try discriminate; injection H' as ->; reflexivity|]);
    apply elem_of_nil in H'; contradiction.
Qed.

Lemma elem_of_filter_snd (f : string * string -> bool) l name :
  name ∈ (List.filter f l).*2
  <-> exists key, (key, name) ∈ l /\ f (key, name) = true.
Proof.
  rewrite list_elem_of_fmap. split.
  - intros ([k n] & -> & Hin). apply list_elem_of_In, filter_In in Hin.
    destruct Hin as [Hin Hf]. exists k. split; [apply list_elem_of_In, Hin|exact Hf].
  - intros (k & Hin & Hf). exists (k, name). split; [reflexivity|].
    apply list_elem_of_In, filter_In. split; [apply list_elem_of_In, Hin|exact Hf].
Qed.

Lemma classify_enabled settings key name :
  (key, name) ∈ core_settings ->
  name ∈ (classify settings).1 <-> get_truthy settings key = true.
Proof.
  intros Hin. rewrite classify_filters. cbn [fst].
  rewrite elem_of_filter_snd. split.
  - intros (k & Hk & Hf). rewrite (core_name_key key k name Hin Hk). exact Hf.
  - intros Hf. exists key. split; [exact Hin|exact Hf].
Qed.

Lemma classify_disabled settings key name :
  (key, name) ∈ core_settings ->
  name ∈ (classify settings).2 <-> get_truthy settings key = false.
Proof.
  intros Hin. rewrite classify_filters. cbn [snd].
  rewrite elem_of_filter_snd. split.
  - intros (k & Hk & Hf). rewrite (core_name_key key k name Hin Hk).
    cbn in Hf. apply negb_true_iff. exact Hf.
  - intros Hf. exists key. split; [exact Hin|]. cbn. rewrite Hf. reflexivity.
Qed.

Lemma show_run t kwargs st sm :
  security_manager st = Some sm ->
  _handle_show_privacy_settings t kwargs st
  = ([Speak match show_response (Security.privacy_settings sm) with
            | Returned line => line
            | Raised _ => "I encountered an error while showing privacy settings."
            end], st, Returned tt).
Proof.
  intros Hsm.
  unfold _handle_show_privacy_settings, try_except, bind, get_state, lift.
  cbn [fst snd]. rewrite Hsm.
  destruct (show_response (Security.privacy_settings sm)) as [line|e] eqn:E.
  - reflexivity.
  - unfold show_response in E.
    destruct (default _ _) as [[]|[|]]; try discriminate.
    injection E as <-. reflexivity.
Qed.

End ShowFacts.

(** X16. [_handle_show_privacy_settings] reports each of the six core
    settings once, under "Enabled" when the value stored under its key is
    truthy and under "Disabled" when it is falsy or the key is missing.
    The handler speaks one line, returns, and changes nothing; the line is
    the report unless the value under "sensitive_directories" is [True],
    whose length cannot be taken. *)
Theorem X16_show_privacy_settings
    (settings : gmap string Security.setting) :
  ((PrivacyHandlers.classify settings).1
     ++ (PrivacyHandlers.classify settings).2)%list
    ≡ₚ PrivacyHandlers.core_settings.*2
  /\ (forall key name,
        (key, name) ∈ PrivacyHandlers.core_settings ->
        (name ∈ (PrivacyHandlers.classify settings).1
         <-> PrivacyHandlers.get_truthy settings key = true)
        /\ (name ∈ (PrivacyHandlers.classify settings).2
            <-> PrivacyHandlers.get_truthy settings key = false))
  /\ (forall command_text kwargs st sm,
        Processor.security_manager st = Some sm ->
        Security.privacy_settings sm = settings ->
        exists line,
          PrivacyHandlers._handle_show_privacy_settings command_text kwargs st
          = ([Processor.Speak line], st, PyExc.Returned tt)
          /\ (PrivacyHandlers.show_response settings = PyExc.Returned line
              \/ settings !! "sensitive_directories"
                 = Some (Security.SBool true)
                 /\ line = "I encountered an error while showing privacy settings.")).
Proof.
  split; [|split].
  - rewrite classify_filters. cbn [fst snd].
    rewrite <- fmap_app, filter_split. reflexivity.
  - intros key name Hin. split.
    + apply classify_enabled. exact Hin.
    + apply classify_disabled. exact Hin.
  - intros t kwargs st sm Hsm <-. eexists. split; [apply show_run, Hsm|].
    destruct (PrivacyHandlers.show_response (Security.privacy_settings sm))
      as [line|e] eqn:E; [left; reflexivity|right].
    split; [|reflexivity].
    unfold PrivacyHandlers.show_response in E.
    destruct (Security.privacy_settings sm !! "sensitive_directories")
      as [[[]|[|]]|]; cbn in E; try discriminate.
    reflexivity.
Qed.

Lemma X16_show_privacy_settings_witness :
  ("allow_network_access", "Network access") ∈ PrivacyHandlers.core_settings
  /\ "Network access"
     ∈ (PrivacyHandlers.classify
          (Security.privacy_settings Sample.manager)).1.
Proof.
  assert (Hin : ("allow_network_access", "Network access")
                ∈ PrivacyHandlers.core_settings)
    by (vm_compute; set_solver).
  split; [exact Hin|].
  apply (proj1 (proj1 (proj2 (X16_show_privacy_settings
                                (Security.privacy_settings Sample.manager)))
                  "allow_network_access" "Network access" Hin)).
  vm_compute. reflexivity.
Defined.

Example show_privacy_settings_after_start :
  PrivacyHandlers._handle_show_privacy_settings "show my privacy settings"
    [] Sample.started
  = ([Processor.Speak "Current privacy settings: Enabled: System information collection, Usage data collection, Command history storage, Network access, File system access, Application management. Protected directories: 3."],
     Sample.started, PyExc.Returned tt).
Proof. vm_compute. reflexivity. Qed.

Section SwitchShowFacts.
Import PyStr PyExc Regex Processor PrivacyHandlers.

Lemma core_key_has_name key :
  key ∈ core_settings.*1 -> exists name, (key, name) ∈ core_settings.
Proof.
  intros ([k n] & -> & Hin)%list_elem_of_fmap. exists n. exact Hin.
Qed.

Lemma get_truthy_insert settings key (on : bool) :
  get_truthy (<[key := Security.SBool on]> settings) key = on.
Proof. unfold get_truthy. rewrite lookup_insert_eq. reflexivity. Qed.

Lemma get_truthy_insert_ne settings key key' v :
  key <> key' ->
  get_truthy (<[key := v]> settings) key' = get_truthy settings key'.
Proof.
  intros Hne. unfold get_truthy. rewrite lookup_insert_ne by exact Hne.
  reflexivity.
Qed.

End SwitchShowFacts.

(** X17. Switching and showing fit together when the settings file can be
    written: after the handler for a name of the table has run, the report
    of [_handle_show_privacy_settings] has the setting the name stands for
    under "Enabled" or "Disabled" as switched, and every other core
    setting where it was. When the file cannot be written the report is
    the one from before, although the switching handler has said
    otherwise. *)
Theorem X17_switch_then_show
    (on : bool) (command_text setting key : string)
    (kwargs : list (string * option string))
    (st : Processor.State) (sm : Security.SecurityManager) :
  Processor.security_manager st = Some sm ->
  setting <> "" ->
  Processor.setting_map !! PyStr.lower (PyStr.strip setting) = Some key ->
  let st1 := Processor.state_of
               (PrivacyHandlers.switch_handler on command_text (Some setting)
                  kwargs st) in
  (exists name, (key, name) ∈ PrivacyHandlers.core_settings)
  /\ (Security.writable (Processor.disk st) = true ->
      exists sm1,
        Processor.security_manager st1 = Some sm1
        /\ forall key' name,
             (key', name) ∈ PrivacyHandlers.core_settings ->
             name ∈ (PrivacyHandlers.classify
                       (Security.privacy_settings sm1)).1
             <-> if bool_decide (key' = key) then on = true
                 else name ∈ (PrivacyHandlers.classify
                                (Security.privacy_settings sm)).1)
  /\ (Security.writable (Processor.disk st) = false ->
      forall text kw,
        PrivacyHandlers._handle_show_privacy_settings text kw st1
        = PrivacyHandlers._handle_show_privacy_settings text kw st).
Proof.
  intros Hsm Hne Hmap st1.
  pose proof (setting_map_core _ _ Hmap) as Hcore.
  destruct setting as [|c s]; [congruence|].
  subst st1. rewrite (switch_run on _ c s kwargs st sm key Hsm Hmap).
  unfold Processor.state_of. cbn [fst snd].
  rewrite update_one by (apply core_settings_valid; exact Hcore).
  split; [apply core_key_has_name; exact Hcore|]. split.
  - intros Hw. rewrite Hw. cbn [fst snd]. eexists. split; [reflexivity|].
    intros key' name Hin. cbn [Security.privacy_settings Security.set_privacy_settings].
    rewrite (classify_enabled _ key' name Hin).
    case_bool_decide as Hk.
    + subst key'. rewrite get_truthy_insert. reflexivity.
    + rewrite get_truthy_insert_ne by congruence.
      rewrite (classify_enabled _ key' name Hin). reflexivity.
  - intros Hw. rewrite Hw. cbn [fst snd]. intros text kw.
    rewrite (set_security_same st sm Hsm). reflexivity.
Qed.

Lemma X17_switch_then_show_witness :
  exists name, ("allow_network_access", name) ∈ PrivacyHandlers.core_settings.
Proof.
  refine (proj1 (X17_switch_then_show false "disable network tracking"
                   "network" "allow_network_access" [] Sample.started
                   Sample.manager _ _ _)).
  - reflexivity.
  - discriminate.
  - vm_compute. reflexivity.
Defined.

Example disable_network_then_show :
  Processor.trace_of
    (PrivacyHandlers._handle_show_privacy_settings "show my privacy settings" []
       (Processor.state_of
          (PrivacyHandlers.switch_handler false "disable network tracking"
             (Some "network") [] Sample.started)))
  = [Processor.Speak "Current privacy settings: Enabled: System information collection, Usage data collection, Command history storage, File system access, Application management. Disabled: Network access. Protected directories: 3."].
Proof. vm_compute. reflexivity. Qed.

Section SensitiveDirectoryFacts.
Import PyStr PyExc Regex Processor PrivacyHandlers.

Lemma sensitive_directories_valid :
  "sensitive_directories" ∈ Security.valid_keys.
Proof. vm_compute. set_solver. Qed.

(** The handler on a directory that is not yet listed. *)
Lemma add_run_new sh cwd t c r kwargs st sm dirs :
  security_manager st = Some sm ->
  system_handler_ok st = true ->
  Security.privacy_settings sm !! "sensitive_directories"
    = Some (Security.SList dirs) ->
  let p := PurePath.to_str
             (SystemOps._resolve_path sh cwd (strip (String c r))) in
  p ∉ dirs ->
  let settings1 :=
    <["sensitive_directories" := Security.SList (dirs ++ [p])]>
      (Security.privacy_settings sm) in
  _handle_add_sensitive_directory sh cwd t (Some (String c r)) kwargs st
  = ([UpdatePrivacySettings
        [("sensitive_directories", Security.SList (dirs ++ [p]))];
      Speak ("I've added " ++ String c r
             ++ " to protected directories. Files in this location will be secure.")],
     set_security (Security.set_privacy_settings settings1 sm)
       (if Security.writable (disk st)
        then Security.set_privacy_file settings1 (disk st)
        else disk st) st,
     Returned tt).
Proof.
  intros Hsm Hok Hdirs p Hnew settings1.
  unfold _handle_add_sensitive_directory, try_except, bind, get_state.
  cbn [fst snd]. rewrite Hsm, Hok, Hdirs. cbn [negb default from_option id].
  fold p. rewrite bool_decide_eq_false_2 by exact Hnew.
  unfold put_state. cbn [fst snd]. fold settings1.
  rewrite (call_update_run _ _ (Security.set_privacy_settings settings1 sm))
    by reflexivity.
  rewrite update_one by exact sensitive_directories_valid.
  cbn [disk set_security Security.privacy_settings
       Security.set_privacy_settings].
  replace (<["sensitive_directories" := Security.SList (dirs ++ [p])]>
             settings1) with settings1
    by (unfold settings1; rewrite insert_insert_eq; reflexivity).
  destruct (Security.writable (disk st)); reflexivity.
Qed.

(** The handler on a directory that is listed. *)
Lemma add_run_old sh cwd t c r kwargs st sm dirs :
  security_manager st = Some sm ->
  system_handler_ok st = true ->
  Security.privacy_settings sm !! "sensitive_directories"
    = Some (Security.SList dirs) ->
  PurePath.to_str (SystemOps._resolve_path sh cwd (strip (String c r)))
    ∈ dirs ->
  _handle_add_sensitive_directory sh cwd t (Some (String c r)) kwargs st
  = ([Speak (String c r ++ " is already in the list of protected directories.")],
     st, Returned tt).
Proof.
  intros Hsm Hok Hdirs Hold.
  unfold _handle_add_sensitive_directory, try_except, bind, get_state.
  cbn [fst snd]. rewrite Hsm, Hok, Hdirs. cbn [negb default from_option id].
  rewrite bool_decide_eq_true_2 by exact Hold. reflexivity.
Qed.

(** No access under a listed directory. *)
Lemma listed_directory_denied sm dirs dir rest operation :
  Security.privacy_settings sm !! "sensitive_directories"
    = Some (Security.SList dirs) ->
  dir ∈ dirs ->
  SecurityMore.secure_file_access (dir ++ rest) operation sm = Returned false.
Proof.
  intros Hd Hin. unfold SecurityMore.secure_file_access.
  destruct (negb _); [reflexivity|].
  unfold SecurityMore.is_sensitive_path. rewrite Hd. cbn [from_option id].
  assert (E : existsb (fun sensitive_dir =>
                         startswith sensitive_dir (dir ++ rest)) dirs
              = true).
  { apply existsb_exists. exists dir.
    split; [apply list_elem_of_In; exact Hin|apply startswith_app]. }
  rewrite E. reflexivity.
Qed.

End SensitiveDirectoryFacts.

(** X18. [_handle_add_sensitive_directory] with a system handler in place
    and a list under "sensitive_directories". For a directory whose
    resolved path is not listed, the path is appended to the list in
    memory - also when the settings file cannot be written, since the list
    is changed in place before [update_privacy_settings] is called; the
    file follows only when it can be written. From then on
    [secure_file_access] denies every path that starts with the resolved
    path, and a second request for the same directory only says that it is
    already listed and changes nothing. *)
Theorem X18_add_sensitive_directory
    (system_handler : SystemOps.SystemHandler) (cwd : PurePath.path)
    (command_text directory : string)
    (kwargs : list (string * option string))
    (st : Processor.State) (sm : Security.SecurityManager)
    (dirs : list string) :
  Processor.security_manager st = Some sm ->
  Processor.system_handler_ok st = true ->
  Security.privacy_settings sm !! "sensitive_directories"
    = Some (Security.SList dirs) ->
  directory <> "" ->
  let p := PurePath.to_str
             (SystemOps._resolve_path system_handler cwd
                (PyStr.strip directory)) in
  p ∉ dirs ->
  let r := PrivacyHandlers._handle_add_sensitive_directory system_handler cwd
             command_text (Some directory) kwargs st in
  Processor.trace_of r
  = [Processor.UpdatePrivacySettings
       [("sensitive_directories", Security.SList (dirs ++ [p]))];
     Processor.Speak ("I've added " ++ directory
                      ++ " to protected directories. Files in this location will be secure.")]
  /\ exists sm1,
       Processor.security_manager (Processor.state_of r) = Some sm1
       /\ Security.privacy_settings sm1
          = <["sensitive_directories" := Security.SList (dirs ++ [p])]>
              (Security.privacy_settings sm)
       /\ Security.privacy_file (Processor.disk (Processor.state_of r))
          = (if Security.writable (Processor.disk st)
             then Some (Some (Security.privacy_settings sm1))
             else Security.privacy_file (Processor.disk st))
       /\ (forall rest operation,
             SecurityMore.secure_file_access (p ++ rest) operation sm1
             = PyExc.Returned false)
       /\ (forall text kw,
             PrivacyHandlers._handle_add_sensitive_directory system_handler
               cwd text (Some directory) kw (Processor.state_of r)
             = ([Processor.Speak (directory ++ " is already in the list of protected directories.")],
                Processor.state_of r, PyExc.Returned tt)).
Proof.
  intros Hsm Hok Hdirs Hne p Hnew r. destruct directory as [|c s]; [congruence|].
  subst r.
  rewrite (add_run_new system_handler cwd command_text c s kwargs st sm dirs
             Hsm Hok Hdirs Hnew).
  fold p. unfold Processor.trace_of, Processor.state_of. cbn [fst snd].
  split; [reflexivity|]. eexists. split; [reflexivity|].
  cbn [Security.privacy_settings Security.set_privacy_settings
       Processor.disk Processor.set_security].
  split; [reflexivity|]. split; [|split].
  - destruct (Security.writable (Processor.disk st)); reflexivity.
  - intros rest operation.
    apply (listed_directory_denied _ (dirs ++ [p])%list).
    + cbn. apply lookup_insert_eq.
    + apply elem_of_app. right. apply list_elem_of_singleton. reflexivity.
  - intros text kw.
    eapply (add_run_old system_handler cwd text c s kw).
    + reflexivity.
    + exact Hok.
    + cbn. apply lookup_insert_eq.
    + fold p. apply elem_of_app. right. apply list_elem_of_singleton.
      reflexivity.
Qed.

Lemma X18_add_sensitive_directory_witness :
  Processor.trace_of
    (PrivacyHandlers._handle_add_sensitive_directory
       (SystemOps.make Sample.home) Sample.cwd
       "add sensitive directory ~/taxes" (Some " ~/taxes") [] Sample.started)
  = [Processor.UpdatePrivacySettings
       [("sensitive_directories",
         Security.SList ["C:\Users\tony\Documents";
                         "C:\Users\tony\Downloads";
                         "C:\Users\tony\Pictures";
                         "C:\Users\tony\taxes"])];
     Processor.Speak "I've added  ~/taxes to protected directories. Files in this location will be secure."].
Proof.
  refine (proj1 (X18_add_sensitive_directory (SystemOps.make Sample.home)
                   Sample.cwd "add sensitive directory ~/taxes" " ~/taxes" []
                   Sample.started Sample.manager
                   ["C:\Users\tony\Documents"; "C:\Users\tony\Downloads";
                    "C:\Users\tony\Pictures"] _ _ _ _ _)).
  - reflexivity.
  - reflexivity.
  - vm_compute. reflexivity.
  - discriminate.
  - apply (bool_decide_unpack _). vm_compute. exact I.
Defined.

(** * The main loop *)

Section ExtractFacts.
Import PyStr PyExc Processor Main.

Lemma append_String a (x y : string) : String a x ++ y = String a (x ++ y).
Proof. reflexivity. Qed.

Lemma startswith_drop p s :
  startswith p s = true -> s = p ++ drop_str (String.length p) s.
Proof.
  revert s. induction p as [|a p IH]; intros s H; [reflexivity|].
  destruct s as [|b s]; [discriminate|]. simpl in H.
  apply andb_true_iff in H as [Hab H]. apply bool_decide_eq_true in Hab.
  subst b. simpl. rewrite append_String. f_equal. apply IH. exact H.
Qed.

(** [split_once] cuts at an occurrence of the separator. *)
Lemma split_once_app sep s before after :
  split_once sep s = Some (before, after) -> s = before ++ sep ++ after.
Proof.
  revert before after. induction s as [|c s IH]; intros before after H.
  - simpl in H. destruct (startswith sep ""%string) eqn:E; [|discriminate].
    injection H as <- <-. simpl. apply startswith_drop. exact E.
  - simpl in H. destruct (startswith sep (String c s)) eqn:E.
    + injection H as <- <-. apply startswith_drop. exact E.
    + destruct (split_once sep s) as [[b a]|]; [|discriminate].
      injection H as <- <-. rewrite append_String. f_equal. apply IH.
      reflexivity.
Qed.

(** The occurrence is the first one. *)
Lemma split_once_first sep s before after :
  split_once sep s = Some (before, after) ->
  forall before' after',
    s = before' ++ sep ++ after' ->
    String.length before <= String.length before'.
Proof.
  revert before after. induction s as [|c s IH]; intros before after H b' a' E.
  - simpl in H. destruct (startswith sep ""%string); [|discriminate].
    injection H as <- <-. simpl. lia.
  - simpl in H. destruct (startswith sep (String c s)) eqn:Es.
    + injection H as <- <-. simpl. lia.
    + destruct (split_once sep s) as [[b a]|] eqn:Er; [|discriminate].
      injection H as <- <-. destruct b' as [|c' b'].
      * change ("" ++ sep ++ a') with (sep ++ a') in E.
        rewrite E, startswith_app in Es. discriminate.
      * rewrite append_String in E. injection E as _ E. simpl.
        specialize (IH b a eq_refl b' a' E). lia.
Qed.

Lemma contains_split_once sep s :
  contains sep s = true -> is_Some (split_once sep s).
Proof.
  induction s as [|c s IH]; simpl; intros H.
  - rewrite orb_false_r in H. rewrite H. eauto.
  - destruct (startswith sep (String c s)); [eauto|]. simpl in H.
    destruct (IH H) as [[b a] ->]. eauto.
Qed.

Lemma split_once_contains sep s :
  is_Some (split_once sep s) -> contains sep s = true.
Proof.
  induction s as [|c s IH]; simpl; intros [x H].
  - destruct (startswith sep ""%string); [reflexivity|discriminate].
  - destruct (startswith sep (String c s)); [reflexivity|]. simpl.
    apply IH. destruct (split_once sep s); [eauto|discriminate].
Qed.

Lemma contains_empty s : contains "" s = true.
Proof. destruct s; reflexivity. Qed.

End ExtractFacts.

(** X19. [extract_command] on a text that is not empty, both read in
    lower case. When the wake word does not occur, the whole text is the
    command. When it occurs and is not empty, the text is cut at its first
    occurrence: the command is what follows, stripped, and there is no
    command when nothing but white space follows; a command is never the
    empty string. An empty wake word occurs in every text and makes
    [split] raise [ValueError]. *)
Theorem X19_extract_command (text wake_word : string) :
  text <> "" ->
  (PyStr.contains (PyStr.lower wake_word) (PyStr.lower text) = false ->
   Main.extract_command (Some text) wake_word
   = PyExc.Returned (Some (PyStr.lower text)))
  /\ (PyStr.contains (PyStr.lower wake_word) (PyStr.lower text) = true ->
      PyStr.lower wake_word <> "" ->
      exists before after,
        PyStr.lower text = before ++ PyStr.lower wake_word ++ after
        /\ (forall before' after',
              PyStr.lower text = before' ++ PyStr.lower wake_word ++ after' ->
              String.length before <= String.length before')
        /\ Main.extract_command (Some text) wake_word
           = PyExc.Returned
               (if bool_decide (PyStr.strip after = "") then None
                else Some (PyStr.strip after)))
  /\ (forall command,
        Main.extract_command (Some text) wake_word
        = PyExc.Returned (Some command) -> command <> "")
  /\ (PyStr.lower wake_word = "" ->
      Main.extract_command (Some text) wake_word
      = PyExc.Raised (Main.ValueError "empty separator")).
Proof.
  intros Hne. destruct text as [|c r]; [congruence|].
  unfold Main.extract_command.
  split; [|split; [|split]].
  - intros ->. reflexivity.
  - intros Hc Hw. rewrite Hc.
    destruct (PyStr.lower wake_word) as [|w ww] eqn:Ew; [congruence|].
    destruct (contains_split_once _ _ Hc) as [[before after] Hs].
    rewrite Hs. exists before, after.
    split; [apply split_once_app; exact Hs|].
    split; [apply (split_once_first _ _ _ _ Hs)|].
    destruct (PyStr.strip after); reflexivity.
  - intros command.
    destruct (PyStr.contains _ _).
    + destruct (PyStr.lower wake_word); [discriminate|].
      destruct (Main.split_once _ _) as [[b0 a0]|]; [|discriminate].
      destruct (PyStr.strip a0); [discriminate|].
      intros [= <-]. discriminate.
    + intros [= <-]. discriminate.
  - intros ->. rewrite contains_empty. reflexivity.
Qed.

Lemma X19_extract_command_witness :
  Main.extract_command (Some "Hey Jarvis, what time is it? ") "jarvis"
  = PyExc.Returned (Some ", what time is it?")
  /\ Main.extract_command (Some "Open Notepad") "jarvis"
     = PyExc.Returned (Some "open notepad").
Proof.
  split.
  - vm_compute. reflexivity.
  - refine (proj1 (X19_extract_command "Open Notepad" "jarvis" _) _).
    + discriminate.
    + vm_compute. reflexivity.
Defined.

Section LoopFacts.
Import PyStr PyExc Processor Main.
Variable env : Env.

(** No exception derived from [Exception] leaves the dispatcher. *)
Lemma process_command_guarded text st e :
  outcome_of (process_command env text st) = Raised e ->
  is_Exception e = false.
Proof.
  destruct text as [|c r]; [discriminate|].
  rewrite process_command_scan,
    (scan_select env commands _ st commands_compile).
  destruct (select commands _) as [[i rule]|]; [|discriminate].
  destruct (rule_match rule _) as [[groups kwargs]|]; [|discriminate].
  destruct (call env rule.2 (strip (lower (String c r))) groups kwargs st)
    as [[tr st1] o] eqn:E.
  rewrite (guarded_call env _ _ _ _ _ _ _ _ E).
  destruct o as [a|e0]; [discriminate|].
  destruct (is_Exception e0) eqn:Ee; [discriminate|].
  unfold outcome_of. cbn [snd]. intros [= <-]. exact Ee.
Qed.

(** A round of the loop in which the listener gives its results and the
    wake word is not empty lets no exception derived from [Exception]
    out. *)
Lemma round_body_guarded wake_word r st e :
  lower wake_word <> "" ->
  heard r ->
  outcome_of (round_body env wake_word r st) = Raised e ->
  is_Exception e = false.
Proof.
  intros Hw [[wt Hwt] [cm Hcm]].
  unfold round_body, bind, emit, lift. cbn [fst snd]. rewrite Hwt.
  destruct (truthy wt) eqn:Et; [|discriminate].
  destruct wt as [[|c t]|]; try discriminate.
  assert (Hx : exists x, extract_command (Some (String c t)) wake_word
                         = Returned x).
  { unfold extract_command. destruct (contains _ _); [|eauto].
    destruct (lower wake_word); [congruence|].
    destruct (split_once _ _) as [[b0 a0]|]; [|eauto].
    destruct (strip a0); eauto. }
  destruct Hx as [x ->].
  destruct x as [[|c1 t1]|].
  - rewrite Hcm. destruct cm as [[|c2 t2]|]; try discriminate.
    pose proof (process_command_guarded (String c2 t2) st e) as H.
    destruct (process_command env (String c2 t2) st) as [[tr st1] o].
    exact H.
  - pose proof (process_command_guarded (String c1 t1) st e) as H.
    destruct (process_command env (String c1 t1) st) as [[tr st1] o].
    exact H.
  - rewrite Hcm. destruct cm as [[|c2 t2]|]; try discriminate.
    pose proof (process_command_guarded (String c2 t2) st e) as H.
    destruct (process_command env (String c2 t2) st) as [[tr st1] o].
    exact H.
Qed.

Lemma loop_guarded wake_word rounds st e :
  lower wake_word <> "" ->
  Forall heard rounds ->
  outcome_of (loop env wake_word rounds st) = Raised e ->
  is_Exception e = false.
Proof.
  intros Hw Hr. revert st. induction Hr as [|r rest Hh _ IH]; intros st.
  - discriminate.
  - cbn [loop]. unfold bind.
    pose proof (round_body_guarded wake_word r st e Hw Hh) as H1.
    destruct (round_body env wake_word r st) as [[tr st1] [[]|e1]].
    + specialize (IH st1).
      destruct (loop env wake_word rest st1) as [[tr2 st2] o2].
      exact IH.
    + exact H1.
Qed.

End LoopFacts.

(** X20. The main loop outlives the failures of the handlers. With a wake
    word that is not empty and a listener that gives its results, no
    exception derived from [Exception] ever leaves the loop, whatever the
    handlers and the collaborators do: [run] then never says that it met
    an unexpected error on account of the loop, and what ends it is an
    exception outside [Exception] - the [SystemExit] of the shutdown
    handler, passed on as it is, or a [KeyboardInterrupt], turned into the
    farewell and [SystemExit] with code 0. An empty wake word ends [run]
    in the first round with a wake text, with the line for an unexpected
    error and exit code 1, before any command is processed. *)
Theorem X20_main_loop_outlives_handler_failures
    (env : Processor.Env) (wake_word : string)
    (rounds : list Main.round) (st : Processor.State) :
  (PyStr.lower wake_word <> "" ->
   Forall Main.heard rounds ->
   (forall e,
      Processor.outcome_of (Main.loop env wake_word rounds st)
      = PyExc.Raised e ->
      PyExc.is_Exception e = false)
   /\ Main.run env wake_word rounds st
      = (let greeting :=
           [Processor.Speak "Initializing JARVIS system. All systems are now online.";
            Processor.Speak "At your service, sir. Say my name followed by a command."] in
         match Main.loop env wake_word rounds st with
         | (tr, st1, PyExc.Raised e) =>
             match PyExc.exn_class_of e with
             | PyExc.KeyboardInterrupt =>
                 ((greeting ++ tr ++ [Processor.Speak "Goodbye, sir."])%list,
                  st1,
                  PyExc.Raised {| PyExc.exn_class_of := PyExc.SystemExit;
                                  PyExc.exn_str := "0" |})
             | _ => ((greeting ++ tr)%list, st1, PyExc.Raised e)
             end
         | (tr, st1, o) => ((greeting ++ tr)%list, st1, o)
         end))
  /\ (PyStr.lower wake_word = "" ->
      forall c t heard_next rest,
        rounds = {| Main.wake_text := PyExc.Returned (Some (String c t));
                    Main.command := heard_next |} :: rest ->
        Main.run env wake_word rounds st
        = ([Processor.Speak "Initializing JARVIS system. All systems are now online.";
            Processor.Speak "At your service, sir. Say my name followed by a command.";
            Processor.Listen;
            Processor.Speak "I encountered an unexpected error and need to restart."],
           st,
           PyExc.Raised {| PyExc.exn_class_of := PyExc.SystemExit;
                           PyExc.exn_str := "1" |})).
Proof.
  split.
  - intros Hw Hr.
    pose proof (fun e => loop_guarded env wake_word rounds st e Hw Hr) as Hl.
    split; [exact Hl|].
    unfold Main.run, Processor.bind, Processor.speak, Processor.emit,
      Main.sys_exit, Processor.raise, Processor.outcome_of in *.
    cbn [fst snd] in *.
    destruct (Main.loop env wake_word rounds st) as [[tr st1] [[]|e1]];
      [reflexivity|].
    specialize (Hl e1 eq_refl). unfold PyExc.is_Exception in Hl.
    destruct e1 as [[name| | |] msg]; cbn in Hl |- *; try discriminate;
      reflexivity.
  - intros Hw c t heard_next rest ->.
    unfold Main.run, Processor.bind, Processor.speak, Processor.emit.
    cbn [fst snd Main.loop]. unfold Processor.bind, Main.round_body,
      Processor.bind, Processor.emit, Processor.lift.
    cbn [fst snd Main.wake_text PyStr.truthy].
    assert (E : Main.extract_command (Some (String c t)) wake_word
                = PyExc.Raised (Main.ValueError "empty separator")).
    { unfold Main.extract_command. rewrite Hw, contains_empty. reflexivity. }
    rewrite E. reflexivity.
Qed.

Lemma X20_main_loop_witness :
  Processor.outcome_of
    (Main.run Sample.failing_env "jarvis"
       [{| Main.wake_text := PyExc.Returned (Some "jarvis tell me a story");
           Main.command := PyExc.Returned None |};
        {| Main.wake_text := PyExc.Returned (Some "jarvis");
           Main.command := PyExc.Returned (Some "exit") |}]
       Sample.started)
  = PyExc.Raised {| PyExc.exn_class_of := PyExc.SystemExit;
                    PyExc.exn_str := "0" |}.
Proof.
  destruct (X20_main_loop_outlives_handler_failures Sample.failing_env
              "jarvis"
              [{| Main.wake_text := PyExc.Returned (Some "jarvis tell me a story");
                  Main.command := PyExc.Returned None |};
               {| Main.wake_text := PyExc.Returned (Some "jarvis");
                  Main.command := PyExc.Returned (Some "exit") |}]
              Sample.started) as [H _].
  destruct H as [_ ->].
  - discriminate.
  - repeat constructor; eexists; reflexivity.
  - vm_compute. reflexivity.
Defined.

Example main_loop_two_rounds :
  Processor.trace_of
    (Main.run Sample.failing_env "jarvis"
       [{| Main.wake_text := PyExc.Returned (Some "jarvis tell me a story");
           Main.command := PyExc.Returned None |};
        {| Main.wake_text := PyExc.Returned (Some "jarvis");
           Main.command := PyExc.Returned (Some "exit") |}]
       Sample.started)
  = [Processor.Speak "Initializing JARVIS system. All systems are now online.";
     Processor.Speak "At your service, sir. Say my name followed by a command.";
     Processor.Listen;
     Processor.Invoke Processor.h_default_response [] [];
     Processor.Speak "One moment.";
     Processor.Speak Processor.error_processing;
     Processor.Listen;
     Processor.Other "play_activation_sound";
     Processor.Listen;
     Processor.Invoke Processor.h_shutdown [Some "exit"] [];
     Processor.Speak "Shutting down. Goodbye, sir."].
Proof. vm_compute. reflexivity. Qed.

(** * Paths *)

Section PathShapeFacts.
Import PyStr PurePath SystemOps PathMore.

Lemma append_empty_r (s : string) : s ++ "" = s.
Proof.
  induction s as [|c s IH]; [reflexivity|].
  rewrite append_String, IH. reflexivity.
Qed.





End PathShapeFacts.



(** A component that looks like a drive makes [Path.cwd() / path] forget
    what stands before it: the parts of [path] are parsed once more. *)
Example resolve_path_forgets_components :
  PurePath.to_str
    (SystemOps._resolve_path (SystemOps.make Sample.home) Sample.cwd
       "notes/C:plan.txt")
  = "C:\Users\tony\jarvis\plan.txt".
Proof. vm_compute. reflexivity. Qed.

Section KnownDirectoryFacts.
Import PyStr PurePath SystemOps PathMore.

Lemma lower_app a b : lower (a ++ b) = lower a ++ lower b.
Proof.
  induction a as [|c a IH]; [reflexivity|].
  rewrite append_String. simpl. rewrite IH, append_String. reflexivity.
Qed.

Lemma lower_length s : String.length (lower s) = String.length s.
Proof. induction s as [|c s IH]; simpl; congruence. Qed.

Lemma drop_after w c rest :
  drop_str (S (String.length w)) (w ++ String c rest) = rest.
Proof.
  induction w as [|a w IH]; [reflexivity|].
  rewrite append_String. exact IH.
Qed.

Lemma drop_all w : drop_str (S (String.length w)) w = "".
Proof. induction w as [|a w IH]; [reflexivity|exact IH]. Qed.

(** A text that reads as one of the names does not begin with the home
    marker. *)
Lemma no_tilde w x a r :
  lower w = String a r -> a <> "~"%char -> startswith "~" (w ++ x) = false.
Proof.
  intros Hw Ha. destruct w as [|a0 w]; [discriminate|].
  rewrite append_String. simpl in *. injection Hw as Hw _.
  rewrite bool_decide_eq_false_2; [reflexivity|].
  intros <-. apply Ha. rewrite <- Hw. reflexivity.
Qed.

End KnownDirectoryFacts.

(** X22. The three names [_resolve_path] knows, in any mix of upper and
    lower case. The name alone is the directory it stands for. When more
    text follows the name, the character right after the name is dropped
    whatever it is - a separator or the first letter of something else -
    and the rest, without leading separators, is taken under that
    directory: "desktop/notes" and "desktopXnotes" are the same path, and
    "Documents2" is the directory "Documents" itself. *)
Theorem X22_known_directory_names
    (self : SystemOps.SystemHandler) (cwd : PurePath.path)
    (name w : string) (dir : PurePath.path) :
  (name, dir) ∈ PathMore.known_directories self ->
  PyStr.lower w = name ->
  SystemOps._resolve_path self cwd w = PurePath.join_str dir ""
  /\ forall c rest,
       SystemOps._resolve_path self cwd (w ++ String c rest)
       = PurePath.join_str dir
           (PyStr.lstrip_chars ["/"; "\"]%char rest).
Proof.
  intros Hin Hw.
  assert (Hcases :
    (name = "desktop" /\ dir = SystemOps.desktop self)
    \/ (name = "documents" /\ dir = SystemOps.documents self)
    \/ (name = "downloads" /\ dir = SystemOps.downloads self)).
  { unfold PathMore.known_directories in Hin.
    repeat (apply elem_of_cons in Hin as [Hin|Hin];
            [injection Hin as -> ->; auto|]).
    apply elem_of_nil in Hin. contradiction. }
  assert (Hlen : String.length w = String.length name)
    by (rewrite <- Hw; symmetry; apply lower_length).
  assert (Hw0 : SystemOps._resolve_path self cwd w
                = SystemOps._resolve_path self cwd (w ++ "")).
  { rewrite append_empty_r. reflexivity. }
  split.
  - rewrite Hw0. unfold SystemOps._resolve_path.
    destruct Hcases as [[-> ->]|[[-> ->]|[-> ->]]];
      rewrite (no_tilde w "" _ _ Hw) by discriminate;
      rewrite lower_app, Hw; change (PyStr.lower "") with "";
      rewrite !append_empty_r; cbn [PyStr.startswith];
      rewrite ?bool_decide_eq_true_2 by reflexivity;
      rewrite ?(bool_decide_eq_false_2 ("e"%char = "o"%char)) by discriminate;
      cbn [andb];
      change 8 with (S 7); change 10 with (S 9);
      simpl in Hlen; rewrite <- Hlen, drop_all; reflexivity.
  - intros c rest. unfold SystemOps._resolve_path.
    destruct Hcases as [[-> ->]|[[-> ->]|[-> ->]]];
      rewrite (no_tilde w _ _ _ Hw) by discriminate;
      rewrite lower_app, Hw, !append_String;
      change ("" ++ PyStr.lower (String c rest))
        with (PyStr.lower (String c rest));
      cbn [PyStr.startswith];
      rewrite ?bool_decide_eq_true_2 by reflexivity;
      rewrite ?(bool_decide_eq_false_2 ("e"%char = "o"%char)) by discriminate;
      cbn [andb];
      change 8 with (S 7); change 10 with (S 9);
      simpl in Hlen; rewrite <- Hlen, drop_after; reflexivity.
Qed.

Lemma X22_known_directory_names_witness :
  SystemOps._resolve_path (SystemOps.make Sample.home) Sample.cwd
    "DesktopXnotes"
  = PurePath.parse "C:\Users\tony\Desktop\notes".
Proof.
  exact (proj2 (X22_known_directory_names (SystemOps.make Sample.home)
                  Sample.cwd "desktop" "Desktop"
                  (SystemOps.desktop (SystemOps.make Sample.home))
                  ltac:(left) eq_refl) "X"%char "notes").
Defined.

(** * Rules behind the rules for questions *)

Section DeadRuleFacts.
Import PyStr PyExc Regex Processor TableMore.

(** A text that matches a literal starts with it. *)
Lemma literal_match c p s caps kont :
  rmatch true (literal c p) s caps kont
  = if istartswith (String c p) s
    then kont (drop_str (S (String.length p)) s) caps
    else None.
Proof.
  revert c s. induction p as [|d p IH]; intros c s.
  - destruct s as [|x s]; [reflexivity|]. cbn [literal rmatch istartswith].
    destruct (char_eqb true c x); reflexivity.
  - destruct s as [|x s]; [reflexivity|].
    cbn [literal rmatch]. change (istartswith (String c (String d p)) (String x s))
      with (char_eqb true c x && istartswith (String d p) s).
    destruct (char_eqb true c x); [|reflexivity]. rewrite IH. reflexivity.
Qed.

(** Under a character that compares equal to [p], every comparison is
    decided by [p]. *)
Lemma char_eqb_decided p a :
  char_eqb true p a = true ->
  forall q, char_eqb true q a
            = bool_decide (lower_char q = lower_char p).
Proof.
  unfold char_eqb. intros H%bool_decide_eq_true q. rewrite <- H. reflexivity.
Qed.

Lemma any_char_decided p a :
  char_eqb true p a = true ->
  lower_char p <> "010"%char ->
  in_cls AnyChar a = true.
Proof.
  unfold char_eqb, in_cls. intros H%bool_decide_eq_true Hp.
  rewrite bool_decide_eq_false_2; [reflexivity|].
  intros ->. apply Hp. rewrite H. reflexivity.
Qed.

Lemma istartswith_cons p ps s :
  istartswith (String p ps) s = true ->
  exists a t, s = String a t /\ char_eqb true p a = true
              /\ istartswith ps t = true.
Proof.
  destruct s as [|a t]; [discriminate|]. cbn [istartswith].
  intros [Ha Ht]%andb_true_iff. eauto.
Qed.

Lemma is_Some_first {A} (x : option A) (y : option A) :
  is_Some x -> is_Some (match x with Some r => Some r | None => y end).
Proof. intros [r ->]. eauto. Qed.

End DeadRuleFacts.

(** Takes the characters a known prefix gives off the front of the text. *)
Ltac peel H :=
  repeat
    match type of H with
    | TableMore.istartswith (String _ _) ?t = true =>
        let a := fresh "a" in
        let t' := fresh "t" in
        let Ha := fresh "Ha" in
        apply istartswith_cons in H as (a & t' & -> & Ha & H)
    end.

(** Decides every comparison with a character the prefix has fixed. *)
Ltac decide_chars :=
  repeat
    match goal with
    | Ha : Regex.char_eqb true ?p ?a = true
      |- context [Regex.char_eqb true ?q ?a] =>
        rewrite (char_eqb_decided p a Ha q)
    | Ha : Regex.char_eqb true ?p ?a = true
      |- context [Regex.in_cls Regex.AnyChar ?a] =>
        rewrite (any_char_decided p a Ha) by (vm_compute; discriminate)
    end;
  repeat
    match goal with
    | |- context [bool_decide (PyStr.lower_char ?q = PyStr.lower_char ?p)] =>
        let b := eval vm_compute in
                   (bool_decide (PyStr.lower_char q = PyStr.lower_char p)) in
        change (bool_decide (PyStr.lower_char q = PyStr.lower_char p)) with b
    end.

Ltac matches_rule H :=
  unfold Processor.rule_match; cbn [fst];
  match goal with
  | |- is_Some (match Regex.compile ?p with _ => _ end) =>
      let cp := fresh "cp" in
      let Ec := fresh "Ec" in
      destruct (Regex.compile p) as [cp|] eqn:Ec;
      [|vm_compute in Ec; discriminate];
      vm_compute in Ec; injection Ec as <-
  end;
  match goal with
  | |- is_Some (match ?m with _ => _ end) =>
      let Hm := fresh "Hm" in
      let g := fresh "g" in
      assert (Hm : is_Some m); [|destruct Hm as [g ->]; eauto]
  end;
  unfold Regex.re_match; cbn [Regex.re Regex.groups];
  peel H; cbn [Regex.rmatch]; decide_chars; cbv beta iota;
  repeat apply is_Some_first;
  apply more_greedy_total; eauto.

Section DeadRules.
Import PyStr PyExc Regex Processor TableMore.

Lemma question_who_are_you t :
  istartswith "who are you" t = true ->
  is_Some (rule_match question_rule t).
Proof. intros H. unfold question_rule. matches_rule H. Qed.

Lemma question_what_are_you t :
  istartswith "what are you" t = true ->
  is_Some (rule_match question_rule t).
Proof. intros H. unfold question_rule. matches_rule H. Qed.

Lemma question_how_are_you t :
  istartswith "how are you" t = true ->
  is_Some (rule_match question_rule t).
Proof. intros H. unfold question_rule. matches_rule H. Qed.

Lemma question_how_do_you_feel t :
  istartswith "how do you feel" t = true ->
  is_Some (rule_match question_rule t).
Proof. intros H. unfold question_rule. matches_rule H. Qed.

Lemma tell_me_about_yourself t :
  istartswith "tell me about yourself" t = true ->
  is_Some (rule_match tell_me_about_rule t).
Proof. intros H. unfold tell_me_about_rule. matches_rule H. Qed.

(** What the rule for the introduction matches starts with one of its
    three phrases. *)
Lemma introduce_rule_prefix t :
  is_Some (rule_match introduce_rule t) ->
  istartswith "who are you" t = true
  \/ istartswith "what are you" t = true
  \/ istartswith "tell me about yourself" t = true.
Proof.
  unfold rule_match, introduce_rule. cbn [fst].
  replace (compile "(who are you|what are you|tell me about yourself)")
    with (Some {| re := RGroup 1
                          (RAlt (literal "w" "ho are you")
                             (RAlt (literal "w" "hat are you")
                                (literal "t" "ell me about yourself")));
                  groups := 1; groupindex := [] |})
    by (vm_compute; reflexivity).
  unfold re_match. cbn [re groups rmatch]. rewrite !literal_match.
  destruct (istartswith "who are you" t); [auto|].
  destruct (istartswith "what are you" t); [auto|].
  destruct (istartswith "tell me about yourself" t); [auto|].
  intros [? [=]].
Qed.

Lemma mood_rule_prefix t :
  is_Some (rule_match mood_rule t) ->
  istartswith "how are you" t = true
  \/ istartswith "how do you feel" t = true.
Proof.
  unfold rule_match, mood_rule. cbn [fst].
  replace (compile "(how are you|how do you feel)")
    with (Some {| re := RGroup 1
                          (RAlt (literal "h" "ow are you")
                             (literal "h" "ow do you feel"));
                  groups := 1; groupindex := [] |})
    by (vm_compute; reflexivity).
  unfold re_match. cbn [re groups rmatch]. rewrite !literal_match.
  destruct (istartswith "how are you" t); [auto|].
  destruct (istartswith "how do you feel" t); [auto|].
  intros [? [=]].
Qed.

(** Whatever the rules for the introduction and the mood match, a rule for
    questions matches. *)
Lemma introduce_rule_shadowed t :
  is_Some (rule_match introduce_rule t) ->
  is_Some (rule_match question_rule t)
  \/ is_Some (rule_match tell_me_about_rule t).
Proof.
  intros [H|[H|H]]%introduce_rule_prefix.
  - left. apply question_who_are_you, H.
  - left. apply question_what_are_you, H.
  - right. apply tell_me_about_yourself, H.
Qed.

Lemma mood_rule_shadowed t :
  is_Some (rule_match mood_rule t) ->
  is_Some (rule_match question_rule t).
Proof.
  intros [H|H]%mood_rule_prefix.
  - apply question_how_are_you, H.
  - apply question_how_do_you_feel, H.
Qed.

(** The places of the four rules, and the only places of the two
    handlers. *)
Lemma question_rules_positions :
  commands !! 42 = Some question_rule
  /\ commands !! 43 = Some tell_me_about_rule
  /\ commands !! 45 = Some introduce_rule
  /\ commands !! 46 = Some mood_rule.
Proof. repeat split; reflexivity. Qed.

Lemma introduce_only_there i p :
  commands !! i = Some (p, h_introduce_self) ->
  i = 45 /\ (p, h_introduce_self) = introduce_rule.
Proof.
  intros H.
  do 57 (destruct i as [|i];
         [vm_compute in H; first [discriminate H
                                 | injection H as <-; split; reflexivity]|]).
  vm_compute in H. discriminate H.
Qed.

Lemma mood_only_there i p :
  commands !! i = Some (p, h_mood_response) ->
  i = 46 /\ (p, h_mood_response) = mood_rule.
Proof.
  intros H.
  do 57 (destruct i as [|i];
         [vm_compute in H; first [discriminate H
                                 | injection H as <-; split; reflexivity]|]).
  vm_compute in H. discriminate H.
Qed.

(** No text selects a rule of one of the two handlers. *)
Lemma select_never_introduce t i p h :
  select commands t = Some (i, (p, h)) ->
  h <> h_introduce_self /\ h <> h_mood_response.
Proof.
  intros Hsel.
  destruct (select_Some _ _ _ _ Hsel) as (Hi & Hm & Hfirst).
  destruct question_rules_positions as (H42 & H43 & _ & _).
  split; intros ->.
  - destruct (introduce_only_there i p Hi) as [-> Hr]. rewrite Hr in Hm.
    destruct (introduce_rule_shadowed t Hm) as [[x Hx]|[x Hx]].
    + rewrite (Hfirst 42 _ ltac:(lia) H42) in Hx. discriminate.
    + rewrite (Hfirst 43 _ ltac:(lia) H43) in Hx. discriminate.
  - destruct (mood_only_there i p Hi) as [-> Hr]. rewrite Hr in Hm.
    destruct (mood_rule_shadowed t Hm) as [x Hx].
    rewrite (Hfirst 42 _ ltac:(lia) H42) in Hx. discriminate.
Qed.

(** A handler the dispatcher calls is the handler of the selected rule. *)
Lemma invoked_is_selected env text st h groups kwargs :
  Invoke h groups kwargs ∈ trace_of (process_command env text st) ->
  exists i p, select commands (strip (lower text)) = Some (i, (p, h)).
Proof.
  destruct text as [|c r].
  { cbn. intros [H|H]%elem_of_cons; [discriminate|].
    apply elem_of_nil in H. contradiction. }
  rewrite process_command_scan,
    (scan_select env commands _ st commands_compile).
  assert (Hspeak : forall line,
            Invoke h groups kwargs ∈ trace_of (speak line st) -> False).
  { intros line [H|H]%elem_of_cons; [discriminate|].
    apply elem_of_nil in H. contradiction. }
  destruct (select commands _) as [[i [p h0]]|];
    [|intros H; destruct (Hspeak _ H)].
  destruct (rule_match (p, h0) _) as [[g kw]|];
    [|intros H; destruct (Hspeak _ H)].
  cbn [snd].
  destruct (call_trace env h0 (strip (lower (String c r))) g kw st)
    as (tr & Htr & Hb).
  destruct (call env h0 (strip (lower (String c r))) g kw st)
    as [[tr0 st1] o] eqn:E.
  rewrite (guarded_call env _ _ _ _ _ _ _ _ E).
  unfold trace_of in Htr. cbn [fst] in Htr. subst tr0.
  assert (Hbody : Invoke h groups kwargs ∉ tr).
  { intros Hin. rewrite Forall_forall in Hb. apply (Hb _ Hin). }
  assert (Hhead : Invoke h groups kwargs
                    ∈ (Invoke h0 g kw :: tr ++ [Speak error_processing])%list ->
                  h = h0).
  { intros [H|H]%elem_of_cons; [congruence|].
    apply elem_of_app in H as [H|H]; [contradiction|].
    apply list_elem_of_singleton in H. discriminate. }
  assert (Hhead' : Invoke h groups kwargs ∈ Invoke h0 g kw :: tr -> h = h0).
  { intros [H|H]%elem_of_cons; [congruence|contradiction]. }
  unfold trace_of.
  destruct o as [u|e]; [|destruct (is_Exception e)]; cbn [fst];
    intros H; exists i, p; f_equal; f_equal; f_equal; symmetry; auto.
Qed.

End DeadRules.

(** X23. The rules for "who are you", "what are you", "tell me about
    yourself" and for "how are you", "how do you feel" stand in the table
    behind the two rules for questions, and these match every text they
    match. So no input selects them, and the dispatcher never calls
    [_introduce_self] or [_mood_response]: the phrases go to
    [_answer_question]. *)
Theorem X23_introduction_and_mood_are_never_called
    (env : Processor.Env) (st : Processor.State) (text : string) :
  (Processor.commands !! 42 = Some TableMore.question_rule
   /\ Processor.commands !! 43 = Some TableMore.tell_me_about_rule
   /\ Processor.commands !! 45 = Some TableMore.introduce_rule
   /\ Processor.commands !! 46 = Some TableMore.mood_rule)
  /\ (is_Some (Processor.rule_match TableMore.introduce_rule text)
       \/ is_Some (Processor.rule_match TableMore.mood_rule text) ->
      is_Some (Processor.rule_match TableMore.question_rule text)
      \/ is_Some (Processor.rule_match TableMore.tell_me_about_rule text))
  /\ (forall i p h,
        Processor.select Processor.commands text = Some (i, (p, h)) ->
        h <> Processor.h_introduce_self /\ h <> Processor.h_mood_response)
  /\ (forall h groups kwargs,
        Processor.Invoke h groups kwargs
          ∈ Processor.trace_of (Processor.process_command env text st) ->
        h <> Processor.h_introduce_self /\ h <> Processor.h_mood_response).
Proof.
  split; [exact question_rules_positions|]. split; [|split].
  - intros [H|H].
    + apply introduce_rule_shadowed, H.
    + left. apply mood_rule_shadowed, H.
  - intros i p h. apply select_never_introduce.
  - intros h groups kwargs (i & p & Hsel)%invoked_is_selected.
    eapply select_never_introduce. exact Hsel.
Qed.

Lemma X23_introduction_and_mood_witness :
  is_Some (Processor.rule_match TableMore.introduce_rule "who are you")
  /\ (is_Some (Processor.rule_match TableMore.question_rule "who are you")
      \/ is_Some (Processor.rule_match TableMore.tell_me_about_rule
                    "who are you")).
Proof.
  assert (H : is_Some (Processor.rule_match TableMore.introduce_rule
                         "who are you"))
    by (vm_compute; eauto).
  split; [exact H|].
  apply (proj1 (proj2 (X23_introduction_and_mood_are_never_called
                         Sample.quiet_env Sample.started "who are you"))).
  left. exact H.
Defined.

Example who_are_you_is_a_question :
  Processor.trace_of
    (Processor.process_command Sample.quiet_env "Who are you?" Sample.started)
  = [Processor.Invoke Processor.h_answer_question [Some "who"; Some "are"] []].
Proof. vm_compute. reflexivity. Qed.

(** * The reporting handlers *)

Section ReportFacts.
Import PyStr PyExc Processor Security ReportHandlers.
Variable str_of : pyval -> string.

Lemma entry_text_logged c :
  entry_text str_of (access_entry c.1.1 c.1.2 c.2) = Returned (logged_text c).
Proof. reflexivity. Qed.

Lemma entry_texts_logged cs response :
  entry_texts str_of (map (fun c => access_entry c.1.1 c.1.2 c.2) cs) response
  = Returned (foldl (fun r c => r ++ logged_text c) response cs).
Proof.
  revert response. induction cs as [|c cs IH]; intros response; [reflexivity|].
  cbn [map entry_texts foldl]. rewrite entry_text_logged. apply IH.
Qed.

Lemma last_n_map {A B} (f : A -> B) n (l : list A) :
  last_n n (map f l) = map f (last_n n l).
Proof.
  unfold last_n. rewrite length_map. symmetry. apply (fmap_drop f).
Qed.

Lemma last_n_shorter {A} n m (l : list A) :
  n <= m -> last_n n (last_n m l) = last_n n l.
Proof.
  intros Hnm. unfold last_n. rewrite length_drop, drop_drop. f_equal. lia.
Qed.

Lemma last_n_length_min {A} n (l : list A) :
  length (last_n n l) = Nat.min (length l) n.
Proof. unfold last_n. rewrite length_drop. lia. Qed.

(** The handler on a log of entries as [log_data_access] writes them. *)
Lemma show_log_run t kwargs st sm c cs :
  security_manager st = Some sm ->
  get_secure_data "access_log" (PList []) sm
    = PList (map (fun c => access_entry c.1.1 c.1.2 c.2) (c :: cs)) ->
  _handle_show_data_access_log str_of t kwargs st
  = ([Speak (foldl (fun r c => r ++ logged_text c)
               "Recent data access activity: " (last_n 5 (c :: cs))
             ++ "Showing 5 of " ++ PrivacyHandlers.decimal (length (c :: cs))
             ++ " total entries.")],
     st, Returned tt).
Proof.
  intros Hsm Hlog.
  unfold _handle_show_data_access_log, try_except, bind, get_state, lift.
  cbn [fst snd]. rewrite Hsm, Hlog.
  cbn [py_truthy map negb]. rewrite bool_decide_eq_false_2 by discriminate.
  cbn [negb].
  change (access_entry c.1.1 c.1.2 c.2
          :: map (fun c => access_entry c.1.1 c.1.2 c.2) cs)
    with (map (fun c => access_entry c.1.1 c.1.2 c.2) (c :: cs)).
  rewrite last_n_map, entry_texts_logged, length_map. reflexivity.
Qed.

(** The log a run of calls of [log_data_access] leaves. *)
Lemma log_all_get calls sm d old :
  get_secure_data "access_log" (PList []) sm = PList old ->
  get_secure_data "access_log" (PList []) (SecurityMore.log_all calls sm d).1.2
  = PList (match calls with
           | [] => old
           | _ => last_n 1000
                    (old ++ map (fun c => access_entry c.1.1 c.1.2 c.2) calls)
           end).
Proof.
  revert sm d old.
  induction calls as [|[[now data_type] description] rest IH];
    intros sm d old Hget; [exact Hget|].
  cbn [SecurityMore.log_all].
  destruct (log_data_access_get now data_type description sm d old Hget)
    as [Ho Hl].
  destruct (log_data_access now data_type description sm d)
    as [[o sm1] d1]. cbn [fst snd] in Ho, Hl. subst o.
  rewrite (IH sm1 d1 _ Hl). destruct rest as [|c rest]; [reflexivity|].
  f_equal. rewrite last_n_last_n. cbn [map]. rewrite <- app_assoc.
  reflexivity.
Qed.

End ReportFacts.

(** X24. [_handle_show_data_access_log] on a log of entries as
    [log_data_access] writes them: it speaks one line, with the date, the
    data type and the description of the last five entries, oldest first,
    and ends it with "Showing 5 of n total entries", n the length of the
    log - "5" also when the log has fewer entries. After a run of calls of
    [log_data_access] on an empty log the entries spoken are those of the
    last five calls and n is the number of calls, but at most 1000. *)
Theorem X24_show_data_access_log
    (str_of : Security.pyval -> string) (command_text : string)
    (kwargs : list (string * option string))
    (st : Processor.State) (sm : Security.SecurityManager)
    (entries : list (string * string * string)) :
  Processor.security_manager st = Some sm ->
  entries <> [] ->
  (Security.get_secure_data "access_log" (Security.PList []) sm
   = Security.PList
       (map (fun c => Security.access_entry c.1.1 c.1.2 c.2) entries) ->
   ReportHandlers._handle_show_data_access_log str_of command_text kwargs st
   = ([Processor.Speak
         (foldl (fun r c => r ++ ReportHandlers.logged_text c)
            "Recent data access activity: " (Security.last_n 5 entries)
          ++ "Showing 5 of " ++ PrivacyHandlers.decimal (length entries)
          ++ " total entries.")],
      st, PyExc.Returned tt))
  /\ (forall sm0 d,
        Security.get_secure_data "access_log" (Security.PList []) sm0
        = Security.PList [] ->
        sm = (SecurityMore.log_all entries sm0 d).1.2 ->
        ReportHandlers._handle_show_data_access_log str_of command_text
          kwargs st
        = ([Processor.Speak
              (foldl (fun r c => r ++ ReportHandlers.logged_text c)
                 "Recent data access activity: " (Security.last_n 5 entries)
               ++ "Showing 5 of "
               ++ PrivacyHandlers.decimal (Nat.min (length entries) 1000)
               ++ " total entries.")],
           st, PyExc.Returned tt)).
Proof.
  intros Hsm Hne. split.
  - intros Hlog. destruct entries as [|c cs]; [congruence|].
    apply (show_log_run str_of _ _ _ _ _ _ Hsm Hlog).
  - intros sm0 d Hfresh ->.
    assert (Hlog :
      Security.get_secure_data "access_log" (Security.PList [])
        (SecurityMore.log_all entries sm0 d).1.2
      = Security.PList
          (map (fun c => Security.access_entry c.1.1 c.1.2 c.2)
             (Security.last_n 1000 entries))).
    { rewrite (log_all_get entries sm0 d [] Hfresh), <- last_n_map.
      destruct entries; [congruence|reflexivity]. }
    assert (Hne' : Security.last_n 1000 entries <> []).
    { intros H0. apply (f_equal length) in H0.
      rewrite last_n_length_min in H0. destruct entries; [congruence|].
      simpl in H0. lia. }
    destruct (Security.last_n 1000 entries) as [|c' cs'] eqn:E'; [congruence|].
    rewrite (show_log_run str_of _ _ _ _ _ _ Hsm Hlog).
    rewrite <- E', last_n_shorter by lia. rewrite last_n_length_min.
    reflexivity.
Qed.

Lemma X24_show_data_access_log_witness :
  Processor.trace_of
    (ReportHandlers._handle_show_data_access_log (fun _ => "")
       "show data access log" []
       {| Processor.system_handler_ok := true;
          Processor.security_manager :=
            Some (SecurityMore.log_all
                    [("2024-05-01T10:00:00", "cpu", "read cpu");
                     ("2024-05-02T11:30:00", "disk", "read disk")]
                    Sample.manager Sample.data_dir).1.2;
          Processor.disk := Sample.data_dir |})
  = [Processor.Speak "Recent data access activity: 2024-05-01: cpu - read cpu. 2024-05-02: disk - read disk. Showing 5 of 2 total entries."].
Proof.
  rewrite (proj2 (X24_show_data_access_log (fun _ => "")
                    "show data access log" []
                    {| Processor.system_handler_ok := true;
                       Processor.security_manager :=
                         Some (SecurityMore.log_all
                                 [("2024-05-01T10:00:00", "cpu", "read cpu");
                                  ("2024-05-02T11:30:00", "disk", "read disk")]
                                 Sample.manager Sample.data_dir).1.2;
                       Processor.disk := Sample.data_dir |}
                    (SecurityMore.log_all
                       [("2024-05-01T10:00:00", "cpu", "read cpu");
                        ("2024-05-02T11:30:00", "disk", "read disk")]
                       Sample.manager Sample.data_dir).1.2
                    [("2024-05-01T10:00:00", "cpu", "read cpu");
                     ("2024-05-02T11:30:00", "disk", "read disk")]
                    eq_refl ltac:(discriminate))
             Sample.manager Sample.data_dir
             ltac:(vm_compute; reflexivity) eq_refl).
  vm_compute. reflexivity.
Defined.

Section StatusFacts.
Import PyStr PyExc Processor Security ReportHandlers.

(** Saving the storage never removes a file. *)
Lemma save_keeps_files key data d :
  files_exist d -> files_exist (_save_secure_storage key data d).2.
Proof.
  intros [Hs Hp]. rewrite save_outcome.
  destruct (serializable (PDict data) && writable d); cbn [snd];
    [|split; assumption].
  split; [cbn; eauto|exact Hp].
Qed.

(** Loading the settings never removes a file. *)
Lemma load_privacy_keeps_files home d :
  files_exist d -> files_exist (_load_privacy_settings home d).2.
Proof.
  intros [Hs Hp]. split.
  - rewrite load_privacy_keeps_secure_file. exact Hs.
  - unfold _load_privacy_settings.
    destruct (privacy_file d) as [[s|]|] eqn:E;
      repeat (match goal with
              | |- context [if ?b then _ else _] => destruct b
              end);
      cbn [snd privacy_file set_privacy_file]; rewrite ?E; eauto.
Qed.

(** A start on a directory that can be written leaves both files. *)
Lemma init_files_exist home fresh temp d :
  writable d = true -> files_exist (init home fresh temp d).2.
Proof.
  intros Hw. rewrite init_unfold. cbv zeta. cbn [snd].
  set (kd := _initialize_encryption fresh temp d).
  destruct (initialize_keeps fresh temp d) as (_ & _ & Hw1).
  fold kd in Hw1. rewrite Hw in Hw1.
  set (pd := _load_privacy_settings home kd.2).
  pose proof (load_privacy_mirrors home kd.2 Hw1) as Hp. fold pd in Hp.
  destruct (load_privacy_keeps_storage_file home kd.2) as (_ & _ & Hw2).
  fold pd in Hw2. rewrite Hw1 in Hw2.
  destruct (load_storage_keeps_privacy kd.1 pd.2) as (Hp3 & _ & _).
  split; [|rewrite Hp3, Hp; eauto].
  unfold _load_secure_storage.
  destruct (secure_storage_file pd.2) as [b|] eqn:Eb.
  - destruct (decrypt kd.1 b); cbn [snd]; [rewrite Eb; eauto|].
    rewrite save_outcome, Hw2. cbn. eauto.
  - cbn [snd]. rewrite save_outcome, Hw2. cbn. eauto.
Qed.

(** What the status handler says. *)
Lemma status_run t kwargs st sm :
  security_manager st = Some sm ->
  exists line,
    _handle_data_security_status t kwargs st
    = ([Speak line], st, Returned tt)
    /\ (line = secure_line <-> files_exist (disk st)).
Proof.
  intros Hsm.
  unfold _handle_data_security_status, try_except, bind, get_state, speak,
    emit.
  cbn [fst snd]. rewrite Hsm. unfold files_exist.
  destruct (secure_storage_file (disk st)) as [b|];
    destruct (privacy_file (disk st)) as [f|];
    repeat (first [rewrite bool_decide_eq_true_2 by eauto
                  | rewrite bool_decide_eq_false_2
                      by (intros [? [=]])]);
    cbn [andb negb]; eexists; (split; [reflexivity|]);
    (split; [intros H|intros [[? H1] [? H2]]]);
    try discriminate; try (split; eauto); try reflexivity;
    vm_compute in H; discriminate.
Qed.

End StatusFacts.

(** X25. [_handle_data_security_status] says that the data is secure
    exactly when the encrypted storage file and the settings file exist;
    it never finds encryption wanting, since a security manager always has
    a cipher. Both files exist after a start on a data directory that can
    be written, and no operation of the security manager removes one: from
    then on the handler says that the data is secure, whatever has been
    stored, cleared or lost. *)
Theorem X25_data_security_status
    (command_text : string) (kwargs : list (string * option string))
    (st : Processor.State) (sm : Security.SecurityManager) :
  Processor.security_manager st = Some sm ->
  (exists line,
     ReportHandlers._handle_data_security_status command_text kwargs st
     = ([Processor.Speak line], st, PyExc.Returned tt)
     /\ (line = ReportHandlers.secure_line
         <-> ReportHandlers.files_exist (Processor.disk st)))
  /\ (forall home fresh temp d,
        Security.writable d = true ->
        ReportHandlers.files_exist (Security.init home fresh temp d).2)
  /\ (forall d,
        ReportHandlers.files_exist d ->
        (forall settings,
           ReportHandlers.files_exist
             (Security.update_privacy_settings settings sm d).2)
        /\ (forall key data,
              ReportHandlers.files_exist
                (Security.store_secure_data key data sm d).2)
        /\ (forall key,
              ReportHandlers.files_exist
                (SecurityMore.delete_secure_data key sm d).2)
        /\ (forall now data_type description,
              ReportHandlers.files_exist
                (Security.log_data_access now data_type description sm d).2)
        /\ ReportHandlers.files_exist (Security.clear_all_data sm d).2).
Proof.
  intros Hsm. split; [apply status_run with sm; exact Hsm|].
  split; [exact init_files_exist|].
  intros d Hd.
  assert (Hstore : forall sm0 key data,
            ReportHandlers.files_exist
              (Security.store_secure_data key data sm0 d).2).
  { intros sm0 key data. rewrite store_outcome.
    pose proof (save_keeps_files (Security.cipher_suite sm0)
                  (<[key:=data]> (Security.secure_storage sm0)) d Hd) as H.
    destruct (Security._save_secure_storage _ _ d) as [ok d1]. exact H. }
  split; [|split; [apply Hstore|split; [|split]]].
  - intros settings. rewrite update_unfold.
    destruct (Security.writable d); cbn [snd]; [|exact Hd].
    destruct Hd as [Hs Hp]. split; [exact Hs|cbn; eauto].
  - intros key. unfold SecurityMore.delete_secure_data.
    destruct (Security.secure_storage sm !! key); [|exact Hd].
    pose proof (save_keeps_files
                  (Security.cipher_suite
                     (Security.set_secure_storage
                        (delete key (Security.secure_storage sm)) sm))
                  (Security.secure_storage
                     (Security.set_secure_storage
                        (delete key (Security.secure_storage sm)) sm))
                  d Hd) as H.
    destruct (Security._save_secure_storage _ _ d) as [ok d1]. exact H.
  - intros now data_type description. unfold Security.log_data_access.
    destruct (Security.get_secure_data "access_log" (Security.PList []) sm)
      as [| | | |l| | |]; try exact Hd.
    match goal with
    | |- context [Security.store_secure_data ?k ?v ?m d] =>
        pose proof (Hstore m k v) as H;
        destruct (Security.store_secure_data k v m d) as [[ok sm2] d2]
    end.
    exact H.
  - unfold Security.clear_all_data.
    pose proof (save_keeps_files
                  (Security.cipher_suite (Security.set_secure_storage ∅ sm))
                  (Security.secure_storage (Security.set_secure_storage ∅ sm))
                  d Hd) as H.
    destruct (Security._save_secure_storage _ _ d) as [ok d1].
    cbn [snd] in H.
    pose proof (load_privacy_keeps_files
                  (Security.user_home (Security.set_secure_storage ∅ sm))
                  d1 H) as H2.
    destruct (Security._load_privacy_settings _ d1) as [ps d2]. exact H2.
Qed.

Lemma X25_data_security_status_witness :
  ReportHandlers.files_exist Sample.data_dir
  /\ ReportHandlers.files_exist
       (Security.clear_all_data Sample.manager Sample.data_dir).2.
Proof.
  destruct (X25_data_security_status "is my data secure" [] Sample.started
              Sample.manager eq_refl) as (_ & Hinit & Hkeep).
  assert (H : ReportHandlers.files_exist Sample.data_dir)
    by exact (Hinit Sample.home 1 2 Sample.empty_disk eq_refl).
  split; [exact H|]. apply (Hkeep _ H).
Defined.

Example data_is_secure_after_start :
  Processor.trace_of
    (ReportHandlers._handle_data_security_status "is my data secure" []
       Sample.started)
  = [Processor.Speak ReportHandlers.secure_line].
Proof. vm_compute. reflexivity. Qed.
